(** * OOP-metrics: the MOOD metrics engine of [src/analyzer.ts]

    A shallow embedding of the analyzer (class resolution with a
    memoising registry, property classification, ratio aggregation and
    result formatting) and the properties of it that the specification
    states.

    What the TypeScript compiler API supplies is taken as data: a
    [tsType] carries what [typeChecker.typeToString], [type.symbol],
    [type.getBaseTypes()] and [type.getProperties()] answer for it, a
    [Declaration] carries what the node accessors answer, and a [Node]
    of the syntax tree carries what [ts.isClassLike] and
    [typeChecker.getTypeAtLocation] answer.

    The [symbol] of a type may be [undefined] (the compiler gives none
    to [any] or to an intersection type, whatever [ts.Type] declares),
    and so may the [declarations] of a symbol, as [ts.Symbol] declares.
    The base types of a type form a finite tree (TypeScript rejects a
    class hierarchy with a cycle), so that [getClassMetrics] is a
    structural recursion on the type.

    One step at the boundary is left out: the final [JSON.stringify] of
    [formatMetrics] ([analyzeProgram] is the exported [analyze] on the
    files that pass its filter, [analyze] the exported function with
    the filter).

    Counters are JavaScript numbers that start at 0 and grow by
    additions of array lengths; they are exact integers (below 2^53) and
    are modelled by [nat].  The only division, [MoodMetric.calculate],
    is modelled by [number]: NaN, Infinity, or the exact quotient (the
    rounding of a finite quotient to binary64 is not modelled). *)

From Stdlib Require Import QArith.
From stdpp Require Import base option list strings pretty.

Local Open Scope string_scope.
Local Open Scope list_scope.
Local Open Scope nat_scope.

(** ** Exceptions and the result monad *)

(** [Error(`Unexpected base classes number ${n}`)] thrown by
    [getParentClassMetrics], and the [TypeError] of reading a property
    of [undefined]: [declarations] of an undefined [classType.symbol],
    or index 0 of an undefined [classType.symbol.declarations]. *)
Inductive Exception :=
  | UnexpectedBaseClassesNumber (n : nat)
  | TypeError.

Inductive Result (A : Type) :=
  | Ok (a : A)
  | Throw (e : Exception).
Arguments Ok {A} a.
Arguments Throw {A} e.

#[global] Instance Result_ret : MRet Result := @Ok.
#[global] Instance Result_bind : MBind Result := λ A B f m,
  match m with
  | Ok a => f a
  | Throw e => Throw e
  end.

(** [for (const x of l) body] and [l.forEach(body)] over a state [S];
    a throw leaves the loop. *)
Definition forOf {A S : Type} (body : A → S → Result S)
  : list A → S → Result S :=
  fix go l s :=
    match l with
    | [] => Ok s
    | x :: l' => s' ← body x s; go l' s'
    end.

(** ** What the compiler API supplies *)

Inductive SyntaxKind :=
  | PrivateKeyword
  | PrivateIdentifier
  | PublicKeyword
  | ProtectedKeyword
  | StaticKeyword
  | ReadonlyKeyword
  | PropertyDeclaration
  | ParameterKind
  | GetAccessor
  | SetAccessor
  | MethodDeclaration
  | Constructor
  | PropertySignature
  | MethodSignature
  | ClassDeclaration
  | ClassExpression
  | InterfaceDeclaration
  | OtherKind.

#[global] Instance SyntaxKind_eq_dec : EqDecision SyntaxKind.
Proof. solve_decision. Defined.

(** A declaration node.  [nodeId] stands for the identity of the object
    (what [===] compares); [parent] is the identity of [decl.parent]. *)
Record Declaration := {
  nodeId : nat;
  kind : SyntaxKind;
  nameText : string;                      (* decl.name.getText() *)
  modifiers : option (list SyntaxKind);   (* modifier.kind of decl.modifiers *)
  parent : nat;
  fileName : string;                      (* node.getSourceFile().fileName *)
  startLine : nat;                        (* line of node.getStart(), 0-based *)
  startCharacter : nat                    (* character of node.getStart(), 0-based *)
}.

(** [ts.Symbol]: [declarations?: Declaration[]]. *)
Record Symbol := {
  declarations : option (list Declaration)
}.

(** [ts.Type], with the answers of the type checker for it. *)
#[warnings="-register-all"]
Inductive tsType := mkType {
  typeToString : string;                  (* typeChecker.typeToString(type) *)
  symbol : option Symbol;                 (* type.symbol, possibly undefined *)
  getBaseTypes : option (list tsType);
  getProperties : list Symbol
}.

(** [classType.symbol.declarations] where it can be read: [None] when
    the symbol, or its declarations array, is [undefined]. *)
Definition symbolDeclarations (classType : tsType) : option (list Declaration) :=
  symbol classType ≫= declarations.

(** A node of a source file: [classLike] is [Some t] when
    [ts.isClassLike(node)], with [t] the type at that location;
    [children] is what [forEachChild] visits, in order. *)
#[warnings="-register-all"]
Inductive Node := mkNode {
  classLike : option tsType;
  children : list Node
}.

(** ** The classes of the analyzer *)

Inductive PropType := methodsT | attributesT.

Record PropertyMetrics := {
  propType : PropType;
  privateCount : nat;
  inherited : list Declaration;
  overridden : list Declaration;
  own : list Declaration
}.

Record ClassMetrics := {
  className : string;
  classPath : string;
  parentClass : string;
  depthOfInheritance : nat;
  numberOfChildren : nat;
  methods : PropertyMetrics;
  attributes : PropertyMetrics
}.

Record MoodMetricT := {
  divided : nat;
  divider : nat
}.

(** A JavaScript number as a division of two counters yields it.
    [Finite q] stands for the binary64 number nearest to the quotient
    [q]: the quotient is kept exact, its rounding is not modelled. *)
Inductive number :=
  | NaN
  | Infinity
  | Finite (q : Q).

Module MoodMetric.

Definition new : MoodMetricT := {| divided := 0; divider := 0 |}.

(** [this.divided / this.divider] *)
Definition calculate (this : MoodMetricT) : number :=
  match divider this, divided this with
  | 0, 0 => NaN
  | 0, S _ => Infinity
  | S d, n => Finite (Z.of_nat n # Pos.of_succ_nat d)
  end.

(** [m.divided += a; m.divider += b] *)
Definition add (a b : nat) (this : MoodMetricT) : MoodMetricT :=
  {| divided := divided this + a; divider := divider this + b |}.

End MoodMetric.

Module PropertyMetrics.

Definition new (propType : PropType) : PropertyMetrics :=
  {| propType := propType; privateCount := 0;
     inherited := []; overridden := []; own := [] |}.

Definition allProps (this : PropertyMetrics) : list Declaration :=
  inherited this ++ overridden this ++ own this.

Definition length (this : PropertyMetrics) : nat :=
  List.length (allProps this) + privateCount this.

Definition IS_ATTR_DECL : list (Declaration → bool) :=
  [ (λ d, bool_decide (kind d = PropertyDeclaration));
    (λ d, bool_decide (kind d = ParameterKind));
    (λ d, bool_decide (kind d = GetAccessor)) ].

Definition PRIVATE_MODIFIERS : list SyntaxKind :=
  [PrivateKeyword; PrivateIdentifier].

Definition isOfType (propType : PropType) (propDecl : Declaration) : bool :=
  match propType with
  | methodsT => bool_decide (kind propDecl = MethodDeclaration)
  | attributesT => existsb (λ isDecl, isDecl propDecl) IS_ATTR_DECL
  end.

Definition isPrivate (decl : Declaration) : bool :=
  match modifiers decl with
  | None => false
  | Some ms => existsb (λ modifier, bool_decide (modifier ∈ PRIVATE_MODIFIERS)) ms
  end.

Definition incrPrivateCount (this : PropertyMetrics) : PropertyMetrics :=
  {| propType := propType this; privateCount := privateCount this + 1;
     inherited := inherited this; overridden := overridden this;
     own := own this |}.

Definition pushOwn (decl : Declaration) (this : PropertyMetrics) : PropertyMetrics :=
  {| propType := propType this; privateCount := privateCount this;
     inherited := inherited this; overridden := overridden this;
     own := own this ++ [decl] |}.

Definition pushOverridden (decl : Declaration) (this : PropertyMetrics) : PropertyMetrics :=
  {| propType := propType this; privateCount := privateCount this;
     inherited := inherited this; overridden := overridden this ++ [decl];
     own := own this |}.

Definition pushInherited (decl : Declaration) (this : PropertyMetrics) : PropertyMetrics :=
  {| propType := propType this; privateCount := privateCount this;
     inherited := inherited this ++ [decl]; overridden := overridden this;
     own := own this |}.

(** [parentClass?.[this.propType]?.allProps() ?? []] *)
Definition parentPropsOf (propType : PropType) (parentClass : option ClassMetrics)
  : list Declaration :=
  match parentClass with
  | None => []
  | Some pc =>
      match propType with
      | methodsT => allProps (methods pc)
      | attributesT => allProps (attributes pc)
      end
  end.

(** [decl.parent === classDecl], [classDecl] possibly [undefined]. *)
Definition parentIs (decl : Declaration) (classDecl : option Declaration) : bool :=
  match classDecl with
  | None => false
  | Some cd => bool_decide (parent decl = nodeId cd)
  end.

(** The body of the loop of [analyze], for one property symbol. *)
Definition analyzeProp (parentProps : list Declaration) (classType : tsType)
    (prop : Symbol) (this : PropertyMetrics) : Result PropertyMetrics :=
  match declarations prop ≫= head with          (* prop.declarations?.[0] *)
  | None => Ok this
  | Some decl =>
      if negb (isOfType (propType this) decl) then Ok this
      else
        let this := if isPrivate decl then incrPrivateCount this else this in
        let declName := nameText decl in
        let isInherited :=
          existsb (λ prop, bool_decide (nameText prop = declName)) parentProps in
        if negb isInherited then Ok (pushOwn decl this)
        else
          match symbolDeclarations classType with   (* declarations![0] *)
          | None => Throw TypeError
          | Some ds =>
              let classDecl := head ds in
              if parentIs decl classDecl
              then Ok (pushOverridden decl this)
              else Ok (pushInherited decl this)
          end
  end.

Definition analyze (parentClass : option ClassMetrics) (classType : tsType)
    (this : PropertyMetrics) : Result PropertyMetrics :=
  let parentProps := parentPropsOf (propType this) parentClass in
  forOf (analyzeProp parentProps classType) (getProperties classType) this.

End PropertyMetrics.

Module ClassMetrics.

(** [new ClassMetrics()] *)
Definition new : ClassMetrics :=
  {| className := ""; classPath := ""; parentClass := "";
     depthOfInheritance := 0; numberOfChildren := 0;
     methods := PropertyMetrics.new methodsT;
     attributes := PropertyMetrics.new attributesT |}.

(** Assignments to the fields of an object. *)
Definition setClassName (v : string) (c : ClassMetrics) : ClassMetrics :=
  {| className := v; classPath := classPath c; parentClass := parentClass c;
     depthOfInheritance := depthOfInheritance c;
     numberOfChildren := numberOfChildren c;
     methods := methods c; attributes := attributes c |}.

Definition setClassPath (v : string) (c : ClassMetrics) : ClassMetrics :=
  {| className := className c; classPath := v; parentClass := parentClass c;
     depthOfInheritance := depthOfInheritance c;
     numberOfChildren := numberOfChildren c;
     methods := methods c; attributes := attributes c |}.

Definition setParentClass (v : string) (c : ClassMetrics) : ClassMetrics :=
  {| className := className c; classPath := classPath c; parentClass := v;
     depthOfInheritance := depthOfInheritance c;
     numberOfChildren := numberOfChildren c;
     methods := methods c; attributes := attributes c |}.

Definition setDepthOfInheritance (v : nat) (c : ClassMetrics) : ClassMetrics :=
  {| className := className c; classPath := classPath c;
     parentClass := parentClass c;
     depthOfInheritance := v;
     numberOfChildren := numberOfChildren c;
     methods := methods c; attributes := attributes c |}.

Definition setNumberOfChildren (v : nat) (c : ClassMetrics) : ClassMetrics :=
  {| className := className c; classPath := classPath c;
     parentClass := parentClass c;
     depthOfInheritance := depthOfInheritance c;
     numberOfChildren := v;
     methods := methods c; attributes := attributes c |}.

Definition setMethods (v : PropertyMetrics) (c : ClassMetrics) : ClassMetrics :=
  {| className := className c; classPath := classPath c;
     parentClass := parentClass c;
     depthOfInheritance := depthOfInheritance c;
     numberOfChildren := numberOfChildren c;
     methods := v; attributes := attributes c |}.

Definition setAttributes (v : PropertyMetrics) (c : ClassMetrics) : ClassMetrics :=
  {| className := className c; classPath := classPath c;
     parentClass := parentClass c;
     depthOfInheritance := depthOfInheritance c;
     numberOfChildren := numberOfChildren c;
     methods := methods c; attributes := v |}.

End ClassMetrics.

#[global] Instance ClassMetrics_inhabited : Inhabited ClassMetrics :=
  populate ClassMetrics.new.

(** The result object of [Analyzer.analyze]. *)
Record AnalysisResult := {
  classes : list ClassMetrics;
  mif : number;
  aif : number;
  mhf : number;
  ahf : number;
  pof : number
}.

Module Analyzer.

(** [`${file.fileName}:${pos.line + 1}:${pos.character + 1}`] *)
Definition getAbsolutePosition (node : Declaration) : string :=
  fileName node +:+ ":" +:+ pretty (startLine node + 1)
                +:+ ":" +:+ pretty (startCharacter node + 1).

(** [typeDecl == null ? '' : this.getAbsolutePosition(typeDecl)] with
    [typeDecl = classType.symbol.declarations?.[0]] *)
Definition classPathOf (classType : tsType) : string :=
  match symbolDeclarations classType ≫= head with
  | None => ""
  | Some typeDecl => getAbsolutePosition typeDecl
  end.

(** The test of [this.classes.find] in [getClassMetrics]. *)
Definition sameClass (name path : string) (oneClass : ClassMetrics) : Prop :=
  className oneClass = name ∧ classPath oneClass = path.

#[global] Instance sameClass_dec name path c : Decision (sameClass name path c).
Proof. unfold sameClass. apply _. Defined.

(** [parentClass.numberOfChildren += 1] *)
Definition incrNumberOfChildren (c : ClassMetrics) : ClassMetrics :=
  ClassMetrics.setNumberOfChildren (numberOfChildren c + 1) c.

(** The registry [this.classes] is the state; a [ClassMetrics] object
    that is in it is referred to by its index.  [getParentClassMetrics]
    with the recursive call abstracted, so that [getClassMetrics] can
    be defined by recursion on the type. *)
Definition getParentClassMetricsWith
    (getClassMetrics : tsType → list ClassMetrics → Result (nat * list ClassMetrics))
    (classType : tsType) (this : list ClassMetrics)
  : Result (option nat * list ClassMetrics) :=
  match getBaseTypes classType with
  | None => Ok (None, this)
  | Some [] => Ok (None, this)
  | Some [baseType] =>
      '(p, this) ← getClassMetrics baseType this; Ok (Some p, this)
  | Some baseTypes => Throw (UnexpectedBaseClassesNumber (List.length baseTypes))
  end.

Fixpoint getClassMetrics (classType : tsType) (this : list ClassMetrics)
    {struct classType} : Result (nat * list ClassMetrics) :=
  let name := typeToString classType in
  match symbol classType with
  | None => Throw TypeError        (* [classType.symbol.declarations] *)
  | Some _ =>
  let path := classPathOf classType in
  match list_find (sameClass name path) this with
  | Some (isAlreadyAnalyzed, _) => Ok (isAlreadyAnalyzed, this)
  | None =>
      let result := ClassMetrics.new in
      let result := ClassMetrics.setClassName name result in
      let result := ClassMetrics.setClassPath path result in
      '(parent, this) ← getParentClassMetricsWith getClassMetrics classType this;
      let '(this, result) :=
        match parent with
        | Some p =>
            let this := alter incrNumberOfChildren p this in
            let result :=
              ClassMetrics.setDepthOfInheritance
                (depthOfInheritance result + (1 + depthOfInheritance (this !!! p)))
                result in
            let result := ClassMetrics.setParentClass (className (this !!! p)) result in
            (this, result)
        | None => (this, result)
        end in
      let parentObj := (λ p, this !!! p) <$> parent in
      m ← PropertyMetrics.analyze parentObj classType (methods result);
      a ← PropertyMetrics.analyze parentObj classType (attributes result);
      let result := ClassMetrics.setMethods m result in
      let result := ClassMetrics.setAttributes a result in
      Ok (List.length this, this ++ [result])
  end
  end.

Definition getParentClassMetrics := getParentClassMetricsWith getClassMetrics.

Fixpoint analyzeClass (potentialClass : Node) (this : list ClassMetrics)
    {struct potentialClass} : Result (list ClassMetrics) :=
  this ← match classLike potentialClass with
         | Some classType =>
             '(_, this) ← getClassMetrics classType this; Ok this
         | None => Ok this
         end;
  forOf analyzeClass (children potentialClass) this.

(** One round of the aggregation loop. *)
Definition accumulate
    (acc : MoodMetricT * MoodMetricT * MoodMetricT * MoodMetricT * MoodMetricT)
    (oneClass : ClassMetrics) :=
  let '(mif, aif, mhf, ahf, pof) := acc in
  let totalMethods := PropertyMetrics.length (methods oneClass) in
  let totalAttrs := PropertyMetrics.length (attributes oneClass) in
  (MoodMetric.add
     (List.length (inherited (methods oneClass)) + List.length (own (methods oneClass)))
     totalMethods mif,
   MoodMetric.add
     (List.length (inherited (attributes oneClass)) + List.length (own (attributes oneClass)))
     totalAttrs aif,
   MoodMetric.add (privateCount (methods oneClass)) totalMethods mhf,
   MoodMetric.add (privateCount (attributes oneClass)) totalAttrs ahf,
   MoodMetric.add
     (List.length (inherited (methods oneClass)) + List.length (overridden (methods oneClass)))
     (List.length (own (methods oneClass)) * numberOfChildren oneClass) pof).

(** [analyze] on a fresh analyzer ([classes = []]). *)
Definition analyze (nodes : list Node) : Result AnalysisResult :=
  this ← forOf analyzeClass nodes [];
  let '(mif, aif, mhf, ahf, pof) :=
    fold_left accumulate this
      (MoodMetric.new, MoodMetric.new, MoodMetric.new, MoodMetric.new, MoodMetric.new) in
  Ok {| classes := this;
        mif := MoodMetric.calculate mif;
        aif := MoodMetric.calculate aif;
        mhf := MoodMetric.calculate mhf;
        ahf := MoodMetric.calculate ahf;
        pof := MoodMetric.calculate pof |}.

End Analyzer.

(** ** The formatter *)

(** The values of a projected class: strings and counters. *)
Inductive JsValue :=
  | JsString (s : string)
  | JsNumber (n : nat).

(** The object [formatedResult]; a projected class is the list of its
    keys with their values, in insertion order. *)
Module Formatted.
Record t := {
  classes : list (list (string * JsValue));
  mif : number;
  aif : number;
  mhf : number;
  ahf : number;
  pof : number;
  maxNumberOfChildren : nat;
  maxDepthOfInheritance : nat
}.
End Formatted.

(** The callback of [result.classes.map]; a string is truthy when it is
    not empty. *)
Definition clearedClassOf (oneClass : ClassMetrics) : list (string * JsValue) :=
  let clearedClass :=
    [ ("className", JsString (className oneClass));
      ("numberOfChildren", JsNumber (numberOfChildren oneClass));
      ("depthOfInheritance", JsNumber (depthOfInheritance oneClass)) ] in
  if bool_decide (parentClass oneClass = "")
  then clearedClass
  else clearedClass ++ [("parentClass", JsString (parentClass oneClass))].

(** [l.reduce((maxNumber, x) => f(x) > maxNumber ? f(x) : maxNumber, 0)] *)
Definition reduceMax {A : Type} (f : A → nat) (l : list A) : nat :=
  fold_left (λ maxNumber x, if maxNumber <? f x then f x else maxNumber) l 0.

(** [formatMetrics], up to the final [JSON.stringify]. *)
Definition formatMetrics (result : AnalysisResult) : Formatted.t :=
  {| Formatted.classes := clearedClassOf <$> classes result;
     Formatted.mif := mif result;
     Formatted.aif := aif result;
     Formatted.mhf := mhf result;
     Formatted.ahf := ahf result;
     Formatted.pof := pof result;
     Formatted.maxNumberOfChildren := reduceMax numberOfChildren (classes result);
     Formatted.maxDepthOfInheritance := reduceMax depthOfInheritance (classes result) |}.

(** The exported [analyze], on the source files that pass the
    [node_modules] filter. *)
Definition analyzeProgram (files : list Node) : Result Formatted.t :=
  result ← Analyzer.analyze files; Ok (formatMetrics result).

(** ** Notions the statements use *)

(** The first declaration of a property symbol, [prop.declarations?.[0]]. *)
Definition firstDeclaration (prop : Symbol) : option Declaration :=
  declarations prop ≫= head.

(** The first declaration of the symbol of a class,
    [classType.symbol.declarations[0]], where there is one. *)
Definition classDeclaration (classType : tsType) : option Declaration :=
  symbolDeclarations classType ≫= head.

(** The qualifying properties of a class for a kind: the first
    declarations, where there is one, whose shape matches the kind. *)
Definition qualifying (k : PropType) (classType : tsType) : list Declaration :=
  filter (λ d, PropertyMetrics.isOfType k d) (omap firstDeclaration (getProperties classType)).

Definition bucketOf (k : PropType) (c : ClassMetrics) : PropertyMetrics :=
  match k with
  | methodsT => methods c
  | attributesT => attributes c
  end.

(** The name occurs in the parent's own ∪ inherited ∪ overridden. *)
Definition inParentUnion (k : PropType) (parentClass : option ClassMetrics)
    (name : string) : Prop :=
  ∃ pc d, parentClass = Some pc
          ∧ (d ∈ own (bucketOf k pc) ∨ d ∈ inherited (bucketOf k pc)
             ∨ d ∈ overridden (bucketOf k pc))
          ∧ nameText d = name.

(** The declaration is immediately enclosed by the declaration of the
    current class, the first declaration of its symbol. *)
Definition enclosedByClass (classType : tsType) (d : Declaration) : Prop :=
  ∃ classDecl, classDeclaration classType = Some classDecl
               ∧ parent d = nodeId classDecl.

(** The identity of a class: name and path. *)
Definition typeIdentity (t : tsType) : string * string :=
  (typeToString t, Analyzer.classPathOf t).

Definition classIdentity (c : ClassMetrics) : string * string :=
  (className c, classPath c).

(** The parent of a class with exactly one base type. *)
Definition parentType (t : tsType) : option tsType :=
  match getBaseTypes t with
  | Some [b] => Some b
  | _ => None
  end.

Definition baseCount (t : tsType) : nat :=
  match getBaseTypes t with
  | None => 0
  | Some bs => length bs
  end.

(** A class followed by its ancestors, nearest first. *)
Fixpoint lineage (t : tsType) : list tsType :=
  t :: match getBaseTypes t with
       | Some [b] => lineage b
       | _ => []
       end.

(** The types of the class-like nodes below a node, in pre-order. *)
Fixpoint classTypes (n : Node) : list tsType :=
  match classLike n with
  | Some t => [t]
  | None => []
  end ++ flat_map classTypes (children n).

(** Every class the analysis of [nodes] meets: the class-like nodes and
    their ancestors. *)
Definition resolvedTypes (nodes : list Node) : list tsType :=
  flat_map lineage (flat_map classTypes nodes).

(** The provider names classes faithfully: among the given types, one
    identity stands for one type. *)
Definition consistent (U : list tsType) : Prop :=
  ∀ t1 t2, t1 ∈ U → t2 ∈ U → typeIdentity t1 = typeIdentity t2 → t1 = t2.

(** The class [c] of a registry is the one registered for [t]. *)
Definition registeredAs (reg : list ClassMetrics) (t : tsType) (c : ClassMetrics) : Prop :=
  c ∈ reg ∧ classIdentity c = typeIdentity t.

(** The number of distinct classes among [U] whose parent is the class
    of identity [i]. *)
Definition childrenIn (U : list tsType) (i : string * string) : nat :=
  length (remove_dups
            (typeIdentity <$> filter (λ d, typeIdentity <$> parentType d = Some i) U)).

(** [isInherited] of the loop of [PropertyMetrics.analyze]. *)
Definition nameInherited (parentProps : list Declaration) (d : Declaration) : bool :=
  existsb (λ prop, bool_decide (nameText prop = nameText d)) parentProps.

(** The bucket [this] after the qualifying declarations [Q] have been
    classified against [parentProps] and the class declaration. *)
Definition classified (parentProps : list Declaration) (classDecl : option Declaration)
    (Q : list Declaration) (this : PropertyMetrics) : PropertyMetrics :=
  {| propType := propType this;
     privateCount :=
       privateCount this + length (filter (λ d, PropertyMetrics.isPrivate d) Q);
     inherited :=
       inherited this
       ++ filter (λ d, nameInherited parentProps d
                       ∧ ¬ PropertyMetrics.parentIs d classDecl) Q;
     overridden :=
       overridden this
       ++ filter (λ d, nameInherited parentProps d
                       ∧ PropertyMetrics.parentIs d classDecl) Q;
     own := own this ++ filter (λ d, ¬ nameInherited parentProps d) Q |}.

(** [a / b] on counters, as JavaScript divides them. *)
Definition quotient (a b : nat) : number :=
  MoodMetric.calculate {| divided := a; divider := b |}.

(** The keys of a projected class with the values they must hold. *)
Definition projectionOf (c : ClassMetrics) (o : list (string * JsValue)) : Prop :=
  o.*1 = ["className"; "numberOfChildren"; "depthOfInheritance"]
         ++ (if decide (parentClass c = "") then [] else ["parentClass"])
  ∧ ("className", JsString (className c)) ∈ o
  ∧ ("numberOfChildren", JsNumber (numberOfChildren c)) ∈ o
  ∧ ("depthOfInheritance", JsNumber (depthOfInheritance c)) ∈ o
  ∧ (parentClass c ≠ "" → ("parentClass", JsString (parentClass c)) ∈ o).

(** [m] is the maximum of [f] over [l], and 0 when [l] is empty. *)
Definition isMaxOf {A : Type} (f : A → nat) (l : list A) (m : nat) : Prop :=
  (∀ x, x ∈ l → f x ≤ m)
  ∧ (l = [] → m = 0)
  ∧ (l ≠ [] → ∃ x, x ∈ l ∧ f x = m).

(** The ancestors of a class, nearest first. *)
Definition properAncestors (t : tsType) : list tsType :=
  match parentType t with
  | Some b => lineage b
  | None => []
  end.

(** The object [result] that [getClassMetrics] registers for a class,
    given the object of its parent and the two classified buckets. *)
Definition freshClass (classType : tsType) (parentObj : option ClassMetrics)
    (m a : PropertyMetrics) : ClassMetrics :=
  {| className := typeToString classType;
     classPath := Analyzer.classPathOf classType;
     parentClass := from_option className "" parentObj;
     depthOfInheritance :=
       from_option (λ pc, 0 + (1 + depthOfInheritance pc)) 0 parentObj;
     numberOfChildren := 0;
     methods := m; attributes := a |}.

(** [getClassMetrics] for a class-like node of the traversal: the
    returned object is not used. *)
Definition resolve (classType : tsType) (this : list ClassMetrics)
  : Result (list ClassMetrics) :=
  '(_, this) ← Analyzer.getClassMetrics classType this; Ok this.

(** Two states of one registered object: only [numberOfChildren] may
    have grown. *)
Definition sameButChildren (c c' : ClassMetrics) : Prop :=
  className c' = className c ∧ classPath c' = classPath c
  ∧ parentClass c' = parentClass c
  ∧ depthOfInheritance c' = depthOfInheritance c
  ∧ methods c' = methods c ∧ attributes c' = attributes c
  ∧ numberOfChildren c ≤ numberOfChildren c'.

(** A registered class with a method of its own and a child: what makes
    the denominator of POF positive. *)
Definition polymorphismGround (reg : list ClassMetrics) : Prop :=
  ∃ g, g ∈ reg ∧ own (methods g) ≠ [] ∧ 0 < numberOfChildren g.

(** Where a class has inherited or overridden methods, some class has a
    method of its own and a child. *)
Definition groundedOverrides (reg : list ClassMetrics) : Prop :=
  ∀ c, c ∈ reg → inherited (methods c) ++ overridden (methods c) ≠ [] →
       polymorphismGround reg.

(** The registry [reg] holds the classes [L] and nothing else: one object
    per identity, every class with at most one base type and registered
    after its parent, with its depth, the name of its parent and the
    number of its children. *)
Definition registryOf (L : list tsType) (reg : list ClassMetrics) : Prop :=
  NoDup (classIdentity <$> reg)
  ∧ (∀ c, c ∈ reg → ∃ t, t ∈ L ∧ classIdentity c = typeIdentity t)
  ∧ (∀ t b, t ∈ L → parentType t = Some b → b ∈ L)
  ∧ (∀ t, t ∈ L → baseCount t ≤ 1)
  ∧ (∀ t, t ∈ L →
       ∃ k c, reg !! k = Some c ∧ classIdentity c = typeIdentity t
         ∧ match parentType t with
           | None => depthOfInheritance c = 0 ∧ parentClass c = ""
           | Some b =>
               ∃ p pc, p < k ∧ reg !! p = Some pc
                 ∧ classIdentity pc = typeIdentity b
                 ∧ depthOfInheritance c = S (depthOfInheritance pc)
                 ∧ parentClass c = className pc
           end)
  ∧ (∀ c, c ∈ reg → numberOfChildren c = childrenIn L (classIdentity c)).

(** A later state of the registry: the objects that were registered are
    still there, in place, with nothing but [numberOfChildren] changed. *)
Definition grownFrom (reg later : list ClassMetrics) : Prop :=
  ∀ i c, reg !! i = Some c → ∃ c', later !! i = Some c' ∧ sameButChildren c c'.

(** ** Sample programs *)

Module Sample.

Definition classDecl (id : nat) (name : string) (line : nat) : Declaration :=
  {| nodeId := id; kind := ClassDeclaration; nameText := name;
     modifiers := None; parent := 0; fileName := "shapes.ts";
     startLine := line; startCharacter := 0 |}.

Definition methodDecl (id : nat) (name : string) (mods : list SyntaxKind)
    (enclosing line : nat) : Declaration :=
  {| nodeId := id; kind := MethodDeclaration; nameText := name;
     modifiers := Some mods; parent := enclosing; fileName := "shapes.ts";
     startLine := line; startCharacter := 2 |}.

Definition symbolOf (d : Declaration) : Symbol := {| declarations := Some [d] |}.

(** [class A { private m() {} }] *)
Definition declA : Declaration := classDecl 1 "A" 0.
Definition A_m : Declaration := methodDecl 2 "m" [PrivateKeyword] 1 1.
Definition typeA : tsType :=
  mkType "A" (Some (symbolOf declA)) (Some []) [symbolOf A_m].

(** [class B extends A { private m() {} private n() {} }] *)
Definition declB : Declaration := classDecl 3 "B" 3.
Definition B_m : Declaration := methodDecl 4 "m" [PrivateKeyword] 3 4.
Definition B_n : Declaration := methodDecl 5 "n" [PrivateKeyword] 3 5.
Definition typeB : tsType :=
  mkType "B" (Some (symbolOf declB)) (Some [typeA]) [symbolOf B_m; symbolOf B_n].

(** A subclass of [A] that shows [m] and whose symbol has no
    declarations array. *)
Definition C_m : Declaration := methodDecl 7 "m" [] 6 8.
Definition typeC : tsType :=
  mkType "C" (Some {| declarations := None |}) (Some [typeA]) [symbolOf C_m].

(** A class without base type whose symbol has no declarations array. *)
Definition N_f : Declaration := methodDecl 31 "f" [] 30 1.
Definition typeN : tsType :=
  mkType "N" (Some {| declarations := None |}) None [symbolOf N_f].

(** A class with two base types. *)
Definition declD : Declaration := classDecl 8 "D" 10.
Definition typeD : tsType :=
  mkType "D" (Some (symbolOf declD)) (Some [typeA; typeB]) [].

(** The registered [A] once [B] has been resolved. *)
Definition metricsA : ClassMetrics :=
  {| className := "A"; classPath := "shapes.ts:1:1"; parentClass := "";
     depthOfInheritance := 0; numberOfChildren := 1;
     methods := {| propType := methodsT; privateCount := 1; inherited := [];
                   overridden := []; own := [A_m] |};
     attributes := PropertyMetrics.new attributesT |}.

(** [class E extends B { }] *)
Definition declE : Declaration := classDecl 9 "E" 12.
Definition typeE : tsType :=
  mkType "E" (Some (symbolOf declE)) (Some [typeB]) [symbolOf B_m; symbolOf B_n].

Definition leaf (t : tsType) : Node := mkNode (Some t) [].

(** A source file that declares [E], [B] and [A] in this order: [B] and
    [A] are met as ancestors before the traversal reaches them. *)
Definition fileEBA : Node :=
  mkNode None [mkNode (Some typeE) [mkNode None []]; leaf typeB; leaf typeA].

(** [class S { f() {} public g() {} }], alone in its file. *)
Definition declS : Declaration := classDecl 20 "S" 0.
Definition S_f : Declaration := methodDecl 21 "f" [] 20 1.
Definition S_g : Declaration := methodDecl 22 "g" [PublicKeyword] 20 2.
Definition typeS : tsType :=
  mkType "S" (Some (symbolOf declS)) None [symbolOf S_f; symbolOf S_g].

(** A source file with the two classes, [B] first. *)
Definition fileBA : Node := mkNode None [leaf typeB; leaf typeA].

End Sample.

(** The result of the analysis of [Sample.fileBA]. *)
Definition resultBA : AnalysisResult :=
  {| classes :=
       [ Sample.metricsA;
         {| className := "B"; classPath := "shapes.ts:4:1"; parentClass := "A";
            depthOfInheritance := 1; numberOfChildren := 0;
            methods := {| propType := methodsT; privateCount := 2; inherited := [];
                          overridden := [Sample.B_m]; own := [Sample.B_n] |};
            attributes := PropertyMetrics.new attributesT |} ];
     mif := Finite (2 # 6); aif := NaN; mhf := Finite (3 # 6); ahf := NaN;
     pof := Finite 1 |}.

(** ** Notions of the further properties *)

(** Every bucket of the registry counts at most as many private
    properties as it holds properties. *)
Definition boundedPrivate (reg : list ClassMetrics) : Prop :=
  ∀ c, c ∈ reg →
    privateCount (methods c) ≤ length (PropertyMetrics.allProps (methods c))
    ∧ privateCount (attributes c) ≤ length (PropertyMetrics.allProps (attributes c)).

(** The registry is a forest in registration order: an object is a root,
    of depth 0 and without parent name, or it stands after an object that
    has children, whose name it holds and whose depth it exceeds by
    one. *)
Definition forestShaped (reg : list ClassMetrics) : Prop :=
  ∀ i c, reg !! i = Some c →
    (depthOfInheritance c = 0 ∧ parentClass c = "")
    ∨ (∃ p pc, p < i ∧ reg !! p = Some pc
         ∧ depthOfInheritance c = S (depthOfInheritance pc)
         ∧ parentClass c = className pc
         ∧ 0 < numberOfChildren pc).

(** The children that the objects count are the objects below a root. *)
Definition childrenAccounted (reg : list ClassMetrics) : Prop :=
  sum_list_with numberOfChildren reg
  = length (filter (λ c, 0 < depthOfInheritance c) reg).

(** A ratio is NaN or a finite number between 0 and [bound]. *)
Definition ratioWithin (bound : Q) (x : number) : Prop :=
  x = NaN ∨ ∃ q, x = Finite q ∧ (0 <= q)%Q ∧ (q <= bound)%Q.

(** A ratio is NaN or a finite number that is not negative. *)
Definition ratioNonNegative (x : number) : Prop :=
  x = NaN ∨ ∃ q, x = Finite q ∧ (0 <= q)%Q.


(** An object of a class without parent and without children, whose
    buckets hold own properties only. *)
Definition standsAlone (c : ClassMetrics) : Prop :=
  depthOfInheritance c = 0 ∧ numberOfChildren c = 0 ∧ parentClass c = ""
  ∧ inherited (methods c) = [] ∧ overridden (methods c) = []
  ∧ inherited (attributes c) = [] ∧ overridden (attributes c) = [].


(** The bucket of a class for a kind, read off the class and its
    ancestors: the qualifying declarations of the class, classified
    against all the properties of the bucket of its parent. *)
Fixpoint bucketSpec (k : PropType) (t : tsType) : PropertyMetrics :=
  classified
    match getBaseTypes t with
    | Some [b] => PropertyMetrics.allProps (bucketSpec k b)
    | _ => []
    end
    (classDeclaration t) (qualifying k t) (PropertyMetrics.new k).

(** The object of a class, read off the class, its ancestors and the
    classes [U] that the analysis meets. *)
Definition metricsSpec (U : list tsType) (t : tsType) : ClassMetrics :=
  {| className := typeToString t;
     classPath := Analyzer.classPathOf t;
     parentClass := from_option typeToString "" (parentType t);
     depthOfInheritance := length (properAncestors t);
     numberOfChildren := childrenIn U (typeIdentity t);
     methods := bucketSpec methodsT t;
     attributes := bucketSpec attributesT t |}.

(** Every object of the registry was registered for a class of [U], after
    the object of the parent of the class, with the buckets that
    [PropertyMetrics.analyze] returned against that object. *)
Definition provenance (U : list tsType) (reg : list ClassMetrics) : Prop :=
  ∀ i c, reg !! i = Some c →
    ∃ t parentObj,
      t ∈ U ∧ symbol t ≠ None ∧ classIdentity c = typeIdentity t
      ∧ match parentType t with
        | None => parentObj = None
        | Some b =>
            ∃ p pc, p < i ∧ reg !! p = Some pc
              ∧ classIdentity pc = typeIdentity b ∧ parentObj = Some pc
        end
      ∧ ∀ k, PropertyMetrics.analyze parentObj t (PropertyMetrics.new k)
             = Ok (bucketOf k c).

(** A class on which the analysis throws: its type has no symbol, or it
    has several base types, or its symbol has no declarations array
    while it shows a qualifying property whose name is the name of a
    property of its parent. *)
Definition throwing (t : tsType) : Prop :=
  symbol t = None
  ∨ 2 ≤ baseCount t
  ∨ (symbolDeclarations t = None
     ∧ ∃ b k d, parentType t = Some b ∧ d ∈ qualifying k t
         ∧ nameInherited (PropertyMetrics.allProps (bucketSpec k b)) d).


(** ** The exported entry point *)

(** A source file of the program: the directory part of its file name,
    [path.parse(file.fileName).dir], and its node. *)
Record SourceFile := {
  dir : string;
  sourceNode : Node
}.

(** [s.startsWith(sub)] *)
Fixpoint startsWith (s sub : string) {struct sub} : bool :=
  match sub, s with
  | EmptyString, _ => true
  | String a sub', String b s' => bool_decide (a = b) && startsWith s' sub'
  | String _ _, EmptyString => false
  end.

(** [s.includes(sub)] *)
Fixpoint includes (s sub : string) : bool :=
  startsWith s sub
  || match s with
     | EmptyString => false
     | String _ s' => includes s' sub
     end.

(** The exported [analyze]: [program] stands for
    [program.getSourceFiles()]. *)
Definition analyze (program : list SourceFile) : Result Formatted.t :=
  let files := filter (λ file, ¬ includes (dir file) "node_modules") program in
  result ← Analyzer.analyze (sourceNode <$> files);
  Ok (formatMetrics result).

(** A colon occurs in the string. *)
Fixpoint hasColon (s : string) : bool :=
  match s with
  | EmptyString => false
  | String a s' => bool_decide (String a "" = ":") || hasColon s'
  end.


(** ** Generic classes *)

(** The type checker gives the declaration of a generic class and a
    reference to the class two types: both print alike and have the same
    symbol, but only the type of the declaration answers
    [getBaseTypes()]; a reference is no class or interface type and
    answers [undefined]. *)
Module Generics.

(** [class Root {}] *)
Definition declRoot : Declaration := Sample.classDecl 40 "Root" 0.
Definition typeRoot : tsType :=
  mkType "Root" (Some (Sample.symbolOf declRoot)) (Some []) [].

(** [class Base<T> extends Root {}]: the type of the declaration, and
    the reference [Base<T>] that a subclass extends. *)
Definition declBase : Declaration := Sample.classDecl 41 "Base" 1.
Definition typeBase : tsType :=
  mkType "Base<T>" (Some (Sample.symbolOf declBase)) (Some [typeRoot]) [].
Definition refBase : tsType :=
  mkType "Base<T>" (Some (Sample.symbolOf declBase)) None [].

(** [class G<T> extends Base<T> {}] *)
Definition declG : Declaration := Sample.classDecl 42 "G" 2.
Definition typeG : tsType :=
  mkType "G<T>" (Some (Sample.symbolOf declG)) (Some [refBase]) [].

(** A source file that declares [G], [Base] and [Root] in this order. *)
Definition fileGBR : Node :=
  mkNode None [Sample.leaf typeG; Sample.leaf typeBase; Sample.leaf typeRoot].

(** An entry without properties. *)
Definition entry (name path parentName : string) (depth children : nat) : ClassMetrics :=
  {| className := name; classPath := path; parentClass := parentName;
     depthOfInheritance := depth; numberOfChildren := children;
     methods := PropertyMetrics.new methodsT;
     attributes := PropertyMetrics.new attributesT |}.

(** The result of the analysis of [fileGBR]: [Base<T>] is registered
    first, as the base type of [G<T>]. *)
Definition resultGBR : AnalysisResult :=
  {| classes :=
       [ entry "Base<T>" "shapes.ts:2:1" "" 0 1;
         entry "G<T>" "shapes.ts:3:1" "Base<T>" 1 0;
         entry "Root" "shapes.ts:1:1" "" 0 0 ];
     mif := NaN; aif := NaN; mhf := NaN; ahf := NaN; pof := NaN |}.

(** A generic class [M<T>] whose declaration has two base types, the
    reference [M<T>], and [class N<T> extends M<T> {}]. *)
Definition declM : Declaration := Sample.classDecl 43 "M" 4.
Definition typeM : tsType :=
  mkType "M<T>" (Some (Sample.symbolOf declM)) (Some [typeRoot; Sample.typeA]) [].
Definition refM : tsType :=
  mkType "M<T>" (Some (Sample.symbolOf declM)) None [].
Definition declN : Declaration := Sample.classDecl 44 "N" 5.
Definition typeN : tsType :=
  mkType "N<T>" (Some (Sample.symbolOf declN)) (Some [refM]) [].

(** [N] declared before [M], and [M] before [N]. *)
Definition fileNM : Node := mkNode None [Sample.leaf typeN; Sample.leaf typeM].
Definition fileMN : Node := mkNode None [Sample.leaf typeM; Sample.leaf typeN].

(** The result of the analysis of [fileNM]: [M<T>] is registered as the
    base type of [N<T>], from the reference. *)
Definition resultNM : AnalysisResult :=
  {| classes :=
       [ entry "M<T>" "shapes.ts:5:1" "" 0 1;
         entry "N<T>" "shapes.ts:6:1" "M<T>" 1 0 ];
     mif := NaN; aif := NaN; mhf := NaN; ahf := NaN; pof := NaN |}.

End Generics.

(** A class expression whose type has no symbol, as the type checker
    answers for the class that a mixin returns. *)
Definition typeWithoutSymbol : tsType := mkType "Mixed" None None [].


(** ** The registrations behind a registry *)

(** [h] tells how the entries of [reg] were registered: for each entry
    the class of [U] for which [getClassMetrics] pushed it, and the
    index of the entry that [getParentClassMetrics] returned for it
    then, if any.  The entry has the name and path of the class; without
    parent entry the class has no base type and the entry has depth 0
    and an empty parent name; with one, the parent entry stands at a
    smaller index, has the name and path of the base type of the class,
    gives the entry its parent name and has depth one less.  The
    [numberOfChildren] of an entry is the number of entries registered
    with it as parent entry. *)
Definition registeredFrom (U : list tsType) (reg : list ClassMetrics)
    (h : list (tsType * option nat)) : Prop :=
  length h = length reg
  ∧ ∀ i c, reg !! i = Some c →
      ∃ t op, h !! i = Some (t, op)
        ∧ t ∈ U ∧ symbol t ≠ None ∧ classIdentity c = typeIdentity t
        ∧ match op with
          | None =>
              baseCount t = 0
              ∧ depthOfInheritance c = 0 ∧ parentClass c = ""
          | Some p =>
              p < i
              ∧ ∃ b pc, parentType t = Some b ∧ reg !! p = Some pc
                  ∧ classIdentity pc = typeIdentity b
                  ∧ depthOfInheritance c = 1 + depthOfInheritance pc
                  ∧ parentClass c = className pc
          end
        ∧ numberOfChildren c = length (filter (λ e, e.2 = Some i) h).

(** * Properties *)

(** ** The result monad and the loops *)

Lemma bind_Ok {A B} (m : Result A) (f : A → Result B) (b : B) :
  m ≫= f = Ok b ↔ ∃ a, m = Ok a ∧ f a = Ok b.
Proof.
  destruct m as [a|e]; simpl; split.
  - eauto.
  - by intros (a' & [= <-] & ?).
  - done.
  - by intros (a' & ? & ?).
Qed.

Lemma forOf_app {A S} (body : A → S → Result S) l1 l2 s :
  forOf body (l1 ++ l2) s = forOf body l1 s ≫= forOf body l2.
Proof.
  revert s. induction l1 as [|x l1 IH]; intros s; simpl; [done|].
  destruct (body x s) as [s'|e]; simpl; [apply IH|done].
Qed.

(** ** Classification of properties *)

Lemma forOf_cons {A S} (body : A → S → Result S) x l s :
  forOf body (x :: l) s = body x s ≫= forOf body l.
Proof. done. Qed.

Section classification.
Context (parentProps : list Declaration) (classType : tsType).

Lemma classified_nil cd this : classified parentProps cd [] this = this.
Proof.
  destruct this; unfold classified; simpl.
  by rewrite !filter_nil, !app_nil_r, Nat.add_0_r.
Qed.

Lemma classified_app cd q1 q2 this :
  classified parentProps cd (q1 ++ q2) this
  = classified parentProps cd q2 (classified parentProps cd q1 this).
Proof.
  unfold classified; simpl.
  rewrite !filter_app, !length_app, !app_assoc. f_equal. lia.
Qed.

Lemma classified_cons cd d q this :
  classified parentProps cd (d :: q) this
  = classified parentProps cd q (classified parentProps cd [d] this).
Proof. apply (classified_app cd [d] q). Qed.

(** One round of the loop. *)
Lemma analyzeProp_eq prop this :
  PropertyMetrics.analyzeProp parentProps classType prop this =
  match firstDeclaration prop with
  | None => Ok this
  | Some decl =>
      if PropertyMetrics.isOfType (propType this) decl then
        match symbolDeclarations classType with
        | None =>
            if nameInherited parentProps decl then Throw TypeError
            else Ok (classified parentProps None [decl] this)
        | Some ds => Ok (classified parentProps (head ds) [decl] this)
        end
      else Ok this
  end.
Proof.
  unfold PropertyMetrics.analyzeProp, firstDeclaration.
  destruct (declarations prop ≫= head) as [decl|]; [|done].
  destruct (PropertyMetrics.isOfType (propType this) decl); simpl; [|done].
  fold (nameInherited parentProps decl).
  assert (Hpriv : ∀ this' : PropertyMetrics,
    privateCount (if PropertyMetrics.isPrivate decl
                  then PropertyMetrics.incrPrivateCount this' else this')
    = privateCount this'
      + length (filter (λ d, PropertyMetrics.isPrivate d) [decl])).
  { intros this'. rewrite filter_cons, filter_nil.
    destruct (PropertyMetrics.isPrivate decl); simpl; lia. }
  assert (Hcases : ∀ cd,
    (if negb (nameInherited parentProps decl)
     then PropertyMetrics.pushOwn decl
     else if PropertyMetrics.parentIs decl cd
          then PropertyMetrics.pushOverridden decl
          else PropertyMetrics.pushInherited decl)
      (if PropertyMetrics.isPrivate decl
       then PropertyMetrics.incrPrivateCount this else this)
    = classified parentProps cd [decl] this).
  { intros cd. unfold classified. rewrite <- Hpriv.
    rewrite !filter_cons, !filter_nil.
    destruct (nameInherited parentProps decl) eqn:Hn,
             (PropertyMetrics.parentIs decl cd) eqn:Hp; simpl;
      repeat (first [rewrite decide_True by naive_solver
                    |rewrite decide_False by naive_solver]);
      rewrite ?app_nil_r;
      by destruct (PropertyMetrics.isPrivate decl). }
  destruct (nameInherited parentProps decl) eqn:Hn; simpl.
  - destruct (symbolDeclarations classType) as [ds|]; [|done].
    rewrite <- (Hcases (head ds)). simpl.
    by destruct (PropertyMetrics.parentIs decl (head ds)).
  - specialize (Hcases None) as H1. simpl in H1.
    destruct (symbolDeclarations classType) as [ds|].
    + rewrite <- (Hcases (head ds)). done.
    + by rewrite H1.
Qed.

(** The loop of [analyze], for any starting bucket: it throws exactly
    when the class symbol has no declarations array and some qualifying
    name is found in the parent; otherwise it classifies. *)
Lemma forOf_analyzeProp props this :
  forOf (PropertyMetrics.analyzeProp parentProps classType) props this =
  let Q := filter (λ d, PropertyMetrics.isOfType (propType this) d)
             (omap firstDeclaration props) in
  match symbolDeclarations classType with
  | None =>
      if existsb (nameInherited parentProps) Q then Throw TypeError
      else Ok (classified parentProps None Q this)
  | Some ds => Ok (classified parentProps (head ds) Q this)
  end.
Proof.
  revert this. induction props as [|prop props IH]; intros this.
  { simpl. rewrite !filter_nil; simpl.
    destruct (symbolDeclarations classType); by rewrite classified_nil. }
  rewrite forOf_cons, analyzeProp_eq. simpl.
  destruct (firstDeclaration prop) as [decl|]; simpl; [|apply IH].
  rewrite filter_cons.
  destruct (PropertyMetrics.isOfType (propType this) decl) eqn:Ht; simpl.
  2:{ apply IH. }
  destruct (symbolDeclarations classType) as [ds|] eqn:Hds; simpl.
  - rewrite IH. simpl. f_equal. symmetry. apply classified_cons.
  - destruct (nameInherited parentProps decl) eqn:Hn; simpl; [done|].
    rewrite IH. simpl.
    change (list_omap _ _ firstDeclaration props) with (omap firstDeclaration props).
    destruct (existsb _ _); [done|]. f_equal. symmetry. apply classified_cons.
Qed.

End classification.

(** What [analyze] returns on a fresh bucket, in the two ways it can end. *)
Lemma analyze_new k parentClass classType :
  PropertyMetrics.analyze parentClass classType (PropertyMetrics.new k) =
  let parentProps := PropertyMetrics.parentPropsOf k parentClass in
  let result :=
    classified parentProps (classDeclaration classType)
      (qualifying k classType) (PropertyMetrics.new k) in
  match symbolDeclarations classType with
  | None =>
      if existsb (nameInherited parentProps) (qualifying k classType)
      then Throw TypeError else Ok result
  | Some _ => Ok result
  end.
Proof.
  unfold PropertyMetrics.analyze. rewrite forOf_analyzeProp. simpl.
  unfold qualifying, firstDeclaration, classDeclaration.
  by destruct (symbolDeclarations classType).
Qed.

Lemma analyze_new_Ok k parentClass classType b :
  PropertyMetrics.analyze parentClass classType (PropertyMetrics.new k) = Ok b →
  b = classified (PropertyMetrics.parentPropsOf k parentClass)
        (classDeclaration classType)
        (qualifying k classType) (PropertyMetrics.new k).
Proof.
  rewrite analyze_new. simpl.
  destruct (symbolDeclarations classType); [congruence|].
  destruct (existsb _ _); congruence.
Qed.

Lemma nameInherited_spec k parentClass d :
  nameInherited (PropertyMetrics.parentPropsOf k parentClass) d = true
  ↔ inParentUnion k parentClass (nameText d).
Proof.
  unfold nameInherited, inParentUnion. rewrite existsb_exists. split.
  - intros (p & Hin & Hp). apply bool_decide_eq_true in Hp.
    apply list_elem_of_In in Hin.
    destruct parentClass as [pc|]; simpl in Hin; [|by apply elem_of_nil in Hin].
    exists pc, p. split; [done|]. split; [|done].
    destruct k; simpl in *; unfold PropertyMetrics.allProps in Hin;
      rewrite !elem_of_app in Hin; tauto.
  - intros (pc & p & -> & Hin & Hp). exists p.
    split; [|by apply bool_decide_eq_true]. apply list_elem_of_In.
    destruct k; simpl in *; unfold PropertyMetrics.allProps;
      rewrite !elem_of_app; tauto.
Qed.

Lemma parentIs_spec classType d :
  PropertyMetrics.parentIs d (classDeclaration classType) = true
  ↔ enclosedByClass classType d.
Proof.
  unfold enclosedByClass, PropertyMetrics.parentIs.
  destruct (classDeclaration classType) as [cd|].
  - rewrite bool_decide_eq_true. split.
    + intros Hp. by exists cd.
    + by intros (cd' & [= <-] & Hp).
  - split; [done|]. by intros (cd' & ? & _).
Qed.

(** The three lists of a classified fresh bucket hold the qualifying
    declarations, each once. *)
Lemma classified_permutation pp cd q k :
  let b := classified pp cd q (PropertyMetrics.new k) in
  inherited b ++ overridden b ++ own b ≡ₚ q.
Proof.
  unfold classified; simpl. induction q as [|d q IH]; [by rewrite !filter_nil|].
  rewrite !filter_cons.
  destruct (nameInherited pp d), (PropertyMetrics.parentIs d cd); simpl.
  - rewrite <- Permutation_middle. by f_equiv.
  - by f_equiv.
  - rewrite app_assoc, <- Permutation_middle, <- app_assoc. by f_equiv.
  - rewrite app_assoc, <- Permutation_middle, <- app_assoc. by f_equiv.
Qed.

(** X23: where the classification of a class completes, that is unless
    [classType.symbol.declarations] is undefined while a qualifying name
    occurs in the parent's union, every qualifying
    property is placed once, by name lookup in the parent's
    own ∪ inherited ∪ overridden union (empty without a parent): no match,
    own; match and not immediately enclosed by the class, inherited; match
    and immediately enclosed by the class, overridden; the three sets are
    pairwise disjoint. *)
Theorem classification_by_parent_union
    (k : PropType) (parentClass : option ClassMetrics) (classType : tsType) :
  (symbolDeclarations classType = None →
   ∀ d, d ∈ qualifying k classType → ¬ inParentUnion k parentClass (nameText d)) →
  ∃ b, PropertyMetrics.analyze parentClass classType (PropertyMetrics.new k) = Ok b
    ∧ inherited b ++ overridden b ++ own b ≡ₚ qualifying k classType
    ∧ (∀ d, d ∈ own b ↔
            d ∈ qualifying k classType
            ∧ ¬ inParentUnion k parentClass (nameText d))
    ∧ (∀ d, d ∈ inherited b ↔
            d ∈ qualifying k classType
            ∧ inParentUnion k parentClass (nameText d)
            ∧ ¬ enclosedByClass classType d)
    ∧ (∀ d, d ∈ overridden b ↔
            d ∈ qualifying k classType
            ∧ inParentUnion k parentClass (nameText d)
            ∧ enclosedByClass classType d)
    ∧ (∀ d, ¬ (d ∈ own b ∧ d ∈ inherited b))
    ∧ (∀ d, ¬ (d ∈ own b ∧ d ∈ overridden b))
    ∧ (∀ d, ¬ (d ∈ inherited b ∧ d ∈ overridden b)).
Proof.
  intros Hdecl.
  set (pp := PropertyMetrics.parentPropsOf k parentClass).
  set (cd := classDeclaration classType).
  exists (classified pp cd (qualifying k classType) (PropertyMetrics.new k)).
  assert (Hown : ∀ d, d ∈ own (classified pp cd (qualifying k classType) (PropertyMetrics.new k))
                     ↔ d ∈ qualifying k classType
                       ∧ ¬ inParentUnion k parentClass (nameText d)).
  { intros d. simpl. rewrite list_elem_of_filter, <- nameInherited_spec.
    fold pp. destruct (nameInherited pp d); simpl; intuition congruence. }
  assert (Hinh : ∀ d, d ∈ inherited (classified pp cd (qualifying k classType) (PropertyMetrics.new k))
                     ↔ d ∈ qualifying k classType
                       ∧ inParentUnion k parentClass (nameText d)
                       ∧ ¬ enclosedByClass classType d).
  { intros d. simpl.
    rewrite list_elem_of_filter, <- nameInherited_spec, <- parentIs_spec.
    fold pp cd.
    destruct (nameInherited pp d), (PropertyMetrics.parentIs d cd); simpl;
      intuition congruence. }
  assert (Hovr : ∀ d, d ∈ overridden (classified pp cd (qualifying k classType) (PropertyMetrics.new k))
                     ↔ d ∈ qualifying k classType
                       ∧ inParentUnion k parentClass (nameText d)
                       ∧ enclosedByClass classType d).
  { intros d. simpl.
    rewrite list_elem_of_filter, <- nameInherited_spec, <- parentIs_spec.
    fold pp cd.
    destruct (nameInherited pp d), (PropertyMetrics.parentIs d cd); simpl;
      intuition congruence. }
  split; [|split; [apply classified_permutation|]].
  - rewrite analyze_new. simpl. fold pp cd.
    destruct (symbolDeclarations classType) eqn:Hds; [done|].
    destruct (existsb (nameInherited pp) (qualifying k classType)) eqn:Hex; [|done].
    apply existsb_exists in Hex as (d & Hin & Hd).
    apply list_elem_of_In in Hin. apply nameInherited_spec in Hd.
    by destruct (Hdecl eq_refl d Hin).
  - split_and!; [exact Hown|exact Hinh|exact Hovr|..].
    + intros d [H1 H2]. apply Hown in H1. apply Hinh in H2. tauto.
    + intros d [H1 H2]. apply Hown in H1. apply Hovr in H2. tauto.
    + intros d [H1 H2]. apply Hinh in H1. apply Hovr in H2. tauto.
Qed.

Lemma classification_by_parent_union_witness :
  ((symbolDeclarations Sample.typeB = None →
    ∀ d, d ∈ qualifying methodsT Sample.typeB →
         ¬ inParentUnion methodsT (Some Sample.metricsA) (nameText d))
   ∧ ∃ b, PropertyMetrics.analyze (Some Sample.metricsA) Sample.typeB
            (PropertyMetrics.new methodsT) = Ok b
          ∧ own b = [Sample.B_n] ∧ overridden b = [Sample.B_m] ∧ inherited b = [])
  ∧ ((symbolDeclarations Sample.typeN = None →
      ∀ d, d ∈ qualifying methodsT Sample.typeN →
           ¬ inParentUnion methodsT None (nameText d))
     ∧ ∃ b, PropertyMetrics.analyze None Sample.typeN
              (PropertyMetrics.new methodsT) = Ok b
            ∧ own b = [Sample.N_f] ∧ overridden b = [] ∧ inherited b = []).
Proof.
  split.
  - assert (H : symbolDeclarations Sample.typeB = None →
                ∀ d, d ∈ qualifying methodsT Sample.typeB →
                     ¬ inParentUnion methodsT (Some Sample.metricsA) (nameText d)).
    { simpl. intros H. discriminate H. }
    split; [exact H|].
    destruct (classification_by_parent_union methodsT (Some Sample.metricsA)
                Sample.typeB H) as (b & Hb & _).
    exists b. split; [exact Hb|].
    vm_compute in Hb. injection Hb as <-. repeat split; reflexivity.
  - assert (H : symbolDeclarations Sample.typeN = None →
                ∀ d, d ∈ qualifying methodsT Sample.typeN →
                     ¬ inParentUnion methodsT None (nameText d)).
    { intros _ d _ (pc & d' & Hpc & _). discriminate Hpc. }
    split; [exact H|].
    destruct (classification_by_parent_union methodsT None Sample.typeN H)
      as (b & Hb & _).
    exists b. split; [exact Hb|].
    vm_compute in Hb. injection Hb as <-. repeat split; reflexivity.
Defined.


(** ** The length of a bucket *)

(** C7: [length()] is |own| + |inherited| + |overridden| + privateCount;
    after the classification of a class, privateCount is the number of
    qualifying properties with a private marker, whatever set they went
    to, so that [length()] counts each of them twice. *)
Theorem length_counts_private_twice :
  (∀ this : PropertyMetrics,
     PropertyMetrics.length this
     = length (own this) + length (inherited this) + length (overridden this)
       + privateCount this)
  ∧ (∀ (k : PropType) (parentClass : option ClassMetrics) (classType : tsType)
       (b : PropertyMetrics),
       PropertyMetrics.analyze parentClass classType (PropertyMetrics.new k) = Ok b →
       privateCount b
       = length (filter (λ d, PropertyMetrics.isPrivate d) (qualifying k classType))
       ∧ length (own b) + length (inherited b) + length (overridden b)
         = length (qualifying k classType)
       ∧ PropertyMetrics.length b
         = length (qualifying k classType)
           + length (filter (λ d, PropertyMetrics.isPrivate d) (qualifying k classType))).
Proof.
  assert (Hlen : ∀ this : PropertyMetrics,
     PropertyMetrics.length this
     = length (own this) + length (inherited this) + length (overridden this)
       + privateCount this).
  { intros this. unfold PropertyMetrics.length, PropertyMetrics.allProps.
    rewrite !length_app. lia. }
  split; [exact Hlen|].
  intros k parentClass classType b Hb.
  pose proof (classified_permutation (PropertyMetrics.parentPropsOf k parentClass)
                (classDeclaration classType) (qualifying k classType) k) as Hperm.
  apply analyze_new_Ok in Hb. rewrite <- Hb in Hperm. simpl in Hperm.
  apply Permutation_length in Hperm. rewrite !length_app in Hperm.
  assert (Hpriv : privateCount b
    = length (filter (λ d, PropertyMetrics.isPrivate d) (qualifying k classType))).
  { by rewrite Hb. }
  rewrite Hlen. lia.
Qed.

Lemma length_counts_private_twice_witness :
  PropertyMetrics.analyze (Some Sample.metricsA) Sample.typeB
    (PropertyMetrics.new methodsT)
  = Ok {| propType := methodsT; privateCount := 2; inherited := [];
          overridden := [Sample.B_m]; own := [Sample.B_n] |}
  ∧ PropertyMetrics.length
      {| propType := methodsT; privateCount := 2; inherited := [];
         overridden := [Sample.B_m]; own := [Sample.B_n] |} = 2 + 2.
Proof.
  assert (H : PropertyMetrics.analyze (Some Sample.metricsA) Sample.typeB
                (PropertyMetrics.new methodsT)
              = Ok {| propType := methodsT; privateCount := 2; inherited := [];
                      overridden := [Sample.B_m]; own := [Sample.B_n] |}).
  { reflexivity. }
  split; [exact H|].
  exact (proj2 (proj2 (proj2 length_counts_private_twice _ _ _ _ H))).
Defined.

(** ** Aggregation *)

Lemma fold_accumulate l m1 m2 m3 m4 m5 :
  fold_left Analyzer.accumulate l (m1, m2, m3, m4, m5) =
  (MoodMetric.add
     (sum_list_with (λ c, length (inherited (methods c)) + length (own (methods c))) l)
     (sum_list_with (λ c, PropertyMetrics.length (methods c)) l) m1,
   MoodMetric.add
     (sum_list_with (λ c, length (inherited (attributes c)) + length (own (attributes c))) l)
     (sum_list_with (λ c, PropertyMetrics.length (attributes c)) l) m2,
   MoodMetric.add
     (sum_list_with (λ c, privateCount (methods c)) l)
     (sum_list_with (λ c, PropertyMetrics.length (methods c)) l) m3,
   MoodMetric.add
     (sum_list_with (λ c, privateCount (attributes c)) l)
     (sum_list_with (λ c, PropertyMetrics.length (attributes c)) l) m4,
   MoodMetric.add
     (sum_list_with (λ c, length (inherited (methods c)) + length (overridden (methods c))) l)
     (sum_list_with (λ c, length (own (methods c)) * numberOfChildren c) l) m5).
Proof.
  revert m1 m2 m3 m4 m5. induction l as [|c l IH]; intros [a1 b1] [a2 b2] [a3 b3] [a4 b4] [a5 b5].
  - unfold MoodMetric.add; simpl. by rewrite !Nat.add_0_r.
  - simpl. rewrite IH. unfold MoodMetric.add, PropertyMetrics.length; simpl.
    repeat match goal with |- (_, _) = (_, _) => f_equal end; (f_equal; lia).
Qed.

(** The result of [analyze] in terms of the registry the traversal
    leaves. *)
Lemma analyze_Ok nodes r :
  Analyzer.analyze nodes = Ok r ↔
  ∃ this, forOf Analyzer.analyzeClass nodes [] = Ok this
    ∧ r = {| classes := this;
             mif := quotient
                      (sum_list_with (λ c, length (inherited (methods c)) + length (own (methods c))) this)
                      (sum_list_with (λ c, PropertyMetrics.length (methods c)) this);
             aif := quotient
                      (sum_list_with (λ c, length (inherited (attributes c)) + length (own (attributes c))) this)
                      (sum_list_with (λ c, PropertyMetrics.length (attributes c)) this);
             mhf := quotient
                      (sum_list_with (λ c, privateCount (methods c)) this)
                      (sum_list_with (λ c, PropertyMetrics.length (methods c)) this);
             ahf := quotient
                      (sum_list_with (λ c, privateCount (attributes c)) this)
                      (sum_list_with (λ c, PropertyMetrics.length (attributes c)) this);
             pof := quotient
                      (sum_list_with (λ c, length (inherited (methods c)) + length (overridden (methods c))) this)
                      (sum_list_with (λ c, length (own (methods c)) * numberOfChildren c) this) |}.
Proof.
  unfold Analyzer.analyze. rewrite bind_Ok.
  split; intros (this & Hthis & H); exists this; (split; [done|]);
    rewrite fold_accumulate in *; unfold MoodMetric.add, MoodMetric.new, quotient in *;
    simpl in *; congruence.
Qed.

(** C1: each of the five ratios of the result is the sum of the
    per-class numerators over the sum of the per-class denominators,
    taken over all the resolved classes. *)
Theorem ratios_are_aggregate_fractions (nodes : list Node) (r : AnalysisResult) :
  Analyzer.analyze nodes = Ok r →
  mif r = quotient
            (sum_list_with (λ c, length (inherited (methods c)) + length (own (methods c)))
               (classes r))
            (sum_list_with (λ c, PropertyMetrics.length (methods c)) (classes r))
  ∧ aif r = quotient
              (sum_list_with (λ c, length (inherited (attributes c)) + length (own (attributes c)))
                 (classes r))
              (sum_list_with (λ c, PropertyMetrics.length (attributes c)) (classes r))
  ∧ mhf r = quotient
              (sum_list_with (λ c, privateCount (methods c)) (classes r))
              (sum_list_with (λ c, PropertyMetrics.length (methods c)) (classes r))
  ∧ ahf r = quotient
              (sum_list_with (λ c, privateCount (attributes c)) (classes r))
              (sum_list_with (λ c, PropertyMetrics.length (attributes c)) (classes r))
  ∧ pof r = quotient
              (sum_list_with (λ c, length (inherited (methods c)) + length (overridden (methods c)))
                 (classes r))
              (sum_list_with (λ c, length (own (methods c)) * numberOfChildren c) (classes r)).
Proof.
  intros (this & _ & ->)%analyze_Ok. simpl. done.
Qed.

Lemma analyze_fileBA : Analyzer.analyze [Sample.fileBA] = Ok resultBA.
Proof. reflexivity. Qed.

Lemma ratios_are_aggregate_fractions_witness :
  Analyzer.analyze [Sample.fileBA] = Ok resultBA
  ∧ mif resultBA = quotient (1 + 1) (2 + 4)
  ∧ pof resultBA = quotient (0 + 1) (1 * 1 + 1 * 0).
Proof.
  split; [reflexivity|].
  destruct (ratios_are_aggregate_fractions [Sample.fileBA] resultBA eq_refl)
    as (Hmif & _ & _ & _ & Hpof).
  split; [exact Hmif|exact Hpof].
Defined.

(** The aggregate fraction of the sample is 2/6, whereas the mean of the
    two per-class fractions 1/2 and 1/4 would be 3/8. *)
Example aggregate_is_not_the_mean :
  mif resultBA = Finite (2 # 6) ∧ ¬ (2 # 6 == 3 # 8)%Q.
Proof. split; [reflexivity|]. intros H. discriminate H. Qed.

(** ** The formatter *)

Lemma reduceMax_fold {A} (f : A → nat) l a :
  let m := fold_left (λ maxNumber x, if maxNumber <? f x then f x else maxNumber) l a in
  a ≤ m ∧ (∀ x, x ∈ l → f x ≤ m) ∧ (m = a ∨ ∃ x, x ∈ l ∧ f x = m).
Proof.
  revert a. induction l as [|y l IH]; intros a; simpl.
  - split; [done|]. split; [|by left]. by intros x Hx%elem_of_nil.
  - destruct (IH (if a <? f y then f y else a)) as (Hle & Hall & Hex).
    assert (Hstep : a ≤ (if a <? f y then f y else a)
                    ∧ f y ≤ (if a <? f y then f y else a)).
    { destruct (Nat.ltb_spec a (f y)); lia. }
    split; [lia|]. split.
    + intros x [->|Hx]%elem_of_cons; [lia|by apply Hall].
    + destruct Hex as [Hm|(x & Hx & Hm)].
      * destruct (Nat.ltb_spec a (f y)); [right|by left].
        exists y. split; [apply list_elem_of_here|done].
      * right. exists x. split; [by apply list_elem_of_further|done].
Qed.

Lemma reduceMax_isMaxOf {A} (f : A → nat) l : isMaxOf f l (reduceMax f l).
Proof.
  destruct (reduceMax_fold f l 0) as (_ & Hall & Hex). unfold reduceMax.
  split; [exact Hall|]. split.
  - by intros ->.
  - intros Hne. destruct Hex as [Hm|Hex]; [|exact Hex].
    destruct l as [|y l]; [done|]. exists y.
    split; [apply list_elem_of_here|].
    specialize (Hall y (list_elem_of_here _ _)). lia.
Qed.

Local Ltac solve_elem :=
  intros; repeat first [apply list_elem_of_here | apply list_elem_of_further].

Lemma clearedClassOf_projection c : projectionOf c (clearedClassOf c).
Proof.
  unfold projectionOf, clearedClassOf.
  destruct (decide (parentClass c = "")) as [He|Hne].
  - rewrite bool_decide_eq_true_2 by done. simpl.
    split_and!; [done|solve_elem..|done].
  - rewrite bool_decide_eq_false_2 by done. simpl.
    split_and!; [done|solve_elem..].
Qed.

(** C9: the formatter projects each class, in order, to className,
    numberOfChildren, depthOfInheritance and, unless the stored parent
    name is empty, parentClass; it hands the five ratios on; and
    maxNumberOfChildren and maxDepthOfInheritance are the maxima of the
    fields over the classes, 0 without classes. *)
Theorem formatMetrics_shape (result : AnalysisResult) :
  Forall2 projectionOf (classes result) (Formatted.classes (formatMetrics result))
  ∧ isMaxOf numberOfChildren (classes result)
      (Formatted.maxNumberOfChildren (formatMetrics result))
  ∧ isMaxOf depthOfInheritance (classes result)
      (Formatted.maxDepthOfInheritance (formatMetrics result))
  ∧ (Formatted.mif (formatMetrics result), Formatted.aif (formatMetrics result),
     Formatted.mhf (formatMetrics result), Formatted.ahf (formatMetrics result),
     Formatted.pof (formatMetrics result))
    = (mif result, aif result, mhf result, ahf result, pof result).
Proof.
  split_and!.
  - simpl. apply Forall2_fmap_r, Forall_Forall2_diag, Forall_forall.
    intros c _. apply clearedClassOf_projection.
  - apply reduceMax_isMaxOf.
  - apply reduceMax_isMaxOf.
  - done.
Qed.

(** ** Class resolution *)

(** Induction along the parent of a class. *)
Lemma tsType_parent_ind (P : tsType → Prop) :
  (∀ t, (∀ b, parentType t = Some b → P b) → P t) → ∀ t, P t.
Proof.
  intros H. fix IH 1. intros t. apply H. intros b Hb.
  destruct t as [n s bts ps]. unfold parentType in Hb. simpl in Hb.
  destruct bts as [[|b' [|b'' bts]]|]; try discriminate Hb.
  injection Hb as <-. apply IH.
Qed.

(** Induction on the nodes of a syntax tree. *)
Lemma Node_children_ind (P : Node → Prop) :
  (∀ n, Forall P (children n) → P n) → ∀ n, P n.
Proof.
  intros H. fix IH 1. intros n. apply H.
  destruct n as [c ns]. simpl.
  induction ns as [|n' ns IHns]; constructor; [apply IH|apply IHns].
Qed.

Lemma lineage_eq t :
  lineage t = t :: properAncestors t.
Proof.
  unfold properAncestors, parentType.
  destruct t as [n s bts ps]; simpl.
  by destruct bts as [[|b' [|b'' bts]]|].
Qed.

Lemma elem_of_lineage_self t : t ∈ lineage t.
Proof. rewrite lineage_eq. apply list_elem_of_here. Qed.

Lemma elem_of_lineage_parent t b a :
  parentType t = Some b → a ∈ lineage b → a ∈ lineage t.
Proof.
  intros Hb Ha. rewrite lineage_eq. unfold properAncestors. rewrite Hb.
  by apply list_elem_of_further.
Qed.

Lemma elem_of_lineage t a :
  a ∈ lineage t ↔ a = t ∨ ∃ b, parentType t = Some b ∧ a ∈ lineage b.
Proof.
  rewrite lineage_eq at 1. unfold properAncestors. rewrite elem_of_cons.
  destruct (parentType t) as [b|].
  - split; intros [->|H]; eauto. right. by destruct H as (b' & [= <-] & H).
  - split; intros [->|H]; eauto.
    + by apply elem_of_nil in H.
    + by destruct H as (b' & ? & _).
Qed.

(** An ancestor has a shorter lineage. *)
Lemma lineage_length_le t a :
  a ∈ lineage t → length (lineage a) ≤ length (lineage t).
Proof.
  revert a. induction t as [t IH] using tsType_parent_ind. intros a.
  rewrite elem_of_lineage. intros [->|(b & Hb & Ha)]; [done|].
  specialize (IH b Hb a Ha).
  rewrite (lineage_eq t). unfold properAncestors. rewrite Hb. simpl. lia.
Qed.

Lemma not_elem_of_properAncestors t : t ∉ properAncestors t.
Proof.
  unfold properAncestors. destruct (parentType t) as [b|] eqn:Hb.
  - intros Hin%lineage_length_le.
    rewrite (lineage_eq t) in Hin. unfold properAncestors in Hin.
    rewrite Hb in Hin. simpl in Hin. lia.
  - apply not_elem_of_nil.
Qed.

(** A lineage is closed under parents. *)
Lemma lineage_closed t a b :
  a ∈ lineage t → parentType a = Some b → b ∈ lineage t.
Proof.
  revert a b. induction t as [t IH] using tsType_parent_ind. intros a b.
  rewrite elem_of_lineage. intros [->|(b' & Hb' & Ha)] Hb.
  - eapply elem_of_lineage_parent; [done|apply elem_of_lineage_self].
  - eapply elem_of_lineage_parent; [done|]. by eapply IH.
Qed.

Lemma parentType_baseCount t b : parentType t = Some b → baseCount t = 1.
Proof.
  unfold parentType, baseCount.
  destruct (getBaseTypes t) as [[|b' [|b'' bts]]|]; by intros [= <-].
Qed.

Lemma parentType_None_baseCount t :
  parentType t = None → baseCount t ≤ 1 → baseCount t = 0.
Proof.
  unfold parentType, baseCount.
  destruct (getBaseTypes t) as [[|b' [|b'' bts]]|]; simpl; intros; try done; lia.
Qed.

(** Under a provider that gives one identity to one class, no ancestor
    of a class carries the identity of the class. *)
Lemma consistent_properAncestors t a :
  consistent (lineage t) → a ∈ properAncestors t → typeIdentity a ≠ typeIdentity t.
Proof.
  intros Hcons Ha Hid.
  assert (a = t) as ->.
  { apply Hcons; [|apply elem_of_lineage_self|done].
    rewrite lineage_eq. by apply list_elem_of_further. }
  by apply (not_elem_of_properAncestors t).
Qed.

(** The three ways [getParentClassMetrics] can go. *)
Lemma getParentClassMetrics_eq t this :
  Analyzer.getParentClassMetrics t this =
  match parentType t with
  | Some b => '(p, this) ← Analyzer.getClassMetrics b this; Ok (Some p, this)
  | None =>
      if decide (baseCount t = 0) then Ok (None, this)
      else Throw (UnexpectedBaseClassesNumber (baseCount t))
  end.
Proof.
  unfold Analyzer.getParentClassMetrics, Analyzer.getParentClassMetricsWith,
    parentType, baseCount.
  by destruct (getBaseTypes t) as [[|b' [|b'' bts]]|].
Qed.

(** Line 90 reads [classType.symbol.declarations]: a type without symbol
    is not resolved. *)
Lemma getClassMetrics_no_symbol t this :
  symbol t = None → Analyzer.getClassMetrics t this = Throw TypeError.
Proof. destruct t as [n s bts ps]. simpl. by intros ->. Qed.

Lemma getClassMetrics_eq t this :
  symbol t ≠ None →
  Analyzer.getClassMetrics t this =
  match list_find (Analyzer.sameClass (typeToString t) (Analyzer.classPathOf t)) this with
  | Some (i, _) => Ok (i, this)
  | None =>
      '(parent, this) ← Analyzer.getParentClassMetrics t this;
      let this :=
        match parent with
        | Some p => alter Analyzer.incrNumberOfChildren p this
        | None => this
        end in
      let parentObj := (λ p, this !!! p) <$> parent in
      m ← PropertyMetrics.analyze parentObj t (PropertyMetrics.new methodsT);
      a ← PropertyMetrics.analyze parentObj t (PropertyMetrics.new attributesT);
      Ok (length this, this ++ [freshClass t parentObj m a])
  end.
Proof.
  destruct t as [n s bts ps].
  change (Analyzer.getParentClassMetrics (mkType n s bts ps) this)
    with (Analyzer.getParentClassMetricsWith Analyzer.getClassMetrics
            (mkType n s bts ps) this).
  simpl. destruct s as [sym|]; [intros _|done].
  destruct (list_find _ this) as [[i c]|]; [done|].
  destruct (Analyzer.getParentClassMetricsWith _ _ this) as [[parent this1]|e]; [|done].
  simpl. by destruct parent.
Qed.

(** A class that is resolved has a symbol. *)
Lemma getClassMetrics_Ok_symbol t this k this' :
  Analyzer.getClassMetrics t this = Ok (k, this') → symbol t ≠ None.
Proof. intros H Hs. by rewrite (getClassMetrics_no_symbol t this Hs) in H. Qed.

(** The traversal of a node resolves the class-like nodes below it in
    pre-order. *)
Lemma analyzeClass_eq n this :
  Analyzer.analyzeClass n this = forOf resolve (classTypes n) this.
Proof.
  revert this. induction n as [n IH] using Node_children_ind. intros this.
  destruct n as [c ns]. simpl in *.
  assert (Hns : ∀ this, forOf Analyzer.analyzeClass ns this
                        = forOf resolve (flat_map classTypes ns) this).
  { clear this. induction IH as [|n' ns Hn' _ IHns]; intros this; [done|].
    simpl. rewrite forOf_app, Hn'.
    destruct (forOf resolve (classTypes n') this); simpl; [apply IHns|done]. }
  destruct c as [t|]; simpl.
  - unfold resolve at 2.
    destruct (Analyzer.getClassMetrics t this) as [[k this']|e]; simpl; [apply Hns|done].
  - apply Hns.
Qed.

Lemma forOf_analyzeClass nodes this :
  forOf Analyzer.analyzeClass nodes this
  = forOf resolve (flat_map classTypes nodes) this.
Proof.
  revert this. induction nodes as [|n nodes IH]; intros this; [done|].
  simpl. rewrite forOf_app, analyzeClass_eq.
  destruct (forOf resolve (classTypes n) this); simpl; [apply IH|done].
Qed.

Lemma sameButChildren_refl c : sameButChildren c c.
Proof. by repeat split. Qed.

Lemma sameButChildren_trans c1 c2 c3 :
  sameButChildren c1 c2 → sameButChildren c2 c3 → sameButChildren c1 c3.
Proof.
  intros (?&?&?&?&?&?&?) (?&?&?&?&?&?&?). repeat split; try congruence. lia.
Qed.

Lemma sameButChildren_incr c :
  sameButChildren c (Analyzer.incrNumberOfChildren c).
Proof. repeat split; simpl. lia. Qed.

Lemma sameButChildren_identity c c' :
  sameButChildren c c' → classIdentity c' = classIdentity c.
Proof. intros (?&?&_). unfold classIdentity. congruence. Qed.

Lemma lookup_alter_incr_Some (l : list ClassMetrics) (p i : nat) c :
  l !! i = Some c →
  ∃ c', alter Analyzer.incrNumberOfChildren p l !! i = Some c'
        ∧ sameButChildren c c'.
Proof.
  intros Hi. destruct (decide (p = i)) as [->|Hne].
  - rewrite list_lookup_alter_eq, Hi. simpl. eauto using sameButChildren_incr.
  - rewrite list_lookup_alter_ne by done. eauto using sameButChildren_refl.
Qed.

Lemma lookup_alter_incr_inv (l : list ClassMetrics) (p i : nat) c' :
  alter Analyzer.incrNumberOfChildren p l !! i = Some c' →
  ∃ c, l !! i = Some c ∧ sameButChildren c c'.
Proof.
  intros Hi. destruct (l !! i) as [c|] eqn:Hc.
  - exists c. split; [done|].
    destruct (lookup_alter_incr_Some l p i c Hc) as (c'' & Hc'' & Hs). congruence.
  - apply lookup_ge_None in Hc. rewrite <- (length_alter Analyzer.incrNumberOfChildren l p) in Hc.
    apply lookup_ge_None in Hc. congruence.
Qed.

Lemma list_find_sameClass_Some t this k c :
  list_find (Analyzer.sameClass (typeToString t) (Analyzer.classPathOf t)) this = Some (k, c) →
  this !! k = Some c ∧ classIdentity c = typeIdentity t.
Proof.
  intros (Hk & [Hn Hp] & _)%list_find_Some. split; [done|].
  unfold classIdentity, typeIdentity. by rewrite Hn, Hp.
Qed.

Lemma list_find_sameClass_None t this :
  list_find (Analyzer.sameClass (typeToString t) (Analyzer.classPathOf t)) this = None ↔
  ∀ c, c ∈ this → classIdentity c ≠ typeIdentity t.
Proof.
  rewrite list_find_None, Forall_forall. unfold Analyzer.sameClass, classIdentity, typeIdentity.
  split; intros H c Hc.
  - intros [= Hn Hp]. by apply (H c Hc).
  - intros [Hn Hp]. apply (H c Hc). by rewrite Hn, Hp.
Qed.

(** What a successful [getClassMetrics] has done. *)
Lemma getClassMetrics_Ok_inv t this k this' :
  Analyzer.getClassMetrics t this = Ok (k, this') →
  (∃ c, list_find (Analyzer.sameClass (typeToString t) (Analyzer.classPathOf t)) this
        = Some (k, c) ∧ this' = this)
  ∨ (list_find (Analyzer.sameClass (typeToString t) (Analyzer.classPathOf t)) this = None
     ∧ baseCount t ≤ 1
     ∧ ∃ parent this1 m a,
         match parentType t with
         | Some b => ∃ p, Analyzer.getClassMetrics b this = Ok (p, this1) ∧ parent = Some p
         | None => parent = None ∧ this1 = this
         end
         ∧ let this2 :=
             match parent with
             | Some p => alter Analyzer.incrNumberOfChildren p this1
             | None => this1
             end in
           let parentObj := (λ p, this2 !!! p) <$> parent in
           PropertyMetrics.analyze parentObj t (PropertyMetrics.new methodsT) = Ok m
           ∧ PropertyMetrics.analyze parentObj t (PropertyMetrics.new attributesT) = Ok a
           ∧ k = length this2
           ∧ this' = this2 ++ [freshClass t parentObj m a]).
Proof.
  intros H. pose proof (getClassMetrics_Ok_symbol _ _ _ _ H) as Hsym. revert H.
  rewrite getClassMetrics_eq by done.
  destruct (list_find _ this) as [[i c]|] eqn:Hfind.
  { intros [= <- <-]. left. eauto. }
  intros H. right. split; [done|].
  apply bind_Ok in H as ([parent this1] & Hparent & H).
  apply bind_Ok in H as (m & Hm & H).
  apply bind_Ok in H as (a & Ha & H).
  injection H as <- <-.
  rewrite getParentClassMetrics_eq in Hparent.
  destruct (parentType t) as [b|] eqn:Hb.
  - apply bind_Ok in Hparent as ([p this1'] & Hp & [= <- <-]).
    split; [by rewrite (parentType_baseCount t b)|].
    exists (Some p), this1', m, a. split; [eauto|done].
  - destruct (decide (baseCount t = 0)) as [H0|]; [|done].
    injection Hparent as <- <-.
    split; [lia|]. exists None, this, m, a. done.
Qed.

(** The registry after a successful [getClassMetrics]: the objects that
    were registered are still there, in place, with nothing but
    [numberOfChildren] changed; the new ones stand for the class or its
    ancestors; the returned object stands for the class. *)
Lemma getClassMetrics_registry t :
  ∀ this k this',
    Analyzer.getClassMetrics t this = Ok (k, this') →
    length this ≤ length this'
    ∧ (∀ i c, this !! i = Some c →
              ∃ c', this' !! i = Some c' ∧ sameButChildren c c')
    ∧ (∀ i c', this' !! i = Some c' → length this ≤ i →
               ∃ a, a ∈ lineage t ∧ classIdentity c' = typeIdentity a)
    ∧ (∃ c, this' !! k = Some c ∧ classIdentity c = typeIdentity t).
Proof.
  induction t as [t IH] using tsType_parent_ind. intros this k this' H.
  apply getClassMetrics_Ok_inv in H
    as [(c & Hfind & ->)|(Hfind & _ & parent & this1 & m & a & Hparent & H)].
  { apply list_find_sameClass_Some in Hfind as [Hk Hc].
    split; [done|]. split; [eauto using sameButChildren_refl|].
    split; [|eauto]. intros i c' Hi Hle. apply lookup_lt_Some in Hi. lia. }
  simpl in H. destruct H as (_ & _ & -> & ->).
  set (this2 := match parent with
                | Some p => alter Analyzer.incrNumberOfChildren p this1
                | None => this1
                end).
  set (new := freshClass t _ m a).
  assert (Hlen2 : length this2 = length this1).
  { unfold this2. destruct parent; [apply length_alter|done]. }
  assert (H12 : ∀ i c, this1 !! i = Some c →
                       ∃ c', this2 !! i = Some c' ∧ sameButChildren c c').
  { unfold this2. destruct parent.
    - intros i c. apply lookup_alter_incr_Some.
    - eauto using sameButChildren_refl. }
  assert (H21 : ∀ i c', this2 !! i = Some c' →
                        ∃ c, this1 !! i = Some c ∧ sameButChildren c c').
  { unfold this2. destruct parent.
    - intros i c'. apply lookup_alter_incr_inv.
    - eauto using sameButChildren_refl. }
  assert (H01 : length this ≤ length this1
    ∧ (∀ i c, this !! i = Some c → ∃ c', this1 !! i = Some c' ∧ sameButChildren c c')
    ∧ (∀ i c', this1 !! i = Some c' → length this ≤ i →
               ∃ a, a ∈ lineage t ∧ classIdentity c' = typeIdentity a)).
  { destruct (parentType t) as [b|] eqn:Hb.
    - destruct Hparent as (p & Hp & ->).
      destruct (IH b eq_refl this p this1 Hp) as (Hl & Hold & Hnew & _).
      split; [done|]. split; [done|].
      intros i c' Hi Hle. destruct (Hnew i c' Hi Hle) as (a0 & Ha0 & Hid).
      exists a0. split; [by eapply elem_of_lineage_parent|done].
    - destruct Hparent as [-> ->].
      split; [done|]. split; [eauto using sameButChildren_refl|].
      intros i c' Hi Hle. apply lookup_lt_Some in Hi. lia. }
  destruct H01 as (Hl & Hold & Hnew).
  split; [rewrite length_app; simpl; lia|]. split; [|split].
  - intros i c Hi. destruct (Hold i c Hi) as (c1 & Hc1 & Hs1).
    destruct (H12 i c1 Hc1) as (c2 & Hc2 & Hs2).
    exists c2. split; [by apply lookup_app_l_Some|].
    by eapply sameButChildren_trans.
  - intros i c' Hi Hle. apply lookup_app_Some in Hi as [Hi|[Hge Hi]].
    + destruct (H21 i c' Hi) as (c1 & Hc1 & Hs1).
      destruct (Hnew i c1 Hc1 Hle) as (a0 & Ha0 & Hid).
      exists a0. split; [done|]. by rewrite (sameButChildren_identity c1 c').
    + apply list_lookup_singleton_Some in Hi as [_ <-].
      exists t. split; [apply elem_of_lineage_self|done].
  - exists new. split; [|done].
    rewrite lookup_app_r by done. by rewrite Nat.sub_diag.
Qed.

(** ** Idempotence of the resolution *)

Lemma grownFrom_refl reg : grownFrom reg reg.
Proof. intros i c Hi. eauto using sameButChildren_refl. Qed.

Lemma grownFrom_trans reg1 reg2 reg3 :
  grownFrom reg1 reg2 → grownFrom reg2 reg3 → grownFrom reg1 reg3.
Proof.
  intros H12 H23 i c Hi.
  destruct (H12 i c Hi) as (c2 & Hc2 & Hs2).
  destruct (H23 i c2 Hc2) as (c3 & Hc3 & Hs3).
  eauto using sameButChildren_trans.
Qed.

(** Whatever is resolved later only lets the registry grow. *)
Lemma getClassMetrics_grownFrom t this k this' :
  Analyzer.getClassMetrics t this = Ok (k, this') → grownFrom this this'.
Proof. intros H. by destruct (getClassMetrics_registry t this k this' H) as (_ & ? & _). Qed.

Lemma forOf_resolve_grownFrom ts :
  ∀ this this', forOf resolve ts this = Ok this' → grownFrom this this'.
Proof.
  induction ts as [|t ts IH]; intros this this' H; simpl in H.
  - injection H as <-. apply grownFrom_refl.
  - apply bind_Ok in H as (this1 & H1 & H). unfold resolve in H1.
    apply bind_Ok in H1 as ([k this1'] & Hk & [= ->]).
    eapply grownFrom_trans; [by eapply getClassMetrics_grownFrom|by apply IH].
Qed.

(** Once a class is resolved, the returned object is the one that [find]
    meets first for its identity. *)
Lemma getClassMetrics_finds t this k this' :
  (∀ a, a ∈ properAncestors t → typeIdentity a ≠ typeIdentity t) →
  Analyzer.getClassMetrics t this = Ok (k, this') →
  ∃ c, list_find (Analyzer.sameClass (typeToString t) (Analyzer.classPathOf t)) this'
       = Some (k, c).
Proof.
  intros Hanc H.
  apply getClassMetrics_Ok_inv in H
    as [(c & Hfind & ->)|(Hfind & _ & parent & this1 & m & a & Hparent & H)].
  { by exists c. }
  simpl in H. destruct H as (_ & _ & -> & ->).
  set (this2 := match parent with
                | Some p => alter Analyzer.incrNumberOfChildren p this1
                | None => this1
                end).
  set (new := freshClass t _ m a).
  assert (H21 : ∀ i c', this2 !! i = Some c' →
                        ∃ c, this1 !! i = Some c ∧ sameButChildren c c').
  { unfold this2. destruct parent.
    - intros i c'. apply lookup_alter_incr_inv.
    - eauto using sameButChildren_refl. }
  assert (H1 : ∀ c, c ∈ this1 → classIdentity c ≠ typeIdentity t).
  { rewrite list_find_sameClass_None in Hfind.
    unfold properAncestors in Hanc.
    destruct (parentType t) as [b|].
    - destruct Hparent as (p & Hp & ->).
      destruct (getClassMetrics_registry b this p this1 Hp) as (Hl & Hold & Hnew & _).
      intros c (i & Hi)%list_elem_of_lookup.
      destruct (decide (i < length this)) as [Hlt|Hge].
      + destruct (lookup_lt_is_Some_2 this i Hlt) as [c0 Hc0].
        destruct (Hold i c0 Hc0) as (c' & Hc' & Hs).
        assert (c' = c) as -> by congruence.
        rewrite (sameButChildren_identity c0 c Hs).
        apply Hfind. by eapply list_elem_of_lookup_2.
      + destruct (Hnew i c Hi ltac:(lia)) as (a0 & Ha0 & ->). by apply Hanc.
    - by destruct Hparent as [-> ->]. }
  assert (H2 : list_find (Analyzer.sameClass (typeToString t) (Analyzer.classPathOf t)) this2
               = None).
  { apply list_find_sameClass_None.
    intros c (i & Hi)%list_elem_of_lookup.
    destruct (H21 i c Hi) as (c1 & Hc1 & Hs).
    rewrite (sameButChildren_identity c1 c Hs).
    apply H1. by eapply list_elem_of_lookup_2. }
  exists new. rewrite (list_find_app_r _ _ _ H2). simpl.
  rewrite decide_True by done. simpl. done.
Qed.

(** C2: once a class is resolved, resolving it again, at once or in any
    later state of the registry, returns the same registered object and
    leaves the registry as it is: no entry is added and no
    [numberOfChildren] changes.  (A class and one of its ancestors are
    taken to have different identities.) *)
Theorem resolve_is_idempotent
    (t : tsType) (this : list ClassMetrics) (k : nat) (this' later : list ClassMetrics) :
  (∀ a, a ∈ properAncestors t → typeIdentity a ≠ typeIdentity t) →
  Analyzer.getClassMetrics t this = Ok (k, this') →
  grownFrom this' later →
  Analyzer.getClassMetrics t later = Ok (k, later).
Proof.
  intros Hanc H Hlater.
  destruct (getClassMetrics_finds t this k this' Hanc H) as (c & Hfind).
  apply list_find_Some in Hfind as (Hk & Hc & Hfirst).
  destruct (Hlater k c Hk) as (c' & Hk' & Hs).
  assert (Hfind' : list_find (Analyzer.sameClass (typeToString t) (Analyzer.classPathOf t))
                     later = Some (k, c')).
  { apply list_find_Some. split; [done|]. split.
    - destruct Hs as (Hn & Hp & _). destruct Hc as [Hcn Hcp].
      split; congruence.
    - intros j y Hj Hlt [Hyn Hyp].
      destruct (lookup_lt_is_Some_2 this' j) as [y0 Hy0];
        [apply lookup_lt_Some in Hk; lia|].
      destruct (Hlater j y0 Hy0) as (y' & Hy' & (Hn & Hp & _)).
      assert (y' = y) as -> by congruence.
      apply (Hfirst j y0 Hy0 Hlt). split; congruence. }
  rewrite getClassMetrics_eq by (by eapply getClassMetrics_Ok_symbol).
  by rewrite Hfind'.
Qed.

Lemma resolve_is_idempotent_witness :
  (∀ a, a ∈ properAncestors Sample.typeB → typeIdentity a ≠ typeIdentity Sample.typeB)
  ∧ Analyzer.getClassMetrics Sample.typeB [] = Ok (1, classes resultBA)
  ∧ Analyzer.getClassMetrics Sample.typeB (classes resultBA) = Ok (1, classes resultBA)
  ∧ ∃ later, Analyzer.getClassMetrics Sample.typeE (classes resultBA) = Ok (2, later)
             ∧ Analyzer.getClassMetrics Sample.typeB later = Ok (1, later).
Proof.
  assert (H : ∀ a, a ∈ properAncestors Sample.typeB
                   → typeIdentity a ≠ typeIdentity Sample.typeB).
  { intros a Ha. vm_compute in Ha. apply list_elem_of_singleton in Ha as ->.
    vm_compute. discriminate. }
  assert (H0 : Analyzer.getClassMetrics Sample.typeB [] = Ok (1, classes resultBA)).
  { reflexivity. }
  split; [exact H|]. split; [exact H0|]. split.
  - exact (resolve_is_idempotent Sample.typeB [] 1 (classes resultBA) (classes resultBA)
             H H0 (grownFrom_refl _)).
  - destruct (Analyzer.getClassMetrics Sample.typeE (classes resultBA))
      as [[k later]|e] eqn:HE; [|vm_compute in HE; discriminate HE].
    exists later.
    assert (k = 2) as ->.
    { vm_compute in HE. by injection HE as <- _. }
    split; [reflexivity|].
    exact (resolve_is_idempotent Sample.typeB [] 1 (classes resultBA) later
             H H0 (getClassMetrics_grownFrom _ _ _ _ HE)).
Defined.

(** ** Zero denominators *)

Lemma sum_list_with_eq_0 {A} (f : A → nat) l :
  sum_list_with f l = 0 ↔ ∀ x, x ∈ l → f x = 0.
Proof.
  induction l as [|y l IH]; simpl.
  - split; [|done]. by intros _ x Hx%elem_of_nil.
  - split.
    + intros H x [->|Hx]%elem_of_cons; [lia|]. apply IH; [lia|done].
    + intros H. rewrite (H y (list_elem_of_here _ _)).
      apply IH. intros x Hx. apply H. by apply list_elem_of_further.
Qed.

Lemma sum_list_with_le {A} (f g : A → nat) l :
  (∀ x, f x ≤ g x) → sum_list_with f l ≤ sum_list_with g l.
Proof.
  intros H. induction l as [|y l IH]; simpl; [done|]. specialize (H y). lia.
Qed.

Lemma quotient_0_0 : quotient 0 0 = NaN.
Proof. done. Qed.

(** The division itself yields Infinity on a positive numerator; the
    analysis never meets the case. *)
Example quotient_1_0 : quotient 1 0 = Infinity.
Proof. done. Qed.

Lemma polymorphismGround_alter reg p :
  polymorphismGround reg →
  polymorphismGround (alter Analyzer.incrNumberOfChildren p reg).
Proof.
  intros (g & (i & Hi)%list_elem_of_lookup & Hown & Hnoc).
  destruct (lookup_alter_incr_Some reg p i g Hi) as (g' & Hg' & Hs).
  exists g'. split; [by eapply list_elem_of_lookup_2|].
  destruct Hs as (_&_&_&_&Hm&_&Hle). rewrite Hm. split; [done|lia].
Qed.

Lemma groundedOverrides_alter reg p :
  groundedOverrides reg →
  groundedOverrides (alter Analyzer.incrNumberOfChildren p reg).
Proof.
  intros H c' (i & Hi)%list_elem_of_lookup Hc'.
  destruct (lookup_alter_incr_inv reg p i c' Hi) as (c & Hc & Hs).
  apply polymorphismGround_alter. apply (H c); [by eapply list_elem_of_lookup_2|].
  destruct Hs as (_&_&_&_&Hm&_). by rewrite <- Hm.
Qed.

Lemma polymorphismGround_app reg new :
  polymorphismGround reg → polymorphismGround (reg ++ new).
Proof.
  intros (g & Hg & H). exists g. split; [|done]. apply elem_of_app. by left.
Qed.

(** A class shows inherited or overridden methods only if its parent has
    methods. *)
Lemma classified_matches_parent pp cd q k :
  let b := classified pp cd q (PropertyMetrics.new k) in
  inherited b ++ overridden b ≠ [] → pp ≠ [].
Proof.
  simpl. intros H ->. apply H. clear H.
  induction q as [|d q IHq]; [by rewrite !filter_nil|].
  rewrite !filter_cons_False; [done|by intros [? _]..].
Qed.

Lemma getClassMetrics_groundedOverrides t :
  ∀ this k this',
    groundedOverrides this →
    Analyzer.getClassMetrics t this = Ok (k, this') →
    groundedOverrides this'.
Proof.
  induction t as [t IH] using tsType_parent_ind. intros this k this' Hinv H.
  apply getClassMetrics_Ok_inv in H
    as [(c & Hfind & ->)|(Hfind & _ & parent & this1 & m & a & Hparent & H)]; [done|].
  simpl in H. destruct H as (Hm & _ & -> & ->).
  apply analyze_new_Ok in Hm.
  destruct (parentType t) as [b|] eqn:Hb.
  - destruct Hparent as (p & Hp & ->). simpl in *.
    pose proof (IH b eq_refl this p this1 Hinv Hp) as Hinv1.
    destruct (getClassMetrics_registry b this p this1 Hp) as (_ & _ & _ & cb & Hcb & _).
    set (this2 := alter Analyzer.incrNumberOfChildren p this1) in *.
    assert (Hinv2 : groundedOverrides this2) by by apply groundedOverrides_alter.
    assert (Hp2 : this2 !! p = Some (Analyzer.incrNumberOfChildren cb)).
    { unfold this2. by rewrite list_lookup_alter_eq, Hcb. }
    rewrite (list_lookup_total_correct _ _ _ Hp2) in Hm.
    assert (Hnew : inherited (methods (freshClass t (Some (Analyzer.incrNumberOfChildren cb)) m a))
                   ++ overridden (methods (freshClass t (Some (Analyzer.incrNumberOfChildren cb)) m a)) ≠ []
                   → polymorphismGround this2).
    { simpl. rewrite Hm. intros Hne%classified_matches_parent.
      simpl in Hne. unfold PropertyMetrics.allProps in Hne.
      destruct (own (methods cb)) as [|d l] eqn:Hown.
      - apply (Hinv2 (Analyzer.incrNumberOfChildren cb)).
        + by eapply list_elem_of_lookup_2.
        + simpl. by rewrite app_nil_r in Hne.
      - exists (Analyzer.incrNumberOfChildren cb).
        split; [by eapply list_elem_of_lookup_2|]. simpl. rewrite Hown.
        split; [done|lia]. }
    rewrite (list_lookup_total_correct _ _ _ Hp2).
    intros c [Hc| ->%list_elem_of_singleton]%elem_of_app Hne;
      apply polymorphismGround_app; [by apply (Hinv2 c)|by apply Hnew].
  - destruct Hparent as [-> ->]. simpl in *.
    intros c [Hc| ->%list_elem_of_singleton]%elem_of_app Hne.
    + apply polymorphismGround_app. by apply (Hinv c).
    + simpl in Hne. rewrite Hm in Hne.
      by apply classified_matches_parent in Hne.
Qed.

Lemma forOf_resolve_groundedOverrides ts :
  ∀ this this',
    groundedOverrides this → forOf resolve ts this = Ok this' →
    groundedOverrides this'.
Proof.
  induction ts as [|t ts IH]; intros this this' Hinv H; simpl in H.
  - by injection H as <-.
  - apply bind_Ok in H as (this1 & H1 & H). unfold resolve in H1.
    apply bind_Ok in H1 as ([k this1'] & Hk & [= ->]).
    eapply IH; [|done]. by eapply getClassMetrics_groundedOverrides.
Qed.

(** C8: when the traversal has resolved the classes, the analysis
    returns its result, whatever the denominators; a ratio whose total
    denominator is zero is NaN there. *)
Theorem zero_denominator_yields_NaN (nodes : list Node) (this : list ClassMetrics) :
  forOf Analyzer.analyzeClass nodes [] = Ok this →
  ∃ r, Analyzer.analyze nodes = Ok r
    ∧ classes r = this
    ∧ (sum_list_with (λ c, PropertyMetrics.length (methods c)) this = 0 →
       mif r = NaN ∧ mhf r = NaN)
    ∧ (sum_list_with (λ c, PropertyMetrics.length (attributes c)) this = 0 →
       aif r = NaN ∧ ahf r = NaN)
    ∧ (sum_list_with (λ c, length (own (methods c)) * numberOfChildren c) this = 0 →
       pof r = NaN).
Proof.
  intros Hthis. eexists. split; [apply analyze_Ok; eauto|]. simpl.
  split; [done|]. split_and!.
  - intros H0. rewrite H0.
    assert (Hle : ∀ f : ClassMetrics → nat,
              (∀ c, f c ≤ PropertyMetrics.length (methods c)) → sum_list_with f this = 0).
    { intros f Hf. pose proof (sum_list_with_le f _ this Hf). lia. }
    rewrite !Hle; [done|..]; intros c;
      unfold PropertyMetrics.length, PropertyMetrics.allProps; rewrite !length_app; lia.
  - intros H0. rewrite H0.
    assert (Hle : ∀ f : ClassMetrics → nat,
              (∀ c, f c ≤ PropertyMetrics.length (attributes c)) → sum_list_with f this = 0).
    { intros f Hf. pose proof (sum_list_with_le f _ this Hf). lia. }
    rewrite !Hle; [done|..]; intros c;
      unfold PropertyMetrics.length, PropertyMetrics.allProps; rewrite !length_app; lia.
  - intros H0. rewrite H0.
    assert (Hinv : groundedOverrides this).
    { rewrite forOf_analyzeClass in Hthis.
      eapply forOf_resolve_groundedOverrides; [|done].
      by intros c Hc%elem_of_nil. }
    assert (Hnum : sum_list_with
                     (λ c, length (inherited (methods c)) + length (overridden (methods c)))
                     this = 0).
    { apply sum_list_with_eq_0. intros c Hc.
      destruct (inherited (methods c) ++ overridden (methods c)) as [|d l] eqn:Hl.
      - apply (f_equal length) in Hl. rewrite length_app in Hl. done.
      - destruct (Hinv c Hc) as (g & Hg & Hown & Hnoc); [by rewrite Hl|].
        rewrite sum_list_with_eq_0 in H0. specialize (H0 g Hg).
        destruct (own (methods g)); [done|]. simpl in H0. lia. }
    by rewrite Hnum.
Qed.

Lemma zero_denominator_yields_NaN_witness :
  forOf Analyzer.analyzeClass [] [] = Ok []
  ∧ Analyzer.analyze []
    = Ok {| classes := []; mif := NaN; aif := NaN; mhf := NaN; ahf := NaN; pof := NaN |}.
Proof.
  split; [reflexivity|].
  destruct (zero_denominator_yields_NaN [] [] eq_refl)
    as (r & Hr & Hcls & Hm & Ha & Hp).
  rewrite Hr. f_equal.
  destruct (Hm eq_refl) as [Hmif Hmhf]. destruct (Ha eq_refl) as [Haif Hahf].
  specialize (Hp eq_refl).
  destruct r as [cls r1 r2 r3 r4 r5]. simpl in *. congruence.
Defined.

(** ** The registry of the resolved classes *)

Lemma childrenIn_ext L L' i :
  (∀ x, x ∈ L ↔ x ∈ L') → childrenIn L i = childrenIn L' i.
Proof.
  intros H. unfold childrenIn. apply Permutation_length.
  apply NoDup_Permutation; [apply NoDup_remove_dups..|].
  intros x. rewrite !elem_of_remove_dups, !list_elem_of_fmap.
  split; intros (d & -> & Hd); exists d; (split; [done|]);
    rewrite list_elem_of_filter in *; by rewrite H in *.
Qed.

Lemma childrenIn_0 L i :
  (∀ d, d ∈ L → typeIdentity <$> parentType d ≠ Some i) → childrenIn L i = 0.
Proof.
  intros H. unfold childrenIn.
  induction L as [|d L IH]; [by rewrite filter_nil|].
  rewrite filter_cons_False by (apply H, list_elem_of_here).
  apply IH. intros d' Hd'. apply H. by apply list_elem_of_further.
Qed.

Lemma childrenIn_cons_other t L i :
  typeIdentity <$> parentType t ≠ Some i → childrenIn (t :: L) i = childrenIn L i.
Proof. intros H. unfold childrenIn. by rewrite filter_cons_False. Qed.

Lemma childrenIn_cons_new t L i :
  typeIdentity <$> parentType t = Some i →
  (∀ t', t' ∈ L → typeIdentity t' ≠ typeIdentity t) →
  childrenIn (t :: L) i = S (childrenIn L i).
Proof.
  intros H Hnew. unfold childrenIn. rewrite filter_cons_True by done.
  rewrite fmap_cons. simpl.
  destruct (decide_rel _ _ _) as [Hin|]; [|done]. exfalso.
  apply list_elem_of_fmap in Hin as (t' & Heq & [_ Ht']%list_elem_of_filter).
  by apply (Hnew t' Ht').
Qed.

Lemma registryOf_nil : registryOf [] [].
Proof.
  split_and!.
  - constructor.
  - by intros c Hc%elem_of_nil.
  - by intros t b Ht%elem_of_nil.
  - by intros t Ht%elem_of_nil.
  - by intros t Ht%elem_of_nil.
  - by intros c Hc%elem_of_nil.
Qed.

Lemma registryOf_ext L L' reg :
  (∀ x, x ∈ L ↔ x ∈ L') → registryOf L reg → registryOf L' reg.
Proof.
  intros H (Hnd & Himg & Hcl & Hbc & Hreg & Hnoc). split_and!.
  - done.
  - intros c Hc. destruct (Himg c Hc) as (t & Ht & Hid). exists t. by rewrite <- H.
  - intros t b Ht Hb. rewrite <- H in *. by eapply Hcl.
  - intros t Ht. rewrite <- H in Ht. by apply Hbc.
  - intros t Ht. rewrite <- H in Ht. by apply Hreg.
  - intros c Hc. rewrite (Hnoc c Hc). by apply childrenIn_ext.
Qed.

(** In a registry of [L], a class of [L] is found by its identity. *)
Lemma registryOf_find L reg t :
  registryOf L reg → t ∈ L → ∃ c, c ∈ reg ∧ classIdentity c = typeIdentity t.
Proof.
  intros (_ & _ & _ & _ & Hreg & _) Ht.
  destruct (Hreg t Ht) as (k & c & Hk & Hid & _).
  exists c. split; [by eapply list_elem_of_lookup_2|done].
Qed.

Lemma registryOf_lineage L reg t a :
  registryOf L reg → t ∈ L → a ∈ lineage t → a ∈ L.
Proof.
  intros (_ & _ & Hcl & _) Ht. revert Ht.
  induction t as [t IH] using tsType_parent_ind. intros Ht.
  rewrite elem_of_lineage. intros [->|(b & Hb & Ha)]; [done|].
  apply (IH b Hb); [|done]. by eapply Hcl.
Qed.

Lemma fmap_classIdentity_alter p (l : list ClassMetrics) :
  classIdentity <$> alter Analyzer.incrNumberOfChildren p l = classIdentity <$> l.
Proof.
  rewrite (list_fmap_alter classIdentity Analyzer.incrNumberOfChildren id).
  - by apply list_alter_id.
  - by apply Forall_forall.
Qed.

(** Registering a class that is new to the registry, its parent (if any)
    being registered, keeps the registry faithful. *)
Lemma registryOf_register L this1 t parent m a :
  registryOf L this1 →
  (∀ t', t' ∈ L → typeIdentity t' ≠ typeIdentity t) →
  baseCount t ≤ 1 →
  match parentType t with
  | Some b => b ∈ L ∧ ∃ p pc, parent = Some p ∧ this1 !! p = Some pc
                              ∧ classIdentity pc = typeIdentity b
  | None => parent = None
  end →
  let this2 :=
    match parent with
    | Some p => alter Analyzer.incrNumberOfChildren p this1
    | None => this1
    end in
  let parentObj := (λ p, this2 !!! p) <$> parent in
  registryOf (t :: L) (this2 ++ [freshClass t parentObj m a]).
Proof.
  intros (Hnd & Himg & Hcl & Hbc & Hreg & Hnoc) Hnew Hbase Hparent this2 parentObj.
  set (new := freshClass t parentObj m a).
  assert (Hids : classIdentity <$> this2 = classIdentity <$> this1).
  { unfold this2. destruct parent; [apply fmap_classIdentity_alter|done]. }
  assert (H12 : ∀ i c, this1 !! i = Some c →
                       ∃ c', this2 !! i = Some c' ∧ sameButChildren c c').
  { unfold this2. destruct parent.
    - intros i c. apply lookup_alter_incr_Some.
    - eauto using sameButChildren_refl. }
  assert (H21 : ∀ i c', this2 !! i = Some c' →
                        ∃ c, this1 !! i = Some c ∧ sameButChildren c c').
  { unfold this2. destruct parent.
    - intros i c'. apply lookup_alter_incr_inv.
    - eauto using sameButChildren_refl. }
  assert (Hfresh : ∀ c, c ∈ this1 → classIdentity c ≠ typeIdentity t).
  { intros c Hc Hid. destruct (Himg c Hc) as (t' & Ht' & Hid').
    apply (Hnew t' Ht'). congruence. }
  assert (Hparent_in : ∀ d b, d ∈ t :: L → parentType d = Some b → b ∈ L).
  { intros d b [->|Hd]%elem_of_cons Hb.
    - rewrite Hb in Hparent. by destruct Hparent.
    - by eapply Hcl. }
  split_and!.
  - rewrite fmap_app, Hids. apply NoDup_app. split; [done|]. split.
    + intros x (c & -> & Hc)%list_elem_of_fmap Hx.
      apply list_elem_of_singleton in Hx. by apply (Hfresh c Hc).
    + apply NoDup_singleton.
  - intros c [(i & Hi)%list_elem_of_lookup| ->%list_elem_of_singleton]%elem_of_app.
    + destruct (H21 i c Hi) as (c0 & Hc0 & Hs).
      destruct (Himg c0) as (t' & Ht' & Hid'); [by eapply list_elem_of_lookup_2|].
      exists t'. split; [by apply list_elem_of_further|].
      by rewrite (sameButChildren_identity c0 c).
    + exists t. split; [apply list_elem_of_here|done].
  - intros d b Hd Hb. apply list_elem_of_further. by eapply Hparent_in.
  - intros d [->|Hd]%elem_of_cons; [done|by apply Hbc].
  - intros d [->|Hd]%elem_of_cons.
    + exists (length this2), new.
      split; [by rewrite lookup_app_r, Nat.sub_diag|]. split; [done|].
      destruct (parentType t) as [b|].
      * destruct Hparent as (Hb & p & pc & -> & Hp & Hid).
        destruct (H12 p pc Hp) as (pc' & Hp' & Hs).
        exists p, pc'. split; [by eapply lookup_lt_Some|].
        split; [by apply lookup_app_l_Some|].
        split; [by rewrite (sameButChildren_identity pc pc')|].
        unfold new, parentObj. simpl.
        by rewrite (list_lookup_total_correct _ _ _ Hp').
      * unfold new, parentObj. by rewrite Hparent.
    + destruct (Hreg d Hd) as (k & c & Hk & Hid & Hpar).
      destruct (H12 k c Hk) as (c' & Hk' & Hs).
      exists k, c'. split; [by apply lookup_app_l_Some|].
      split; [by rewrite (sameButChildren_identity c c')|].
      destruct Hs as (_ & _ & Hpc & Hdepth & _).
      destruct (parentType d) as [b|]; [|by rewrite Hdepth, Hpc].
      destruct Hpar as (p & pc & Hlt & Hp & Hidp & Hd1 & Hd2).
      destruct (H12 p pc Hp) as (pc' & Hp' & Hs').
      exists p, pc'. split; [done|]. split; [by apply lookup_app_l_Some|].
      split; [by rewrite (sameButChildren_identity pc pc')|].
      destruct Hs' as (Hn' & _ & _ & Hdepth' & _).
      rewrite Hdepth, Hpc, Hdepth', Hn'. done.
  - intros c [(i & Hi)%list_elem_of_lookup| ->%list_elem_of_singleton]%elem_of_app.
    + unfold this2 in Hi.
      destruct (parentType t) as [b|] eqn:Hb.
      * destruct Hparent as (Hbin & p & pc & -> & Hp & Hid).
        destruct (decide (p = i)) as [<-|Hne].
        -- rewrite list_lookup_alter_eq, Hp in Hi. injection Hi as <-.
           change (classIdentity (Analyzer.incrNumberOfChildren pc))
             with (classIdentity pc).
           rewrite Hid, childrenIn_cons_new; [|by rewrite Hb|done].
           simpl. rewrite (Hnoc pc), Hid; [lia|by eapply list_elem_of_lookup_2].
        -- rewrite list_lookup_alter_ne in Hi by done.
           rewrite childrenIn_cons_other; [by eapply Hnoc, list_elem_of_lookup_2|].
           rewrite Hb. simpl. intros Heq. apply Hne.
           assert (Heq' : classIdentity c = classIdentity pc) by congruence.
           apply (NoDup_lookup (classIdentity <$> this1) p i (classIdentity pc) Hnd).
           ++ by rewrite list_lookup_fmap, Hp.
           ++ by rewrite list_lookup_fmap, Hi, <- Heq'.
      * rewrite Hparent in Hi.
        rewrite childrenIn_cons_other; [by eapply Hnoc, list_elem_of_lookup_2|].
        by rewrite Hb.
    + change (numberOfChildren new) with 0. symmetry.
      apply childrenIn_0. intros d Hd Hpd.
      destruct (parentType d) as [b|] eqn:Hb; [|done].
      apply (Hnew b (Hparent_in d b Hd Hb)).
      change (classIdentity new) with (typeIdentity t) in Hpd.
      simpl in Hpd. congruence.
Qed.

Lemma registryOf_unique L reg c c' :
  registryOf L reg → c ∈ reg → c' ∈ reg →
  classIdentity c = classIdentity c' → c = c'.
Proof.
  intros (Hnd & _) (i & Hi)%list_elem_of_lookup (j & Hj)%list_elem_of_lookup Hid.
  assert (i = j) as ->; [|congruence].
  apply (NoDup_lookup (classIdentity <$> reg) i j (classIdentity c) Hnd).
  - by rewrite list_lookup_fmap, Hi.
  - by rewrite list_lookup_fmap, Hj, Hid.
Qed.

Lemma registryOf_position L reg i j c c' :
  registryOf L reg → reg !! i = Some c → reg !! j = Some c' →
  classIdentity c = classIdentity c' → i = j.
Proof.
  intros (Hnd & _) Hi Hj Hid.
  apply (NoDup_lookup (classIdentity <$> reg) i j (classIdentity c) Hnd).
  - by rewrite list_lookup_fmap, Hi.
  - by rewrite list_lookup_fmap, Hj, Hid.
Qed.

Section faithful_provider.
Context (U : list tsType) (Hcons : consistent U).

(** Resolving a class adds the class and its ancestors to what the
    registry holds. *)
Lemma getClassMetrics_registryOf t :
  (∀ a, a ∈ lineage t → a ∈ U) →
  ∀ L this k this',
    (∀ x, x ∈ L → x ∈ U) →
    registryOf L this →
    Analyzer.getClassMetrics t this = Ok (k, this') →
    registryOf (lineage t ++ L) this'.
Proof.
  induction t as [t IH] using tsType_parent_ind.
  intros HtU L this k this' HLU Hinv H.
  assert (Ht : t ∈ U) by apply HtU, elem_of_lineage_self.
  apply getClassMetrics_Ok_inv in H
    as [(c & Hfind & ->)|(Hfind & Hbase & parent & this1 & m & a & Hparent & H)].
  { apply list_find_sameClass_Some in Hfind as [Hk Hid].
    pose proof Hinv as (_ & Himg & _).
    destruct (Himg c) as (t' & Ht' & Hid'); [by eapply list_elem_of_lookup_2|].
    assert (t = t') as <- by (apply Hcons; [done|by apply HLU|congruence]).
    eapply registryOf_ext; [|done].
    intros x. rewrite elem_of_app. split; [by right|].
    intros [Hx|Hx]; [by eapply registryOf_lineage|done]. }
  simpl in H. destruct H as (_ & _ & -> & ->).
  assert (Hnew : ∀ t', t' ∈ L → typeIdentity t' ≠ typeIdentity t).
  { intros t' Ht' Hid.
    destruct (registryOf_find L this t' Hinv Ht') as (c & Hc & Hidc).
    rewrite list_find_sameClass_None in Hfind. apply (Hfind c Hc). congruence. }
  destruct (parentType t) as [b|] eqn:Hb.
  - destruct Hparent as (p & Hp & ->).
    assert (HbU : ∀ a, a ∈ lineage b → a ∈ U).
    { intros a0 Ha0. apply HtU. by eapply elem_of_lineage_parent. }
    pose proof (IH b eq_refl HbU L this p this1 HLU Hinv Hp) as Hinv1.
    destruct (getClassMetrics_registry b this p this1 Hp) as (_ & _ & _ & cb & Hcb & Hidb).
    rewrite (lineage_eq t). unfold properAncestors. rewrite Hb.
    apply (registryOf_register (lineage b ++ L) this1 t (Some p) m a Hinv1).
    + intros t' [Ht'|Ht']%elem_of_app; [|by apply Hnew].
      intros Hid. assert (t' = t) as -> by (apply Hcons; auto).
      apply (not_elem_of_properAncestors t). unfold properAncestors. by rewrite Hb.
    + done.
    + rewrite Hb. split; [apply elem_of_app; left; apply elem_of_lineage_self|].
      by exists p, cb.
  - destruct Hparent as [-> ->].
    rewrite (lineage_eq t). unfold properAncestors. rewrite Hb.
    apply (registryOf_register L this t None m a Hinv Hnew Hbase).
    by rewrite Hb.
Qed.

Lemma forOf_resolve_registryOf ts :
  (∀ a, a ∈ flat_map lineage ts → a ∈ U) →
  ∀ L this this',
    (∀ x, x ∈ L → x ∈ U) →
    registryOf L this →
    forOf resolve ts this = Ok this' →
    registryOf (flat_map lineage ts ++ L) this'.
Proof.
  induction ts as [|t ts IH]; intros HU L this this' HLU Hinv H; simpl in H.
  { by injection H as <-. }
  apply bind_Ok in H as (this1 & H1 & H). unfold resolve in H1.
  apply bind_Ok in H1 as ([k this1'] & Hk & [= ->]).
  simpl in HU.
  assert (HtU : ∀ a, a ∈ lineage t → a ∈ U).
  { intros a Ha. apply HU, elem_of_app. by left. }
  assert (HtsU : ∀ a, a ∈ flat_map lineage ts → a ∈ U).
  { intros a Ha. apply HU, elem_of_app. by right. }
  pose proof (getClassMetrics_registryOf t HtU L this k this1 HLU Hinv Hk) as Hinv1.
  assert (HL1 : ∀ x, x ∈ lineage t ++ L → x ∈ U).
  { intros x [Hx|Hx]%elem_of_app; auto. }
  pose proof (IH HtsU (lineage t ++ L) this1 this' HL1 Hinv1 H) as Hinv'.
  eapply registryOf_ext; [|done].
  intros x. simpl. rewrite !elem_of_app. tauto.
Qed.

End faithful_provider.

(** The registry that a successful analysis returns holds the classes
    the analysis has met. *)
Lemma analyze_registryOf nodes r :
  consistent (resolvedTypes nodes) →
  Analyzer.analyze nodes = Ok r →
  registryOf (resolvedTypes nodes) (classes r).
Proof.
  intros Hcons (this & Hthis & ->)%analyze_Ok. simpl.
  rewrite forOf_analyzeClass in Hthis.
  eapply registryOf_ext;
    [|eapply (forOf_resolve_registryOf _ Hcons _ (λ a H, H) []);
      [by intros x Hx%elem_of_nil|apply registryOf_nil|done]].
  intros x. unfold resolvedTypes. rewrite elem_of_app, elem_of_nil. tauto.
Qed.

(** ** Depth, children and order of the resolved classes *)

Local Ltac solve_consistent :=
  let t1 := fresh "t1" in
  let t2 := fresh "t2" in
  let H1 := fresh "H1" in
  let H2 := fresh "H2" in
  let Heq := fresh "Heq" in
  intros t1 t2 H1 H2 Heq;
  unfold resolvedTypes in H1, H2; simpl in H1, H2;
  repeat (apply elem_of_cons in H1 as [->|H1]);
  try (by apply elem_of_nil in H1);
  repeat (apply elem_of_cons in H2 as [->|H2]);
  try (by apply elem_of_nil in H2);
  first [reflexivity | (vm_compute in Heq; discriminate Heq)].

Lemma consistent_fileEBA : consistent (resolvedTypes [Sample.fileEBA]).
Proof. solve_consistent. Qed.

(** Where one identity stands for one class: after a successful analysis
    every class that was met has one registered object; its depth is 0
    if the class has no parent, and one more than the depth of the
    object of its parent otherwise; and every registered object is the
    object of such a class. *)
Lemma depth_under_unique_identities (nodes : list Node) (r : AnalysisResult) :
  consistent (resolvedTypes nodes) →
  Analyzer.analyze nodes = Ok r →
  (∀ t, t ∈ resolvedTypes nodes →
     ∃ c, registeredAs (classes r) t c
       ∧ (∀ c', registeredAs (classes r) t c' → c' = c)
       ∧ match parentType t with
         | None => baseCount t = 0 ∧ depthOfInheritance c = 0
         | Some b =>
             ∃ pc, registeredAs (classes r) b pc
               ∧ depthOfInheritance c = 1 + depthOfInheritance pc
         end)
  ∧ (∀ c, c ∈ classes r → ∃ t, t ∈ resolvedTypes nodes ∧ registeredAs (classes r) t c).
Proof.
  intros Hcons Hr. pose proof (analyze_registryOf nodes r Hcons Hr) as Hinv.
  pose proof Hinv as (_ & Himg & _ & Hbc & Hreg & _). split.
  - intros t Ht. destruct (Hreg t Ht) as (k & c & Hk & Hid & Hpar).
    assert (Hc : c ∈ classes r) by by eapply list_elem_of_lookup_2.
    exists c. split; [done|]. split.
    + intros c' [Hc' Hid']. apply (registryOf_unique _ _ c' c Hinv); congruence.
    + destruct (parentType t) as [b|] eqn:Hb.
      * destruct Hpar as (p & pc & _ & Hp & Hidp & Hdepth & _).
        exists pc. split; [|done]. split; [by eapply list_elem_of_lookup_2|done].
      * split; [|by destruct Hpar]. by apply parentType_None_baseCount, Hbc.
  - intros c Hc. destruct (Himg c Hc) as (t & Ht & Hid). by exists t.
Qed.

(** Where one identity stands for one class: after a successful analysis
    the [numberOfChildren] of a registered object is the number of
    distinct classes, among those that were met, whose parent is its
    class; a class met several times, by the traversal or as an ancestor,
    counts once. *)
Lemma children_under_unique_identities (nodes : list Node) (r : AnalysisResult) :
  consistent (resolvedTypes nodes) →
  Analyzer.analyze nodes = Ok r →
  (∀ c, c ∈ classes r →
     numberOfChildren c = childrenIn (resolvedTypes nodes) (classIdentity c))
  ∧ (∀ t, t ∈ resolvedTypes nodes →
       ∃ c, registeredAs (classes r) t c
         ∧ numberOfChildren c = childrenIn (resolvedTypes nodes) (typeIdentity t)).
Proof.
  intros Hcons Hr. pose proof (analyze_registryOf nodes r Hcons Hr) as Hinv.
  pose proof Hinv as (_ & _ & _ & _ & _ & Hnoc). split; [done|].
  intros t Ht. destruct (registryOf_find _ _ t Hinv Ht) as (c & Hc & Hid).
  exists c. split; [done|]. by rewrite (Hnoc c Hc), Hid.
Qed.

(** Where one identity stands for one class: in the emitted array of
    classes, a class with a parent stands at a later index than its
    parent. *)
Lemma order_under_unique_identities (nodes : list Node) (out : Formatted.t) :
  consistent (resolvedTypes nodes) →
  analyzeProgram nodes = Ok out →
  ∃ r, Analyzer.analyze nodes = Ok r
    ∧ Formatted.classes out = clearedClassOf <$> classes r
    ∧ ∀ t b, t ∈ resolvedTypes nodes → parentType t = Some b →
        ∃ p k pc c,
          p < k
          ∧ classes r !! p = Some pc ∧ classIdentity pc = typeIdentity b
          ∧ classes r !! k = Some c ∧ classIdentity c = typeIdentity t
          ∧ Formatted.classes out !! p = Some (clearedClassOf pc)
          ∧ Formatted.classes out !! k = Some (clearedClassOf c)
          ∧ (∀ j x, classes r !! j = Some x →
                    (classIdentity x = typeIdentity b → j = p)
                    ∧ (classIdentity x = typeIdentity t → j = k)).
Proof.
  intros Hcons Hout. unfold analyzeProgram in Hout.
  apply bind_Ok in Hout as (r & Hr & [= <-]).
  exists r. split; [done|]. split; [done|].
  pose proof (analyze_registryOf nodes r Hcons Hr) as Hinv.
  pose proof Hinv as (_ & _ & _ & _ & Hreg & _).
  intros t b Ht Hb. destruct (Hreg t Ht) as (k & c & Hk & Hid & Hpar).
  rewrite Hb in Hpar. destruct Hpar as (p & pc & Hlt & Hp & Hidp & _).
  exists p, k, pc, c. split_and!; try done.
  - simpl. by rewrite list_lookup_fmap, Hp.
  - simpl. by rewrite list_lookup_fmap, Hk.
  - intros j x Hj. split; intros Hx.
    + apply (registryOf_position _ _ j p x pc Hinv Hj Hp). congruence.
    + apply (registryOf_position _ _ j k x c Hinv Hj Hk). congruence.
Qed.

(** ** Fatal errors *)

Lemma bind_Throw {A B} (m : Result A) (f : A → Result B) (e : Exception) :
  m ≫= f = Throw e ↔ m = Throw e ∨ ∃ a, m = Ok a ∧ f a = Throw e.
Proof.
  destruct m as [a|e']; simpl; split.
  - intros H. right. exists a. split; [done|exact H].
  - intros [?|(a' & [= <-] & H)]; [done|exact H].
  - intros [= ->]. by left.
  - intros [[= ->]|(a' & ? & ?)]; done.
Qed.

Lemma analyze_new_Throw k parentClass classType e :
  PropertyMetrics.analyze parentClass classType (PropertyMetrics.new k) = Throw e →
  e = TypeError ∧ symbolDeclarations classType = None.
Proof.
  rewrite analyze_new. simpl.
  destruct (symbolDeclarations classType); [done|].
  destruct (existsb _ _); [|done]. by intros [= <-].
Qed.

(** What is thrown comes from a class of the lineage: the [TypeError] of a
    symbol without declarations array, or the error of a class with
    several base types. *)
Lemma getClassMetrics_Throw t :
  ∀ this e,
    Analyzer.getClassMetrics t this = Throw e →
    ∃ a, a ∈ lineage t
      ∧ ((e = TypeError ∧ symbolDeclarations a = None)
         ∨ (e = UnexpectedBaseClassesNumber (baseCount a) ∧ 2 ≤ baseCount a)).
Proof.
  induction t as [t IH] using tsType_parent_ind. intros this e.
  destruct (symbol t) as [sym|] eqn:Hsym.
  2:{ rewrite getClassMetrics_no_symbol by done. intros [= <-].
      exists t. split; [apply elem_of_lineage_self|]. left. split; [done|].
      unfold symbolDeclarations. by rewrite Hsym. }
  rewrite getClassMetrics_eq by (by rewrite Hsym).
  destruct (list_find _ this) as [[i c]|]; [done|].
  intros [Hparent|([parent this1] & Hparent & H)]%bind_Throw.
  - rewrite getParentClassMetrics_eq in Hparent.
    destruct (parentType t) as [b|] eqn:Hb.
    + apply bind_Throw in Hparent as [Hp|([p this1] & _ & ?)]; [|done].
      destruct (IH b eq_refl this e Hp) as (a & Ha & He).
      exists a. split; [by eapply elem_of_lineage_parent|done].
    + destruct (decide (baseCount t = 0)); [done|]. injection Hparent as <-.
      exists t. split; [apply elem_of_lineage_self|]. right. split; [done|].
      assert (baseCount t ≠ 1); [|lia].
      unfold parentType, baseCount in *.
      by destruct (getBaseTypes t) as [[|b' [|b'' bts]]|].
  - exists t. split; [apply elem_of_lineage_self|]. left.
    apply bind_Throw in H as [Hm|(m & _ & H)].
    + by apply analyze_new_Throw in Hm.
    + apply bind_Throw in H as [Ha|(a & _ & ?)]; [|done].
      by apply analyze_new_Throw in Ha.
Qed.

Lemma forOf_resolve_Throw ts :
  ∀ this e,
    forOf resolve ts this = Throw e →
    ∃ a, a ∈ flat_map lineage ts
      ∧ ((e = TypeError ∧ symbolDeclarations a = None)
         ∨ (e = UnexpectedBaseClassesNumber (baseCount a) ∧ 2 ≤ baseCount a)).
Proof.
  induction ts as [|t ts IH]; intros this e H; simpl in H; [done|].
  apply bind_Throw in H as [H|(this1 & _ & H)].
  - unfold resolve in H. apply bind_Throw in H as [H|([k this1] & _ & ?)]; [|done].
    destruct (getClassMetrics_Throw t this e H) as (a & Ha & He).
    exists a. split; [|done]. simpl. apply elem_of_app. by left.
  - destruct (IH this1 e H) as (a & Ha & He).
    exists a. split; [|done]. simpl. apply elem_of_app. by right.
Qed.

Lemma analyze_Throw nodes e :
  Analyzer.analyze nodes = Throw e ↔ forOf Analyzer.analyzeClass nodes [] = Throw e.
Proof.
  unfold Analyzer.analyze. rewrite bind_Throw. split; [|by left].
  intros [H|(this & _ & H)]; [done|].
  by destruct (fold_left _ _ _) as [[[[??]?]?]?].
Qed.

(** The analysis returns a result when no class that it meets has
    several base types or a symbol without declarations array. *)
Lemma analyze_returns (nodes : list Node) :
  (∀ t, t ∈ resolvedTypes nodes →
        baseCount t ≤ 1 ∧ symbolDeclarations t ≠ None) →
  ∃ r, Analyzer.analyze nodes = Ok r.
Proof.
  intros Hwf. destruct (Analyzer.analyze nodes) as [r|e] eqn:Hr; [by exists r|].
  apply analyze_Throw in Hr. rewrite forOf_analyzeClass in Hr.
  destruct (forOf_resolve_Throw _ _ _ Hr) as (a & Ha & [[_ Hnone]|[_ Hge]]);
    destruct (Hwf a Ha) as [Hle Hdecl]; [done|lia].
Qed.

(** Where one identity stands for one class: when a class that the
    analysis meets has two or more base types, the analysis throws and
    returns no result, wherever the class stands in the traversal; what
    is thrown is the error of several base types, unless the
    [TypeError] of a class without symbol, or with a symbol without
    declarations array, comes first. *)
Lemma multiple_inheritance_under_unique_identities (nodes : list Node) (t : tsType) :
  consistent (resolvedTypes nodes) →
  t ∈ resolvedTypes nodes →
  2 ≤ baseCount t →
  ∃ e, analyzeProgram nodes = Throw e
    ∧ Analyzer.analyze nodes = Throw e
    ∧ ((∀ a, a ∈ resolvedTypes nodes → symbolDeclarations a ≠ None) →
       ∃ a, a ∈ resolvedTypes nodes ∧ 2 ≤ baseCount a
            ∧ e = UnexpectedBaseClassesNumber (baseCount a)).
Proof.
  intros Hcons Ht Hbase.
  destruct (Analyzer.analyze nodes) as [r|e] eqn:Hr.
  { destruct (analyze_registryOf nodes r Hcons Hr) as (_ & _ & _ & Hbc & _).
    specialize (Hbc t Ht). lia. }
  exists e. split; [unfold analyzeProgram; by rewrite Hr|]. split; [done|].
  intros Hdecl. apply analyze_Throw in Hr. rewrite forOf_analyzeClass in Hr.
  destruct (forOf_resolve_Throw _ _ _ Hr) as (a & Ha & [[_ Hnone]|[-> Hge]]).
  - by destruct (Hdecl a Ha).
  - by exists a.
Qed.

(** ** The scenarios of the specification *)

(** A single root class with two public methods. *)
Example scenario_single_root :
  Analyzer.analyze [Sample.leaf Sample.typeS]
  = Ok {| classes :=
            [ {| className := "S"; classPath := "shapes.ts:1:1"; parentClass := "";
                 depthOfInheritance := 0; numberOfChildren := 0;
                 methods := {| propType := methodsT; privateCount := 0;
                               inherited := []; overridden := [];
                               own := [Sample.S_f; Sample.S_g] |};
                 attributes := PropertyMetrics.new attributesT |} ];
          mif := Finite (2 # 2); aif := NaN; mhf := Finite (0 # 2); ahf := NaN;
          pof := NaN |}.
Proof. reflexivity. Qed.

(** A root with a private method, and a subclass that redeclares it and
    adds a private method of its own. *)
Example scenario_override :
  Analyzer.analyze [Sample.fileBA] = Ok resultBA
  ∧ PropertyMetrics.length (methods (classes resultBA !!! 1)) = 4.
Proof. split; reflexivity. Qed.

(** A class with two base types, met after other classes. *)
Example scenario_two_bases :
  analyzeProgram [Sample.fileBA; Sample.leaf Sample.typeD]
  = Throw (UnexpectedBaseClassesNumber 2).
Proof. reflexivity. Qed.

(** A program without classes. *)
Example scenario_no_class :
  analyzeProgram []
  = Ok {| Formatted.classes := [];
          Formatted.mif := NaN; Formatted.aif := NaN; Formatted.mhf := NaN;
          Formatted.ahf := NaN; Formatted.pof := NaN;
          Formatted.maxNumberOfChildren := 0;
          Formatted.maxDepthOfInheritance := 0 |}.
Proof. reflexivity. Qed.

(** A class met by the traversal and as the ancestor of another class. *)
Example scenario_met_twice :
  ∃ out, analyzeProgram [Sample.fileEBA] = Ok out
    ∧ Formatted.classes out
      = [ [("className", JsString "A"); ("numberOfChildren", JsNumber 1);
           ("depthOfInheritance", JsNumber 0)];
          [("className", JsString "B"); ("numberOfChildren", JsNumber 1);
           ("depthOfInheritance", JsNumber 1); ("parentClass", JsString "A")];
          [("className", JsString "E"); ("numberOfChildren", JsNumber 0);
           ("depthOfInheritance", JsNumber 2); ("parentClass", JsString "B")] ].
Proof. eexists. split; reflexivity. Qed.

(** * Further properties of the code *)

(** ** The classification of a class taken alone *)

Lemma filter_unmatched_all cd (q : list Declaration) :
  filter (λ d, ¬ nameInherited [] d) q = q
  ∧ filter (λ d, nameInherited [] d ∧ ¬ PropertyMetrics.parentIs d cd) q = []
  ∧ filter (λ d, nameInherited [] d ∧ PropertyMetrics.parentIs d cd) q = [].
Proof.
  induction q as [|d q (IH1 & IH2 & IH3)]; [by rewrite !filter_nil|].
  rewrite filter_cons_True by (intros H; exact H).
  rewrite !filter_cons_False by (by intros [? _]).
  by rewrite IH1.
Qed.

(** X1: for a class without parent, or whose parent has no property of
    the kind, the classification returns, also when
    [classType.symbol.declarations] is undefined: every qualifying
    property is own, in the order
    of [getProperties], and nothing is inherited or overridden. *)
Theorem root_class_owns_everything
    (k : PropType) (parentClass : option ClassMetrics) (classType : tsType) :
  (∀ pc, parentClass = Some pc → PropertyMetrics.allProps (bucketOf k pc) = []) →
  PropertyMetrics.analyze parentClass classType (PropertyMetrics.new k)
  = Ok {| propType := k;
          privateCount :=
            length (filter (λ d, PropertyMetrics.isPrivate d) (qualifying k classType));
          inherited := []; overridden := [];
          own := qualifying k classType |}.
Proof.
  intros Hparent.
  assert (Hpp : PropertyMetrics.parentPropsOf k parentClass = []).
  { destruct parentClass as [pc|]; [|done].
    specialize (Hparent pc eq_refl). by destruct k. }
  rewrite analyze_new. cbv zeta. rewrite Hpp.
  assert (Hex : existsb (nameInherited []) (qualifying k classType) = false).
  { by induction (qualifying k classType). }
  rewrite Hex.
  destruct (filter_unmatched_all (classDeclaration classType)
              (qualifying k classType)) as (H1 & H2 & H3).
  unfold classified. rewrite H1, H2, H3.
  by destruct (symbolDeclarations classType).
Qed.

Lemma root_class_owns_everything_witness :
  (∀ pc, @None ClassMetrics = Some pc →
         PropertyMetrics.allProps (bucketOf methodsT pc) = [])
  ∧ PropertyMetrics.analyze None Sample.typeN (PropertyMetrics.new methodsT)
    = Ok {| propType := methodsT; privateCount := 0; inherited := [];
            overridden := []; own := [Sample.N_f] |}.
Proof.
  assert (H : ∀ pc, @None ClassMetrics = Some pc →
                    PropertyMetrics.allProps (bucketOf methodsT pc) = []).
  { intros pc Hpc. discriminate Hpc. }
  split; [exact H|].
  exact (root_class_owns_everything methodsT None Sample.typeN H).
Defined.

(** X2: the classification of a class throws exactly when
    [classType.symbol.declarations] is undefined (the symbol has no
    declarations array, or the type no symbol) and the name of a
    qualifying property occurs in the parent's union; what it throws is
    the [TypeError]. *)
Theorem classification_throws_exactly
    (k : PropType) (parentClass : option ClassMetrics) (classType : tsType)
    (e : Exception) :
  PropertyMetrics.analyze parentClass classType (PropertyMetrics.new k) = Throw e
  ↔ e = TypeError
    ∧ symbolDeclarations classType = None
    ∧ ∃ d, d ∈ qualifying k classType ∧ inParentUnion k parentClass (nameText d).
Proof.
  rewrite analyze_new. simpl.
  destruct (symbolDeclarations classType) as [ds|].
  { split; [done|]. by intros (_ & ? & _). }
  destruct (existsb _ _) eqn:Hex.
  - apply existsb_exists in Hex as (d & Hin & Hd).
    apply list_elem_of_In in Hin. apply nameInherited_spec in Hd.
    split; [intros [= <-]|intros (-> & _)]; [|done].
    split; [done|]. split; [done|]. by exists d.
  - split; [done|]. intros (_ & _ & d & Hin & Hd).
    apply nameInherited_spec in Hd. apply list_elem_of_In in Hin.
    assert (existsb (nameInherited (PropertyMetrics.parentPropsOf k parentClass))
              (qualifying k classType) = true) by (apply existsb_exists; eauto).
    congruence.
Qed.

(** X3: each of the three lists of a classified bucket keeps the order in
    which [getProperties] gives the properties. *)
Theorem classification_keeps_order
    (k : PropType) (parentClass : option ClassMetrics) (classType : tsType)
    (b : PropertyMetrics) :
  PropertyMetrics.analyze parentClass classType (PropertyMetrics.new k) = Ok b →
  own b `sublist_of` qualifying k classType
  ∧ inherited b `sublist_of` qualifying k classType
  ∧ overridden b `sublist_of` qualifying k classType
  ∧ qualifying k classType `sublist_of` omap firstDeclaration (getProperties classType).
Proof.
  intros ->%analyze_new_Ok. simpl. split_and!; apply sublist_filter.
Qed.

Lemma classification_keeps_order_witness :
  PropertyMetrics.analyze (Some Sample.metricsA) Sample.typeB
    (PropertyMetrics.new methodsT)
  = Ok {| propType := methodsT; privateCount := 2; inherited := [];
          overridden := [Sample.B_m]; own := [Sample.B_n] |}
  ∧ [Sample.B_n] `sublist_of` qualifying methodsT Sample.typeB.
Proof.
  assert (H : PropertyMetrics.analyze (Some Sample.metricsA) Sample.typeB
                (PropertyMetrics.new methodsT)
              = Ok {| propType := methodsT; privateCount := 2; inherited := [];
                      overridden := [Sample.B_m]; own := [Sample.B_n] |}).
  { reflexivity. }
  split; [exact H|].
  exact (proj1 (classification_keeps_order _ _ _ _ H)).
Defined.

Lemma classified_elem_of pp cd q k d :
  d ∈ PropertyMetrics.allProps (classified pp cd q (PropertyMetrics.new k)) → d ∈ q.
Proof.
  unfold PropertyMetrics.allProps. simpl.
  rewrite !elem_of_app, !list_elem_of_filter. tauto.
Qed.

Lemma isOfType_exclusive d :
  PropertyMetrics.isOfType methodsT d = true →
  PropertyMetrics.isOfType attributesT d = true → False.
Proof.
  unfold PropertyMetrics.isOfType, PropertyMetrics.IS_ATTR_DECL. simpl.
  intros Hm%bool_decide_eq_true. rewrite Hm. done.
Qed.

(** X4: a declaration is never counted both as a method and as an
    attribute: what the classification for methods has placed, of any
    class, the classification for attributes places for no class. *)
Theorem methods_and_attributes_are_disjoint
    (parentM parentA : option ClassMetrics) (classM classA : tsType)
    (bm ba : PropertyMetrics) (d : Declaration) :
  PropertyMetrics.analyze parentM classM (PropertyMetrics.new methodsT) = Ok bm →
  PropertyMetrics.analyze parentA classA (PropertyMetrics.new attributesT) = Ok ba →
  d ∈ PropertyMetrics.allProps bm →
  d ∉ PropertyMetrics.allProps ba.
Proof.
  intros ->%analyze_new_Ok ->%analyze_new_Ok Hm%classified_elem_of Ha%classified_elem_of.
  unfold qualifying in Hm, Ha.
  apply list_elem_of_filter in Hm as [Hm _]. apply list_elem_of_filter in Ha as [Ha _].
  apply (isOfType_exclusive d); by apply Is_true_true.
Qed.

Lemma methods_and_attributes_are_disjoint_witness :
  PropertyMetrics.analyze (Some Sample.metricsA) Sample.typeB
    (PropertyMetrics.new methodsT)
  = Ok {| propType := methodsT; privateCount := 2; inherited := [];
          overridden := [Sample.B_m]; own := [Sample.B_n] |}
  ∧ PropertyMetrics.analyze (Some Sample.metricsA) Sample.typeB
      (PropertyMetrics.new attributesT)
    = Ok (PropertyMetrics.new attributesT)
  ∧ Sample.B_m ∉ PropertyMetrics.allProps (PropertyMetrics.new attributesT).
Proof.
  assert (Hm : PropertyMetrics.analyze (Some Sample.metricsA) Sample.typeB
                 (PropertyMetrics.new methodsT)
               = Ok {| propType := methodsT; privateCount := 2; inherited := [];
                       overridden := [Sample.B_m]; own := [Sample.B_n] |}).
  { reflexivity. }
  assert (Ha : PropertyMetrics.analyze (Some Sample.metricsA) Sample.typeB
                 (PropertyMetrics.new attributesT)
               = Ok (PropertyMetrics.new attributesT)).
  { reflexivity. }
  split; [exact Hm|]. split; [exact Ha|].
  apply (methods_and_attributes_are_disjoint _ _ _ _ _ _ Sample.B_m Hm Ha).
  apply list_elem_of_here.
Defined.

(** A bucket whose [privateCount] does not exceed the number of its
    properties. *)
Lemma classified_privateCount_le pp cd q k :
  let b := classified pp cd q (PropertyMetrics.new k) in
  privateCount b ≤ length (PropertyMetrics.allProps b).
Proof.
  intros b.
  pose proof (classified_permutation pp cd q k) as Hperm.
  apply Permutation_length in Hperm. fold b in Hperm.
  unfold PropertyMetrics.allProps. rewrite Hperm. simpl.
  apply length_filter.
Qed.

(** X5: in a classified bucket [privateCount] is at most the number of
    classified properties, so that [length()] is at most twice that
    number, and equal to twice it exactly when every qualifying property
    is private. *)
Theorem length_at_most_doubles
    (k : PropType) (parentClass : option ClassMetrics) (classType : tsType)
    (b : PropertyMetrics) :
  PropertyMetrics.analyze parentClass classType (PropertyMetrics.new k) = Ok b →
  privateCount b ≤ length (PropertyMetrics.allProps b)
  ∧ length (PropertyMetrics.allProps b) ≤ PropertyMetrics.length b
  ∧ PropertyMetrics.length b ≤ 2 * length (PropertyMetrics.allProps b)
  ∧ (PropertyMetrics.length b = 2 * length (PropertyMetrics.allProps b)
     ↔ ∀ d, d ∈ qualifying k classType → PropertyMetrics.isPrivate d = true).
Proof.
  intros Hb. pose proof Hb as ->%analyze_new_Ok.
  set (pp := PropertyMetrics.parentPropsOf k parentClass).
  set (cd := classDeclaration classType).
  set (q := qualifying k classType).
  pose proof (classified_privateCount_le pp cd q k) as Hle. simpl in Hle.
  pose proof (classified_permutation pp cd q k) as Hperm.
  apply Permutation_length in Hperm. simpl in Hperm.
  unfold PropertyMetrics.length, PropertyMetrics.allProps in *. simpl in *.
  split; [done|]. split; [lia|]. split; [lia|].
  rewrite Hperm. split.
  - intros Hlen d Hd. destruct (PropertyMetrics.isPrivate d) eqn:Hp; [done|].
    assert (length (filter (λ d, PropertyMetrics.isPrivate d) q) < length q); [|lia].
    apply (length_filter_lt _ _ d Hd). intros Hd'%Is_true_true. congruence.
  - intros Hall. assert (filter (λ d, PropertyMetrics.isPrivate d) q = q) as ->; [|lia].
    clear -Hall. induction q as [|d q IH]; [done|].
    rewrite filter_cons_True.
    + f_equal. apply IH. intros d' Hd'. apply Hall. by apply list_elem_of_further.
    + apply Is_true_true, Hall, list_elem_of_here.
Qed.

Lemma length_at_most_doubles_witness :
  PropertyMetrics.analyze (Some Sample.metricsA) Sample.typeB
    (PropertyMetrics.new methodsT)
  = Ok {| propType := methodsT; privateCount := 2; inherited := [];
          overridden := [Sample.B_m]; own := [Sample.B_n] |}
  ∧ PropertyMetrics.length
      {| propType := methodsT; privateCount := 2; inherited := [];
         overridden := [Sample.B_m]; own := [Sample.B_n] |} ≤ 2 * 2.
Proof.
  assert (H : PropertyMetrics.analyze (Some Sample.metricsA) Sample.typeB
                (PropertyMetrics.new methodsT)
              = Ok {| propType := methodsT; privateCount := 2; inherited := [];
                      overridden := [Sample.B_m]; own := [Sample.B_n] |}).
  { reflexivity. }
  split; [exact H|].
  exact (proj1 (proj2 (proj2 (length_at_most_doubles _ _ _ _ H)))).
Defined.

(** ** Invariants of the registry *)

(** A property of the registry holds after a successful resolution when
    it holds before and the two ways of registering an object, as a root
    or below a registered parent, keep it. *)
Lemma getClassMetrics_invariant (P : list ClassMetrics → Prop) :
  (∀ reg t m a,
     P reg →
     PropertyMetrics.analyze None t (PropertyMetrics.new methodsT) = Ok m →
     PropertyMetrics.analyze None t (PropertyMetrics.new attributesT) = Ok a →
     P (reg ++ [freshClass t None m a])) →
  (∀ reg t p pc m a,
     P reg → reg !! p = Some pc →
     PropertyMetrics.analyze (Some (Analyzer.incrNumberOfChildren pc)) t
       (PropertyMetrics.new methodsT) = Ok m →
     PropertyMetrics.analyze (Some (Analyzer.incrNumberOfChildren pc)) t
       (PropertyMetrics.new attributesT) = Ok a →
     P (alter Analyzer.incrNumberOfChildren p reg
        ++ [freshClass t (Some (Analyzer.incrNumberOfChildren pc)) m a])) →
  ∀ t this k this',
    P this → Analyzer.getClassMetrics t this = Ok (k, this') → P this'.
Proof.
  intros Hroot Hchild.
  induction t as [t IH] using tsType_parent_ind. intros this k this' HP H.
  apply getClassMetrics_Ok_inv in H
    as [(c & Hfind & ->)|(Hfind & _ & parent & this1 & m & a & Hparent & H)]; [done|].
  simpl in H. destruct H as (Hm & Ha & -> & ->).
  destruct (parentType t) as [b|] eqn:Hb.
  - destruct Hparent as (p & Hp & ->). simpl in *.
    pose proof (IH b eq_refl this p this1 HP Hp) as HP1.
    destruct (getClassMetrics_registry b this p this1 Hp) as (_ & _ & _ & cb & Hcb & _).
    assert (Hp2 : alter Analyzer.incrNumberOfChildren p this1 !! p
                  = Some (Analyzer.incrNumberOfChildren cb)).
    { by rewrite list_lookup_alter_eq, Hcb. }
    rewrite (list_lookup_total_correct _ _ _ Hp2) in *.
    by apply Hchild.
  - destruct Hparent as [-> ->]. simpl in *. by apply Hroot.
Qed.

Lemma forOf_resolve_invariant (P : list ClassMetrics → Prop) :
  (∀ t this k this', P this → Analyzer.getClassMetrics t this = Ok (k, this') → P this') →
  ∀ ts this this', P this → forOf resolve ts this = Ok this' → P this'.
Proof.
  intros Hstep. induction ts as [|t ts IH]; intros this this' HP H; simpl in H.
  - by injection H as <-.
  - apply bind_Ok in H as (this1 & H1 & H). unfold resolve in H1.
    apply bind_Ok in H1 as ([k this1'] & Hk & [= ->]).
    eapply IH; [|done]. by eapply Hstep.
Qed.

(** The registry that the analysis returns has every property that the
    empty registry has and that registering keeps. *)
Lemma analyze_invariant (P : list ClassMetrics → Prop) nodes r :
  P [] →
  (∀ t this k this', P this → Analyzer.getClassMetrics t this = Ok (k, this') → P this') →
  Analyzer.analyze nodes = Ok r → P (classes r).
Proof.
  intros Hnil Hstep (this & Hthis & ->)%analyze_Ok. simpl.
  rewrite forOf_analyzeClass in Hthis.
  by eapply (forOf_resolve_invariant P Hstep).
Qed.

Lemma elem_of_alter_incr (reg : list ClassMetrics) p c' :
  c' ∈ alter Analyzer.incrNumberOfChildren p reg →
  ∃ c, c ∈ reg ∧ sameButChildren c c'.
Proof.
  intros (i & Hi)%list_elem_of_lookup.
  destruct (lookup_alter_incr_inv reg p i c' Hi) as (c & Hc & Hs).
  exists c. split; [by eapply list_elem_of_lookup_2|done].
Qed.

Lemma getClassMetrics_boundedPrivate t this k this' :
  boundedPrivate this → Analyzer.getClassMetrics t this = Ok (k, this') →
  boundedPrivate this'.
Proof.
  apply (getClassMetrics_invariant boundedPrivate).
  - intros reg t' m a HP ->%analyze_new_Ok ->%analyze_new_Ok c
      [Hc| ->%list_elem_of_singleton]%elem_of_app; [by apply HP|].
    split; apply classified_privateCount_le.
  - intros reg t' p pc m a HP Hp ->%analyze_new_Ok ->%analyze_new_Ok c
      [Hc| ->%list_elem_of_singleton]%elem_of_app.
    + apply elem_of_alter_incr in Hc as (c0 & Hc0 & (_&_&_&_&Hm&Ha&_)).
      rewrite Hm, Ha. by apply HP.
    + split; apply classified_privateCount_le.
Qed.

Lemma getClassMetrics_forestShaped t this k this' :
  forestShaped this → Analyzer.getClassMetrics t this = Ok (k, this') →
  forestShaped this'.
Proof.
  apply (getClassMetrics_invariant forestShaped).
  - intros reg t' m a HP _ _ i c [Hi|[Hge Hi]]%lookup_app_Some.
    + destruct (HP i c Hi) as [?|(p & pc & Hlt & Hp & ?)]; [by left|right].
      exists p, pc. split; [done|]. split; [by apply lookup_app_l_Some|done].
    + apply list_lookup_singleton_Some in Hi as [_ <-]. by left.
  - intros reg t' p pc m a HP Hp _ _ i c [Hi|[Hge Hi]]%lookup_app_Some.
    + destruct (lookup_alter_incr_inv reg p i c Hi)
        as (c0 & Hc0 & (Hn & _ & Hpn & Hd & _)).
      destruct (HP i c0 Hc0) as [[??]|(q & qc & Hlt & Hq & Hdq & Hnq & Hcq)].
      * left. by rewrite Hd, Hpn.
      * right. destruct (lookup_alter_incr_Some reg p q qc Hq)
          as (qc' & Hq' & (Hqn & _ & _ & Hqd & _ & _ & Hqc)).
        exists q, qc'. split; [done|]. split; [by apply lookup_app_l_Some|].
        rewrite Hd, Hpn, Hqd, Hqn. split; [done|]. split; [done|]. lia.
    + apply list_lookup_singleton_Some in Hi as [Hi <-]. right.
      rewrite length_alter in Hge, Hi.
      exists p, (Analyzer.incrNumberOfChildren pc).
      split; [apply lookup_lt_Some in Hp; lia|].
      split; [apply lookup_app_l_Some; by rewrite list_lookup_alter_eq, Hp|].
      simpl. split; [done|]. split; [done|]. lia.
Qed.

Lemma sum_numberOfChildren_alter (reg : list ClassMetrics) p pc :
  reg !! p = Some pc →
  sum_list_with numberOfChildren (alter Analyzer.incrNumberOfChildren p reg)
  = S (sum_list_with numberOfChildren reg).
Proof.
  revert p. induction reg as [|c reg IH]; intros [|p] Hp; simpl in *; try done.
  - injection Hp as ->. lia.
  - specialize (IH p Hp). unfold alter in IH. lia.
Qed.

Lemma filter_depth_alter (reg : list ClassMetrics) p :
  length (filter (λ c, 0 < depthOfInheritance c)
            (alter Analyzer.incrNumberOfChildren p reg))
  = length (filter (λ c, 0 < depthOfInheritance c) reg).
Proof.
  revert p. induction reg as [|c reg IH]; intros [|p]; try done.
  - change (alter Analyzer.incrNumberOfChildren 0 (c :: reg))
      with (Analyzer.incrNumberOfChildren c :: reg).
    rewrite !filter_cons. simpl. by destruct (decide _).
  - change (alter Analyzer.incrNumberOfChildren (S p) (c :: reg))
      with (c :: alter Analyzer.incrNumberOfChildren p reg).
    rewrite !filter_cons. destruct (decide _); simpl; by rewrite IH.
Qed.

Lemma getClassMetrics_childrenAccounted t this k this' :
  childrenAccounted this → Analyzer.getClassMetrics t this = Ok (k, this') →
  childrenAccounted this'.
Proof.
  apply (getClassMetrics_invariant childrenAccounted); unfold childrenAccounted.
  - intros reg t' m a HP _ _.
    rewrite sum_list_with_app, filter_app, length_app, HP.
    rewrite filter_cons_False by (simpl; lia). rewrite filter_nil. simpl. lia.
  - intros reg t' p pc m a HP Hp _ _.
    rewrite sum_list_with_app, filter_app, length_app.
    rewrite (sum_numberOfChildren_alter reg p pc Hp), filter_depth_alter, HP.
    rewrite filter_cons_True by (simpl; lia). rewrite filter_nil. simpl. lia.
Qed.

(** ** The range of the ratios *)

Lemma sum_list_with_mul_le {A} (n : nat) (f g : A → nat) l :
  (∀ x, x ∈ l → n * f x ≤ g x) → n * sum_list_with f l ≤ sum_list_with g l.
Proof.
  induction l as [|y l IH]; intros H; simpl; [lia|].
  pose proof (H y (list_elem_of_here _ _)).
  assert (n * sum_list_with f l ≤ sum_list_with g l).
  { apply IH. intros x Hx. apply H. by apply list_elem_of_further. }
  lia.
Qed.

(** [a / b] when [n * a ≤ b]: NaN, or a finite number in [0, 1/n]. *)
Lemma quotient_within (n : positive) (a b : nat) :
  Pos.to_nat n * a ≤ b → ratioWithin (1 # n) (quotient a b).
Proof.
  intros Hle. unfold quotient, MoodMetric.calculate. simpl.
  destruct b as [|b'].
  - assert (a = 0) as -> by lia. by left.
  - right. eexists. split; [done|]. unfold Qle. simpl. split; [lia|].
    rewrite Z.mul_comm. change (Z.pos n * Z.of_nat a ≤ Z.pos (Pos.of_succ_nat b'))%Z.
    rewrite Zpos_P_of_succ_nat, <- Nat2Z.inj_succ, <- positive_nat_Z, <- Nat2Z.inj_mul.
    by apply Nat2Z.inj_le.
Qed.

(** X6: the ratios of a result are never Infinity.  MIF and AIF are NaN
    or lie between 0 and 1; MHF and AHF are NaN or lie between 0 and 1/2,
    as [length()] counts a private property twice; POF is NaN or a
    finite number that is not negative. *)
Theorem ratios_are_bounded (nodes : list Node) (r : AnalysisResult) :
  Analyzer.analyze nodes = Ok r →
  ratioWithin 1 (mif r) ∧ ratioWithin 1 (aif r)
  ∧ ratioWithin (1 # 2) (mhf r) ∧ ratioWithin (1 # 2) (ahf r)
  ∧ ratioNonNegative (pof r).
Proof.
  intros Hr.
  assert (Hpriv : boundedPrivate (classes r)).
  { apply (analyze_invariant boundedPrivate nodes r); [|apply getClassMetrics_boundedPrivate|done].
    by intros c Hc%elem_of_nil. }
  assert (Hground : groundedOverrides (classes r)).
  { apply (analyze_invariant groundedOverrides nodes r);
      [|apply getClassMetrics_groundedOverrides|done].
    by intros c Hc%elem_of_nil. }
  apply analyze_Ok in Hr as (this & _ & ->). simpl in *. split_and!.
  - apply (quotient_within 1). apply sum_list_with_mul_le. intros c _.
    unfold PropertyMetrics.length, PropertyMetrics.allProps. rewrite !length_app. lia.
  - apply (quotient_within 1). apply sum_list_with_mul_le. intros c _.
    unfold PropertyMetrics.length, PropertyMetrics.allProps. rewrite !length_app. lia.
  - apply (quotient_within 2). apply sum_list_with_mul_le. intros c Hc.
    destruct (Hpriv c Hc) as [Hm _]. unfold PropertyMetrics.length.
    change (Pos.to_nat 2) with 2. lia.
  - apply (quotient_within 2). apply sum_list_with_mul_le. intros c Hc.
    destruct (Hpriv c Hc) as [_ Ha]. unfold PropertyMetrics.length.
    change (Pos.to_nat 2) with 2. lia.
  - unfold ratioNonNegative, quotient, MoodMetric.calculate. simpl.
    destruct (sum_list_with (λ c, length (own (methods c)) * numberOfChildren c) this)
      as [|d] eqn:Hden.
    + assert (Hnum : sum_list_with
                       (λ c, length (inherited (methods c)) + length (overridden (methods c)))
                       this = 0).
      { apply sum_list_with_eq_0. intros c Hc.
        destruct (inherited (methods c) ++ overridden (methods c)) as [|x l] eqn:Hl.
        - apply (f_equal length) in Hl. rewrite length_app in Hl. done.
        - destruct (Hground c Hc) as (g & Hg & Hown & Hnoc); [by rewrite Hl|].
          rewrite sum_list_with_eq_0 in Hden. specialize (Hden g Hg).
          destruct (own (methods g)); [done|]. simpl in Hden. lia. }
      rewrite Hnum. by left.
    + right. eexists. split; [done|]. unfold Qle. simpl. lia.
Qed.

Lemma ratios_are_bounded_witness :
  Analyzer.analyze [Sample.fileBA] = Ok resultBA
  ∧ ratioWithin (1 # 2) (mhf resultBA).
Proof.
  split; [reflexivity|].
  exact (proj1 (proj2 (proj2 (ratios_are_bounded [Sample.fileBA] resultBA eq_refl)))).
Defined.

(** ** The shape of the registry *)

(** X7: the classes of a result form a forest in the order of the list:
    a class is a root, of depth 0 and with an empty parent name, or a
    class that has children stands before it, whose name it holds as
    parent name and whose depth it exceeds by one. *)
Theorem result_is_a_forest (nodes : list Node) (r : AnalysisResult) :
  Analyzer.analyze nodes = Ok r →
  ∀ i c, classes r !! i = Some c →
    (depthOfInheritance c = 0 ∧ parentClass c = "")
    ∨ (∃ p pc, p < i ∧ classes r !! p = Some pc
         ∧ depthOfInheritance c = S (depthOfInheritance pc)
         ∧ parentClass c = className pc
         ∧ 0 < numberOfChildren pc).
Proof.
  intros Hr.
  apply (analyze_invariant forestShaped nodes r); [|apply getClassMetrics_forestShaped|done].
  by intros i c Hi.
Qed.

Lemma result_is_a_forest_witness :
  Analyzer.analyze [Sample.fileBA] = Ok resultBA
  ∧ ∃ p pc, p < 1 ∧ classes resultBA !! p = Some pc
      ∧ depthOfInheritance (classes resultBA !!! 1) = S (depthOfInheritance pc)
      ∧ parentClass (classes resultBA !!! 1) = className pc.
Proof.
  split; [reflexivity|].
  destruct (result_is_a_forest [Sample.fileBA] resultBA eq_refl 1
              (classes resultBA !!! 1) eq_refl)
    as [[H _]|(p & pc & Hlt & Hp & Hd & Hn & _)].
  - discriminate H.
  - by exists p, pc.
Defined.

(** X8: the [numberOfChildren] of the classes of a result add up to the
    number of classes that are not roots. *)
Theorem children_add_up_to_non_roots (nodes : list Node) (r : AnalysisResult) :
  Analyzer.analyze nodes = Ok r →
  sum_list_with numberOfChildren (classes r)
  = length (filter (λ c, 0 < depthOfInheritance c) (classes r)).
Proof.
  intros Hr.
  by apply (analyze_invariant childrenAccounted nodes r);
    [|apply getClassMetrics_childrenAccounted|].
Qed.

Lemma children_add_up_to_non_roots_witness :
  Analyzer.analyze [Sample.fileEBA] ≠ Throw TypeError
  ∧ ∃ r, Analyzer.analyze [Sample.fileEBA] = Ok r
    ∧ sum_list_with numberOfChildren (classes r) = 2.
Proof.
  split; [by vm_compute|].
  destruct (Analyzer.analyze [Sample.fileEBA]) as [r|e] eqn:Hr;
    [|vm_compute in Hr; discriminate Hr].
  exists r. split; [reflexivity|].
  rewrite (children_add_up_to_non_roots [Sample.fileEBA] r Hr).
  vm_compute in Hr. injection Hr as <-. reflexivity.
Defined.

Lemma forestShaped_depth_le reg :
  forestShaped reg → ∀ i c, reg !! i = Some c → depthOfInheritance c ≤ i.
Proof.
  intros Hf i. induction (lt_wf i) as [i _ IH]. intros c Hi.
  destruct (Hf i c Hi) as [[-> _]|(p & pc & Hlt & Hp & -> & _)]; [lia|].
  specialize (IH p Hlt pc Hp). lia.
Qed.

(** X9: in a result the depth of a class is at most its index, so the
    first class is a root, and a class has fewer children than there are
    classes; hence the two maxima that the formatter emits are smaller
    than the number of classes, when there is a class. *)
Theorem depth_and_children_below_count (nodes : list Node) (r : AnalysisResult) :
  Analyzer.analyze nodes = Ok r →
  (∀ i c, classes r !! i = Some c →
          depthOfInheritance c ≤ i ∧ numberOfChildren c < length (classes r))
  ∧ (classes r ≠ [] →
     Formatted.maxDepthOfInheritance (formatMetrics r) < length (classes r)
     ∧ Formatted.maxNumberOfChildren (formatMetrics r) < length (classes r)).
Proof.
  intros Hr.
  assert (Hforest : forestShaped (classes r)).
  { apply (analyze_invariant forestShaped nodes r);
      [by intros i c Hi|apply getClassMetrics_forestShaped|done]. }
  assert (Hsum : childrenAccounted (classes r)).
  { by apply (analyze_invariant childrenAccounted nodes r);
      [|apply getClassMetrics_childrenAccounted|]. }
  assert (Hall : ∀ i c, classes r !! i = Some c →
            depthOfInheritance c ≤ i ∧ numberOfChildren c < length (classes r)).
  { intros i c Hi. split; [by eapply forestShaped_depth_le|].
    assert (Hc : c ∈ classes r) by by eapply list_elem_of_lookup_2.
    pose proof (sum_list_with_in c numberOfChildren (classes r) Hc) as Hle.
    unfold childrenAccounted in Hsum. rewrite Hsum in Hle.
    destruct (classes r) as [|c0 reg] eqn:Hreg; [done|].
    pose proof (forestShaped_depth_le _ Hforest 0 c0 eq_refl) as H0.
    rewrite filter_cons_False in Hle by lia.
    pose proof (length_filter (λ c, 0 < depthOfInheritance c) reg). simpl. lia. }
  split; [exact Hall|]. intros Hne. simpl. split.
  - destruct (reduceMax_isMaxOf depthOfInheritance (classes r)) as (_ & _ & Hex).
    destruct (Hex Hne) as (c & (i & Hi)%list_elem_of_lookup & <-).
    destruct (Hall i c Hi) as [Hd _]. apply lookup_lt_Some in Hi. lia.
  - destruct (reduceMax_isMaxOf numberOfChildren (classes r)) as (_ & _ & Hex).
    destruct (Hex Hne) as (c & (i & Hi)%list_elem_of_lookup & <-).
    by destruct (Hall i c Hi) as [_ Hn].
Qed.

Lemma depth_and_children_below_count_witness :
  Analyzer.analyze [Sample.fileBA] = Ok resultBA
  ∧ Formatted.maxDepthOfInheritance (formatMetrics resultBA) < 2.
Proof.
  split; [reflexivity|].
  destruct (depth_and_children_below_count [Sample.fileBA] resultBA eq_refl) as [_ H].
  destruct H as [Hd _]; [discriminate|]. exact Hd.
Defined.

(** ** What the traversal registers *)

Lemma getClassMetrics_length t :
  ∀ this k this',
    Analyzer.getClassMetrics t this = Ok (k, this') →
    length this' ≤ length this + length (lineage t).
Proof.
  induction t as [t IH] using tsType_parent_ind. intros this k this' H.
  apply getClassMetrics_Ok_inv in H
    as [(c & Hfind & ->)|(Hfind & _ & parent & this1 & m & a & Hparent & H)]; [lia|].
  simpl in H. destruct H as (_ & _ & _ & ->).
  rewrite lineage_eq. unfold properAncestors.
  destruct (parentType t) as [b|] eqn:Hb.
  - destruct Hparent as (p & Hp & ->).
    pose proof (IH b eq_refl this p this1 Hp).
    rewrite length_app, length_alter. simpl. lia.
  - destruct Hparent as [-> ->]. rewrite length_app. simpl. lia.
Qed.

Lemma forOf_resolve_coverage ts :
  ∀ this this',
    forOf resolve ts this = Ok this' →
    (∀ t, t ∈ ts → ∃ c, c ∈ this' ∧ classIdentity c = typeIdentity t)
    ∧ (∀ i c', this' !! i = Some c' → length this ≤ i →
               ∃ a, a ∈ flat_map lineage ts ∧ classIdentity c' = typeIdentity a)
    ∧ length this' ≤ length this + length (flat_map lineage ts).
Proof.
  induction ts as [|t ts IH]; intros this this' H; simpl in H.
  { injection H as <-. split_and!.
    - by intros t Ht%elem_of_nil.
    - intros i c' Hi%lookup_lt_Some ?. lia.
    - simpl. lia. }
  apply bind_Ok in H as (this1 & H1 & H). unfold resolve in H1.
  apply bind_Ok in H1 as ([k this1'] & Hk & [= ->]).
  destruct (IH this1 this' H) as (Hts & Hnew & Hlen).
  pose proof (forOf_resolve_grownFrom ts this1 this' H) as Hgrown.
  destruct (getClassMetrics_registry t this k this1 Hk) as (Hle & _ & Hnew1 & c & Hc & Hid).
  pose proof (getClassMetrics_length t this k this1 Hk) as Hlen1.
  split_and!.
  - intros t' [->|Ht']%elem_of_cons; [|by apply Hts].
    destruct (Hgrown k c Hc) as (c' & Hc' & Hs).
    exists c'. split; [by eapply list_elem_of_lookup_2|].
    by rewrite (sameButChildren_identity c c' Hs).
  - intros i c' Hi Hge. simpl.
    destruct (decide (length this1 ≤ i)) as [Hge1|Hlt].
    + destruct (Hnew i c' Hi Hge1) as (a & Ha & Hida).
      exists a. split; [|done]. apply elem_of_app. by right.
    + destruct (lookup_lt_is_Some_2 this1 i) as [c1 Hc1]; [lia|].
      destruct (Hgrown i c1 Hc1) as (c'' & Hc'' & Hs).
      assert (c'' = c') as -> by congruence.
      destruct (Hnew1 i c1 Hc1 Hge) as (a & Ha & Hida).
      exists a. split; [apply elem_of_app; by left|].
      by rewrite (sameButChildren_identity c1 c' Hs).
  - simpl. rewrite length_app. lia.
Qed.

(** X10: whatever the provider answers, a result holds an object with
    the name and the path of every class-like node's type; every object
    of the result carries the name and the path of such a type or of one
    of its ancestors; and there are at most as many objects as there are
    such types, ancestors included. *)
Theorem result_covers_the_classes (nodes : list Node) (r : AnalysisResult) :
  Analyzer.analyze nodes = Ok r →
  (∀ t, t ∈ flat_map classTypes nodes →
        ∃ c, c ∈ classes r ∧ classIdentity c = typeIdentity t)
  ∧ (∀ c, c ∈ classes r →
          ∃ t, t ∈ resolvedTypes nodes ∧ classIdentity c = typeIdentity t)
  ∧ length (classes r) ≤ length (resolvedTypes nodes).
Proof.
  intros (this & Hthis & ->)%analyze_Ok. simpl.
  rewrite forOf_analyzeClass in Hthis.
  destruct (forOf_resolve_coverage _ _ _ Hthis) as (Hts & Hnew & Hlen).
  split_and!; [done| |done].
  intros c (i & Hi)%list_elem_of_lookup. apply (Hnew i c Hi). simpl. lia.
Qed.

Lemma result_covers_the_classes_witness :
  Analyzer.analyze [Sample.fileBA] = Ok resultBA
  ∧ ∃ c, c ∈ classes resultBA ∧ classIdentity c = typeIdentity Sample.typeB.
Proof.
  split; [reflexivity|].
  apply (proj1 (result_covers_the_classes [Sample.fileBA] resultBA eq_refl)).
  simpl. apply list_elem_of_here.
Defined.

(** X11: the analysis depends on the nodes through the sequence of the
    types of their class-like nodes in pre-order only: how the nodes are
    nested, or split over source files, plays no part. *)
Theorem analysis_follows_preorder (nodes nodes' : list Node) :
  flat_map classTypes nodes = flat_map classTypes nodes' →
  Analyzer.analyze nodes = Analyzer.analyze nodes'.
Proof.
  intros H. unfold Analyzer.analyze. by rewrite !forOf_analyzeClass, H.
Qed.

Lemma analysis_follows_preorder_witness :
  Analyzer.analyze [Sample.fileBA]
  = Analyzer.analyze [mkNode (Some Sample.typeB) [mkNode None [Sample.leaf Sample.typeA]];
                      mkNode None []].
Proof. by apply analysis_follows_preorder. Defined.

(** ** Programs without inheritance *)

Lemma analyze_new_root k t :
  PropertyMetrics.analyze None t (PropertyMetrics.new k)
  = Ok (classified [] (classDeclaration t) (qualifying k t) (PropertyMetrics.new k)).
Proof.
  rewrite analyze_new. simpl.
  assert (Hex : existsb (nameInherited []) (qualifying k t) = false).
  { by induction (qualifying k t). }
  rewrite Hex. by destruct (symbolDeclarations t).
Qed.

Lemma getClassMetrics_standsAlone t this :
  symbol t ≠ None → baseCount t = 0 → Forall standsAlone this →
  ∃ k this', Analyzer.getClassMetrics t this = Ok (k, this') ∧ Forall standsAlone this'.
Proof.
  intros Hsym H0 Hall. rewrite getClassMetrics_eq by done.
  destruct (list_find _ this) as [[i c]|]; [by eauto|].
  rewrite getParentClassMetrics_eq.
  assert (parentType t = None) as ->.
  { destruct (parentType t) as [b|] eqn:Hb; [|done].
    apply parentType_baseCount in Hb. lia. }
  rewrite decide_True by done. simpl. rewrite !analyze_new_root. simpl.
  eexists _, _. split; [done|].
  apply Forall_app. split; [done|]. apply Forall_singleton.
  unfold standsAlone. simpl. split_and!; try done;
    match goal with
    | |- filter _ ?Q = [] =>
        induction Q as [|d Q' IH]; [done|rewrite filter_cons_False; [done|by intros [[] _]]]
    end.
Qed.

(** X12: for a program none of whose class-like nodes has a base type,
    the analysis returns a result when every type of a class-like node
    has a symbol, also where a symbol has no declarations array: every
    class of the result has depth 0, no child, no parent name and own
    properties only, and POF is NaN.  When the type of some class-like
    node has no symbol, the analysis throws the [TypeError]. *)
Theorem analysis_without_inheritance (nodes : list Node) :
  (∀ t, t ∈ flat_map classTypes nodes → baseCount t = 0) →
  ((∀ t, t ∈ flat_map classTypes nodes → symbol t ≠ None) →
   ∃ r, Analyzer.analyze nodes = Ok r
     ∧ Forall standsAlone (classes r)
     ∧ pof r = NaN)
  ∧ ((∃ t, t ∈ flat_map classTypes nodes ∧ symbol t = None) →
     Analyzer.analyze nodes = Throw TypeError).
Proof.
  intros Hflat.
  assert (Hloop : ∀ ts this,
            (∀ t, t ∈ ts → baseCount t = 0) → Forall standsAlone this →
            ((∀ t, t ∈ ts → symbol t ≠ None) →
             ∃ this', forOf resolve ts this = Ok this' ∧ Forall standsAlone this')
            ∧ ((∃ t, t ∈ ts ∧ symbol t = None) → forOf resolve ts this = Throw TypeError)).
  { induction ts as [|t ts IH]; intros this Hts Hall.
    { split; [by eexists|]. by intros (t & Ht%elem_of_nil & _). }
    rewrite forOf_cons.
    destruct (symbol t) as [sym|] eqn:Hsym.
    - destruct (getClassMetrics_standsAlone t this) as (k & this1 & Hk & Hall1);
        [by rewrite Hsym|apply Hts, list_elem_of_here|done|].
      assert (resolve t this = Ok this1) as -> by (unfold resolve; by rewrite Hk).
      simpl.
      destruct (IH this1 (λ t' Ht', Hts t' (list_elem_of_further _ _ _ Ht')) Hall1)
        as [IHok IHthrow].
      split.
      + intros Hs. apply IHok. intros t' Ht'. by apply Hs, list_elem_of_further.
      + intros (t' & [->|Ht']%elem_of_cons & Hs'); [congruence|].
        apply IHthrow. by exists t'.
    - assert (resolve t this = Throw TypeError) as ->.
      { unfold resolve. by rewrite getClassMetrics_no_symbol. }
      split; [|done]. intros Hs. by destruct (Hs t (list_elem_of_here _ _)). }
  destruct (Hloop (flat_map classTypes nodes) [] Hflat (Forall_nil_2 _)) as [Hok Hthrow].
  split.
  - intros Hs. destruct (Hok Hs) as (this & Hthis & Hall).
    rewrite <- forOf_analyzeClass in Hthis.
    eexists. split; [apply analyze_Ok; by eexists|]. simpl. split; [done|].
    assert (Hnum : sum_list_with
                     (λ c, length (inherited (methods c)) + length (overridden (methods c)))
                     this = 0).
    { apply sum_list_with_eq_0. intros c Hc.
      rewrite Forall_forall in Hall. destruct (Hall c Hc) as (_ & _ & _ & -> & -> & _). done. }
    assert (Hden : sum_list_with (λ c, length (own (methods c)) * numberOfChildren c) this = 0).
    { apply sum_list_with_eq_0. intros c Hc.
      rewrite Forall_forall in Hall. destruct (Hall c Hc) as (_ & -> & _). lia. }
    by rewrite Hnum, Hden.
  - intros Hs. apply analyze_Throw. rewrite forOf_analyzeClass. by apply Hthrow.
Qed.

Lemma analysis_without_inheritance_witness :
  (∃ r, Analyzer.analyze [Sample.leaf Sample.typeN; Sample.leaf Sample.typeS] = Ok r
     ∧ Forall standsAlone (classes r)
     ∧ pof r = NaN)
  ∧ Analyzer.analyze [Sample.leaf Sample.typeS; Sample.leaf typeWithoutSymbol]
    = Throw TypeError.
Proof.
  split.
  - apply analysis_without_inheritance.
    + intros t Ht. simpl in Ht.
      apply elem_of_cons in Ht as [->|Ht]; [reflexivity|].
      apply elem_of_cons in Ht as [->|Ht]; [reflexivity|].
      by apply elem_of_nil in Ht.
    + intros t Ht. simpl in Ht.
      apply elem_of_cons in Ht as [->|Ht]; [done|].
      apply elem_of_cons in Ht as [->|Ht]; [done|].
      by apply elem_of_nil in Ht.
  - apply analysis_without_inheritance.
    + intros t Ht. simpl in Ht.
      apply elem_of_cons in Ht as [->|Ht]; [reflexivity|].
      apply elem_of_cons in Ht as [->|Ht]; [reflexivity|].
      by apply elem_of_nil in Ht.
    + exists typeWithoutSymbol. split; [simpl; solve_elem|reflexivity].
Defined.

(** ** The objects in closed form *)

Lemma bucketSpec_eq k t :
  bucketSpec k t =
  classified
    match parentType t with
    | Some b => PropertyMetrics.allProps (bucketSpec k b)
    | None => []
    end
    (classDeclaration t) (qualifying k t) (PropertyMetrics.new k).
Proof.
  unfold parentType. destruct t as [n s bts ps]; simpl.
  by destruct bts as [[|b' [|b'' bts]]|].
Qed.

Lemma parentPropsOf_Some k pc :
  PropertyMetrics.parentPropsOf k (Some pc) = PropertyMetrics.allProps (bucketOf k pc).
Proof. by destruct k. Qed.

Lemma sameButChildren_bucketOf c c' k :
  sameButChildren c c' → bucketOf k c' = bucketOf k c.
Proof. intros (_ & _ & _ & _ & Hm & Ha & _). by destruct k. Qed.

(** [analyze] reads nothing of the parent but its bucket. *)
Lemma analyze_parent_ext k pc pc' t :
  bucketOf k pc' = bucketOf k pc →
  PropertyMetrics.analyze (Some pc') t (PropertyMetrics.new k)
  = PropertyMetrics.analyze (Some pc) t (PropertyMetrics.new k).
Proof.
  intros H. unfold PropertyMetrics.analyze. cbv zeta.
  change (propType (PropertyMetrics.new k)) with k.
  by rewrite !parentPropsOf_Some, H.
Qed.

Lemma provenance_nil U : provenance U [].
Proof. by intros i c Hi. Qed.

Lemma provenance_alter U (reg : list ClassMetrics) (p : nat) :
  provenance U reg → provenance U (alter Analyzer.incrNumberOfChildren p reg).
Proof.
  intros H i c' Hi.
  destruct (lookup_alter_incr_inv reg p i c' Hi) as (c & Hc & Hs).
  destruct (H i c Hc) as (t & parentObj & Ht & Hsym & Hid & Hpar & Hb).
  destruct (parentType t) as [b|] eqn:Hpt.
  - destruct Hpar as (p0 & pc & Hlt & Hp0 & Hidp & ->).
    destruct (lookup_alter_incr_Some reg p p0 pc Hp0) as (pc' & Hpc' & Hsp).
    exists t, (Some pc'). split; [done|]. split; [done|]. split.
    { by rewrite (sameButChildren_identity c c' Hs). }
    rewrite Hpt. split.
    { exists p0, pc'. split_and!; try done.
      by rewrite (sameButChildren_identity pc pc' Hsp). }
    intros k. rewrite (sameButChildren_bucketOf c c' k Hs), <- Hb.
    apply analyze_parent_ext. by apply sameButChildren_bucketOf.
  - exists t, parentObj. split; [done|]. split; [done|]. split.
    { by rewrite (sameButChildren_identity c c' Hs). }
    rewrite Hpt. split; [done|].
    intros k. by rewrite (sameButChildren_bucketOf c c' k Hs).
Qed.

Lemma provenance_register U (reg : list ClassMetrics) t parentObj m a :
  provenance U reg → t ∈ U → symbol t ≠ None →
  match parentType t with
  | None => parentObj = None
  | Some b => ∃ p pc, reg !! p = Some pc
                      ∧ classIdentity pc = typeIdentity b ∧ parentObj = Some pc
  end →
  PropertyMetrics.analyze parentObj t (PropertyMetrics.new methodsT) = Ok m →
  PropertyMetrics.analyze parentObj t (PropertyMetrics.new attributesT) = Ok a →
  provenance U (reg ++ [freshClass t parentObj m a]).
Proof.
  intros H Ht Hsym Hpar Hm Ha i c Hi.
  apply lookup_app_Some in Hi as [Hi|[Hge Hi]].
  - destruct (H i c Hi) as (t' & po & Ht' & Hsym' & Hid & Hpar' & Hb).
    exists t', po. split_and!; try done.
    destruct (parentType t') as [b|]; [|done].
    destruct Hpar' as (p0 & pc & Hlt & Hp0 & Hidp & ->).
    exists p0, pc. split_and!; try done. by apply lookup_app_l_Some.
  - apply list_lookup_singleton_Some in Hi as [Hi <-].
    exists t, parentObj. split_and!; try done.
    + destruct (parentType t) as [b|]; [|done].
      destruct Hpar as (p0 & pc & Hp0 & Hidp & ->).
      exists p0, pc. split_and!; try done.
      * apply lookup_lt_Some in Hp0. lia.
      * by apply lookup_app_l_Some.
    + by intros [|].
Qed.

Lemma getClassMetrics_provenance U t :
  (∀ a, a ∈ lineage t → a ∈ U) →
  ∀ this k this',
    provenance U this →
    Analyzer.getClassMetrics t this = Ok (k, this') →
    provenance U this'.
Proof.
  induction t as [t IH] using tsType_parent_ind. intros HtU this k this' HP H.
  pose proof (getClassMetrics_Ok_symbol _ _ _ _ H) as Hsym.
  apply getClassMetrics_Ok_inv in H
    as [(c & Hfind & ->)|(Hfind & _ & parent & this1 & m & a & Hparent & H)]; [done|].
  simpl in H. destruct H as (Hm & Ha & -> & ->).
  assert (Ht : t ∈ U) by apply HtU, elem_of_lineage_self.
  destruct (parentType t) as [b|] eqn:Hb.
  - destruct Hparent as (p & Hp & ->). simpl in *.
    assert (HP1 : provenance U this1).
    { apply (IH b eq_refl) with this p; [|done..].
      intros x Hx. apply HtU. by eapply elem_of_lineage_parent. }
    destruct (getClassMetrics_registry b this p this1 Hp) as (_ & _ & _ & cb & Hcb & Hidb).
    assert (Hp2 : alter Analyzer.incrNumberOfChildren p this1 !! p
                  = Some (Analyzer.incrNumberOfChildren cb)).
    { by rewrite list_lookup_alter_eq, Hcb. }
    rewrite (list_lookup_total_correct _ _ _ Hp2) in *.
    apply provenance_register; [by apply provenance_alter|done|done| |done..].
    rewrite Hb. by exists p, (Analyzer.incrNumberOfChildren cb).
  - destruct Hparent as [-> ->]. simpl in *.
    apply provenance_register; try done. by rewrite Hb.
Qed.

Lemma forOf_resolve_provenance U ts :
  (∀ a, a ∈ flat_map lineage ts → a ∈ U) →
  ∀ this this', provenance U this → forOf resolve ts this = Ok this' → provenance U this'.
Proof.
  induction ts as [|t ts IH]; intros HU this this' HP H; simpl in H.
  { by injection H as <-. }
  apply bind_Ok in H as (this1 & H1 & H). unfold resolve in H1.
  apply bind_Ok in H1 as ([k this1'] & Hk & [= ->]).
  simpl in HU. apply (IH (λ a Ha, HU a (proj2 (elem_of_app _ _ a) (or_intror Ha))) this1);
    [|done].
  apply (getClassMetrics_provenance U t (λ a Ha, HU a (proj2 (elem_of_app _ _ a) (or_introl Ha)))
           this k); done.
Qed.

Lemma analyze_provenance nodes r :
  Analyzer.analyze nodes = Ok r → provenance (resolvedTypes nodes) (classes r).
Proof.
  intros (this & Hthis & ->)%analyze_Ok. simpl.
  rewrite forOf_analyzeClass in Hthis.
  by apply (forOf_resolve_provenance (resolvedTypes nodes) _ (λ a H, H) [] this
             (provenance_nil _)).
Qed.

Section closed_form.
Context (U : list tsType) (Hcons : consistent U).
Context (L : list tsType) (HLU : ∀ x, x ∈ L → x ∈ U).
Context (reg : list ClassMetrics).
Context (Hreg : registryOf L reg) (Hprov : provenance U reg).

Lemma registry_buckets t :
  t ∈ L → ∀ c, c ∈ reg → classIdentity c = typeIdentity t →
  ∀ k, bucketOf k c = bucketSpec k t.
Proof.
  induction t as [t IH] using tsType_parent_ind.
  intros Ht c (i & Hi)%list_elem_of_lookup Hid k.
  destruct (Hprov i c Hi) as (t' & parentObj & Ht' & Hsym' & Hid' & Hpar & Hb).
  assert (t' = t) as -> by (apply Hcons; [done|by apply HLU|congruence]).
  specialize (Hb k). apply analyze_new_Ok in Hb. rewrite Hb, bucketSpec_eq.
  destruct (parentType t) as [b|] eqn:Hpt.
  - destruct Hpar as (p & pc & Hlt & Hp & Hidp & ->).
    rewrite parentPropsOf_Some.
    assert (HbL : b ∈ L).
    { destruct Hreg as (_ & _ & Hcl & _). by eapply Hcl. }
    rewrite (IH b eq_refl HbL pc); [done|by eapply list_elem_of_lookup_2|done].
  - by rewrite Hpar.
Qed.

Lemma registry_depth t :
  t ∈ L → ∀ c, c ∈ reg → classIdentity c = typeIdentity t →
  depthOfInheritance c = length (properAncestors t)
  ∧ parentClass c = from_option typeToString "" (parentType t).
Proof.
  induction t as [t IH] using tsType_parent_ind. intros Ht c Hc Hid.
  pose proof Hreg as (_ & _ & Hcl & _ & Hpos & _).
  destruct (Hpos t Ht) as (k & c0 & Hk & Hid0 & Hpar).
  assert (c0 = c) as ->.
  { apply (registryOf_unique L reg); [done|by eapply list_elem_of_lookup_2|done|congruence]. }
  unfold properAncestors. destruct (parentType t) as [b|] eqn:Hpt; [|done].
  destruct Hpar as (p & pc & Hlt & Hp & Hidp & Hd & Hn).
  destruct (IH b eq_refl (Hcl t b Ht Hpt) pc) as [Hdp _];
    [by eapply list_elem_of_lookup_2|done|].
  rewrite Hd, Hdp, (lineage_eq b). simpl. split; [done|].
  rewrite Hn. unfold classIdentity, typeIdentity in Hidp. congruence.
Qed.

(** No class of a registry of [L] is one on which the analysis
    throws. *)
Lemma registry_not_throwing t : t ∈ L → ¬ throwing t.
Proof.
  intros Ht [Hnosym|[Hge|(Hnone & b & k & d & Hpt & Hd & Hin)]].
  - destruct (registryOf_find L reg t Hreg Ht) as (c & (i & Hi)%list_elem_of_lookup & Hid).
    destruct (Hprov i c Hi) as (t' & parentObj & Ht' & Hsym' & Hid' & _).
    assert (t' = t) as -> by (apply Hcons; [done|by apply HLU|congruence]).
    done.
  - destruct Hreg as (_ & _ & _ & Hbc & _). specialize (Hbc t Ht). lia.
  - destruct (registryOf_find L reg t Hreg Ht) as (c & (i & Hi)%list_elem_of_lookup & Hid).
    destruct (Hprov i c Hi) as (t' & parentObj & Ht' & Hsym' & Hid' & Hpar & Hb).
    assert (t' = t) as -> by (apply Hcons; [done|by apply HLU|congruence]).
    rewrite Hpt in Hpar. destruct Hpar as (p & pc & Hlt & Hp & Hidp & ->).
    assert (HbL : b ∈ L).
    { destruct Hreg as (_ & _ & Hcl & _). by eapply Hcl. }
    specialize (Hb k). rewrite analyze_new in Hb. cbv zeta in Hb.
    rewrite Hnone, parentPropsOf_Some in Hb.
    rewrite (registry_buckets b HbL pc) in Hb; [|by eapply list_elem_of_lookup_2|done].
    assert (Hex : existsb (nameInherited (PropertyMetrics.allProps (bucketSpec k b)))
                    (qualifying k t) = true).
    { apply existsb_exists. exists d. split; [by apply list_elem_of_In|].
      by apply Is_true_true. }
    by rewrite Hex in Hb.
Qed.

(** In a registry of [L], the object of a class is the one that
    [metricsSpec] describes. *)
Lemma registry_closed_form t c :
  t ∈ L → c ∈ reg → classIdentity c = typeIdentity t → c = metricsSpec L t.
Proof.
  intros Ht Hc Hid.
  destruct (registry_depth t Ht c Hc Hid) as [Hd Hn].
  pose proof (registry_buckets t Ht c Hc Hid methodsT) as Hm.
  pose proof (registry_buckets t Ht c Hc Hid attributesT) as Ha.
  destruct Hreg as (_ & _ & _ & _ & _ & Hnoc). specialize (Hnoc c Hc).
  rewrite Hid in Hnoc. unfold classIdentity, typeIdentity in Hid.
  destruct c. unfold metricsSpec. simpl in *. congruence.
Qed.

End closed_form.

(** X13: under a provider that gives one identity to one class, the
    object of a class in the result is determined by the class, its
    ancestors and the set of classes met: its depth is the number of its
    ancestors, its parent name the name of its base type, and its
    buckets are its qualifying declarations classified against the
    whole bucket of its parent, up the chain; every object of the result
    is the object of a class met. *)
Theorem result_in_closed_form (nodes : list Node) (r : AnalysisResult) :
  consistent (resolvedTypes nodes) →
  Analyzer.analyze nodes = Ok r →
  (∀ t c, t ∈ resolvedTypes nodes → registeredAs (classes r) t c →
          c = metricsSpec (resolvedTypes nodes) t)
  ∧ (∀ c, c ∈ classes r →
          ∃ t, t ∈ resolvedTypes nodes ∧ c = metricsSpec (resolvedTypes nodes) t).
Proof.
  intros Hcons Hr.
  pose proof (analyze_registryOf nodes r Hcons Hr) as Hreg.
  pose proof (analyze_provenance nodes r Hr) as Hprov.
  split.
  - intros t c Ht [Hc Hid].
    by apply (registry_closed_form _ Hcons _ (λ x H, H) (classes r)).
  - intros c Hc. destruct Hreg as (Hnd & Himg & Hrest).
    destruct (Himg c Hc) as (t & Ht & Hid). exists t. split; [done|].
    by apply (registry_closed_form _ Hcons _ (λ x H, H) (classes r)).
Qed.

Lemma consistent_fileBA : consistent (resolvedTypes [Sample.fileBA]).
Proof. solve_consistent. Qed.

Lemma result_in_closed_form_witness :
  consistent (resolvedTypes [Sample.fileBA])
  ∧ Analyzer.analyze [Sample.fileBA] = Ok resultBA
  ∧ Sample.metricsA = metricsSpec (resolvedTypes [Sample.fileBA]) Sample.typeA.
Proof.
  split; [exact consistent_fileBA|]. split; [reflexivity|].
  apply (proj1 (result_in_closed_form [Sample.fileBA] resultBA consistent_fileBA eq_refl)).
  - unfold resolvedTypes. simpl. solve_elem.
  - split; [simpl; solve_elem|reflexivity].
Defined.

(** ** When the analysis throws *)

Section throwing_classes.
Context (U : list tsType) (Hcons : consistent U).

Lemma getClassMetrics_Throw_throwing t :
  (∀ a, a ∈ lineage t → a ∈ U) →
  ∀ L this e,
    (∀ x, x ∈ L → x ∈ U) →
    registryOf L this → provenance U this →
    Analyzer.getClassMetrics t this = Throw e →
    ∃ a, a ∈ lineage t ∧ throwing a.
Proof.
  induction t as [t IH] using tsType_parent_ind.
  intros HtU L this e HLU Hreg Hprov.
  destruct (symbol t) as [sym|] eqn:Hsym.
  2:{ intros _. exists t. split; [apply elem_of_lineage_self|by left]. }
  rewrite getClassMetrics_eq by (by rewrite Hsym).
  destruct (list_find _ this) as [[i c]|]; [done|].
  rewrite getParentClassMetrics_eq.
  destruct (parentType t) as [b|] eqn:Hb.
  - assert (HbU : ∀ a, a ∈ lineage b → a ∈ U).
    { intros a Ha. apply HtU. by eapply elem_of_lineage_parent. }
    destruct (Analyzer.getClassMetrics b this) as [[p this1]|e'] eqn:Hp; simpl.
    + pose proof (getClassMetrics_registryOf U Hcons b HbU L this p this1 HLU Hreg Hp) as Hreg1.
      pose proof (getClassMetrics_provenance U b HbU this p this1 Hprov Hp) as Hprov1.
      destruct (getClassMetrics_registry b this p this1 Hp) as (_ & _ & _ & cb & Hcb & Hidb).
      assert (Hp2 : alter Analyzer.incrNumberOfChildren p this1 !! p
                    = Some (Analyzer.incrNumberOfChildren cb)).
      { by rewrite list_lookup_alter_eq, Hcb. }
      rewrite (list_lookup_total_correct _ _ _ Hp2).
      assert (HL1 : ∀ x, x ∈ lineage b ++ L → x ∈ U).
      { intros x [Hx|Hx]%elem_of_app; [by apply HbU|by apply HLU]. }
      assert (Hthrow : ∀ k e0,
                PropertyMetrics.analyze (Some (Analyzer.incrNumberOfChildren cb)) t
                  (PropertyMetrics.new k) = Throw e0 → throwing t).
      { intros k e0. rewrite analyze_new. cbv zeta. rewrite parentPropsOf_Some.
        assert (bucketOf k (Analyzer.incrNumberOfChildren cb) = bucketSpec k b) as ->.
        { rewrite (sameButChildren_bucketOf cb _ k (sameButChildren_incr cb)).
          apply (registry_buckets U Hcons (lineage b ++ L) HL1 this1 Hreg1 Hprov1).
          - apply elem_of_app. left. apply elem_of_lineage_self.
          - by eapply list_elem_of_lookup_2.
          - done. }
        destruct (symbolDeclarations t) eqn:Hdecl; [done|].
        destruct (existsb _ _) eqn:Hex; [|done]. intros _.
        apply existsb_exists in Hex as (d & Hd%list_elem_of_In & Hin).
        right. right. split; [done|]. exists b, k, d. split_and!; try done.
        by apply Is_true_true. }
      intros [Hm|(m & _ & [Ha|(a & _ & ?)]%bind_Throw)]%bind_Throw; [| |done].
      * exists t. split; [apply elem_of_lineage_self|by eapply Hthrow].
      * exists t. split; [apply elem_of_lineage_self|by eapply Hthrow].
    + intros [= <-].
      destruct (IH b eq_refl HbU L this e' HLU Hreg Hprov Hp) as (a & Ha & Hbad).
      exists a. split; [by eapply elem_of_lineage_parent|done].
  - destruct (decide (baseCount t = 0)) as [H0|Hn0]; simpl.
    + rewrite !analyze_new_root. simpl. done.
    + intros _. exists t. split; [apply elem_of_lineage_self|]. right. left.
      destruct (decide (baseCount t ≤ 1)) as [Hle|]; [|lia].
      by apply parentType_None_baseCount in Hle.
Qed.

Lemma forOf_resolve_Throw_throwing ts :
  (∀ a, a ∈ flat_map lineage ts → a ∈ U) →
  ∀ L this e,
    (∀ x, x ∈ L → x ∈ U) →
    registryOf L this → provenance U this →
    forOf resolve ts this = Throw e →
    ∃ a, a ∈ flat_map lineage ts ∧ throwing a.
Proof.
  induction ts as [|t ts IH]; intros HU L this e HLU Hreg Hprov H; simpl in H; [done|].
  simpl in HU.
  assert (HtU : ∀ a, a ∈ lineage t → a ∈ U).
  { intros a Ha. apply HU, elem_of_app. by left. }
  assert (HtsU : ∀ a, a ∈ flat_map lineage ts → a ∈ U).
  { intros a Ha. apply HU, elem_of_app. by right. }
  apply bind_Throw in H as [H|(this1 & H1 & H)].
  - unfold resolve in H. apply bind_Throw in H as [H|([k this1] & _ & ?)]; [|done].
    destruct (getClassMetrics_Throw_throwing t HtU L this e HLU Hreg Hprov H)
      as (a & Ha & Hbad).
    exists a. split; [|done]. simpl. apply elem_of_app. by left.
  - unfold resolve in H1. apply bind_Ok in H1 as ([k this1'] & Hk & [= ->]).
    assert (HL1 : ∀ x, x ∈ lineage t ++ L → x ∈ U).
    { intros x [Hx|Hx]%elem_of_app; [by apply HtU|by apply HLU]. }
    pose proof (getClassMetrics_registryOf U Hcons t HtU L this k this1 HLU Hreg Hk) as Hreg1.
    pose proof (getClassMetrics_provenance U t HtU this k this1 Hprov Hk) as Hprov1.
    destruct (IH HtsU (lineage t ++ L) this1 e HL1 Hreg1 Hprov1 H) as (a & Ha & Hbad).
    exists a. split; [|done]. simpl. apply elem_of_app. by right.
Qed.

End throwing_classes.

(** X14: under a provider that gives one identity to one class, the
    analysis throws exactly when it meets, as a class-like node or as an
    ancestor of one, a class whose type has no symbol, or a class with
    two or more base types, or a class whose symbol has no declarations
    array and that shows a qualifying property whose name is the name of
    a property of its parent. *)
Theorem analysis_throws_exactly (nodes : list Node) :
  consistent (resolvedTypes nodes) →
  (∃ e, Analyzer.analyze nodes = Throw e)
  ↔ (∃ t, t ∈ resolvedTypes nodes ∧ throwing t).
Proof.
  intros Hcons. split.
  - intros (e & He). apply analyze_Throw in He. rewrite forOf_analyzeClass in He.
    apply (forOf_resolve_Throw_throwing _ Hcons _ (λ a H, H) [] [] e
             (λ x Hx, False_ind _ (not_elem_of_nil x Hx)) registryOf_nil
             (provenance_nil _) He).
  - intros (t & Ht & Hbad).
    destruct (Analyzer.analyze nodes) as [r|e] eqn:Hr; [|by exists e]. exfalso.
    apply (registry_not_throwing _ Hcons _ (λ x H, H) (classes r)
             (analyze_registryOf nodes r Hcons Hr) (analyze_provenance nodes r Hr) t Ht Hbad).
Qed.

Lemma consistent_leafC : consistent (resolvedTypes [Sample.leaf Sample.typeC]).
Proof. solve_consistent. Qed.

Lemma analysis_throws_exactly_witness :
  consistent (resolvedTypes [Sample.leaf Sample.typeC])
  ∧ ∃ e, Analyzer.analyze [Sample.leaf Sample.typeC] = Throw e.
Proof.
  split; [exact consistent_leafC|].
  apply (proj2 (analysis_throws_exactly [Sample.leaf Sample.typeC] consistent_leafC)).
  exists Sample.typeC. split; [unfold resolvedTypes; simpl; solve_elem|].
  right. right. split; [reflexivity|].
  exists Sample.typeA, methodsT, Sample.C_m. split; [reflexivity|].
  split; [apply list_elem_of_here|exact I].
Defined.

(** ** The order of the traversal *)

Lemma isMaxOf_unique {A} (f : A → nat) l l' m m' :
  (∀ x, x ∈ l ↔ x ∈ l') → isMaxOf f l m → isMaxOf f l' m' → m = m'.
Proof.
  intros Hll' (Hle & Hnil & Hex) (Hle' & Hnil' & Hex').
  destruct l as [|x l].
  - destruct l' as [|x' l'].
    + rewrite Hnil, Hnil'; done.
    + exfalso. apply (not_elem_of_nil x'), Hll', list_elem_of_here.
  - destruct (Hex) as (y & Hy & <-); [done|].
    destruct l' as [|x' l'].
    { exfalso. apply (not_elem_of_nil x), Hll', list_elem_of_here. }
    destruct (Hex') as (y' & Hy' & <-); [done|].
    apply Nat.le_antisymm.
    + apply Hle'. by apply Hll'.
    + apply Hle. by apply Hll'.
Qed.

(** X15: under a provider that gives one identity to one class, the
    result depends on the set of classes met only: where the analysis of
    some nodes returns, the analysis of nodes that lead to the same
    classes, in whatever order, returns the same objects up to their
    order, the same five ratios, and the formatter the same two
    maxima. *)
Theorem analysis_is_order_independent
    (nodes nodes' : list Node) (r : AnalysisResult) :
  consistent (resolvedTypes nodes) →
  (∀ t, t ∈ resolvedTypes nodes ↔ t ∈ resolvedTypes nodes') →
  Analyzer.analyze nodes = Ok r →
  ∃ r', Analyzer.analyze nodes' = Ok r'
    ∧ classes r' ≡ₚ classes r
    ∧ (mif r', aif r', mhf r', ahf r', pof r') = (mif r, aif r, mhf r, ahf r, pof r)
    ∧ Formatted.maxNumberOfChildren (formatMetrics r')
      = Formatted.maxNumberOfChildren (formatMetrics r)
    ∧ Formatted.maxDepthOfInheritance (formatMetrics r')
      = Formatted.maxDepthOfInheritance (formatMetrics r).
Proof.
  intros Hcons Hsame Hr.
  assert (Hcons' : consistent (resolvedTypes nodes')).
  { intros t1 t2 H1 H2. apply Hcons; by apply Hsame. }
  pose proof (analyze_registryOf nodes r Hcons Hr) as Hreg.
  pose proof (analyze_provenance nodes r Hr) as Hprov.
  destruct (Analyzer.analyze nodes') as [r'|e] eqn:Hr'.
  2:{ exfalso. apply analyze_Throw in Hr'. rewrite forOf_analyzeClass in Hr'.
      destruct (forOf_resolve_Throw_throwing _ Hcons' _ (λ a H, H) [] [] e
                  (λ x Hx, False_ind _ (not_elem_of_nil x Hx)) registryOf_nil
                  (provenance_nil _) Hr') as (a & Ha & Hbad).
      apply Hsame in Ha.
      apply (registry_not_throwing _ Hcons _ (λ x H, H) (classes r) Hreg Hprov a Ha Hbad). }
  pose proof (analyze_registryOf nodes' r' Hcons' Hr') as Hreg'.
  pose proof (analyze_provenance nodes' r' Hr') as Hprov'.
  exists r'. split; [done|].
  assert (Hspec : ∀ t, metricsSpec (resolvedTypes nodes') t = metricsSpec (resolvedTypes nodes) t).
  { intros t. unfold metricsSpec. f_equal. apply childrenIn_ext. intros x. by rewrite Hsame. }
  assert (Hperm : classes r' ≡ₚ classes r).
  { apply NoDup_Permutation.
    - pose proof Hreg' as (Hnd & _). by apply NoDup_fmap_1 in Hnd.
    - pose proof Hreg as (Hnd & _). by apply NoDup_fmap_1 in Hnd.
    - intros c. split; intros Hc.
      + pose proof Hreg' as (_ & Himg & _). destruct (Himg c Hc) as (t & Ht & Hid).
        rewrite (registry_closed_form _ Hcons' _ (λ x H, H) (classes r') Hreg' Hprov' t c Ht Hc Hid).
        apply Hsame in Ht.
        destruct (registryOf_find _ _ t Hreg Ht) as (c0 & Hc0 & Hid0).
        rewrite Hspec.
        by rewrite <- (registry_closed_form _ Hcons _ (λ x H, H) (classes r) Hreg Hprov
                        t c0 Ht Hc0 Hid0).
      + pose proof Hreg as (_ & Himg & _). destruct (Himg c Hc) as (t & Ht & Hid).
        rewrite (registry_closed_form _ Hcons _ (λ x H, H) (classes r) Hreg Hprov t c Ht Hc Hid).
        apply Hsame in Ht.
        destruct (registryOf_find _ _ t Hreg' Ht) as (c0 & Hc0 & Hid0).
        rewrite <- Hspec.
        by rewrite <- (registry_closed_form _ Hcons' _ (λ x H, H) (classes r') Hreg' Hprov'
                        t c0 Ht Hc0 Hid0). }
  split; [done|]. split_and!.
  - apply analyze_Ok in Hr as (this & _ & ->). apply analyze_Ok in Hr' as (this' & _ & ->).
    simpl in *. by rewrite !Hperm.
  - simpl. eapply isMaxOf_unique; [|apply reduceMax_isMaxOf..].
    intros x. by rewrite Hperm.
  - simpl. eapply isMaxOf_unique; [|apply reduceMax_isMaxOf..].
    intros x. by rewrite Hperm.
Qed.

Lemma analysis_is_order_independent_witness :
  consistent (resolvedTypes [Sample.fileBA])
  ∧ Analyzer.analyze [Sample.fileBA] = Ok resultBA
  ∧ ∃ r', Analyzer.analyze [Sample.leaf Sample.typeA; Sample.leaf Sample.typeB] = Ok r'
      ∧ classes r' ≡ₚ classes resultBA.
Proof.
  split; [exact consistent_fileBA|]. split; [reflexivity|].
  destruct (analysis_is_order_independent
              [Sample.fileBA] [Sample.leaf Sample.typeA; Sample.leaf Sample.typeB]
              resultBA consistent_fileBA) as (r' & Hr' & Hperm & _).
  - intros t. unfold resolvedTypes. simpl. rewrite !elem_of_cons, elem_of_nil. tauto.
  - reflexivity.
  - by exists r'.
Defined.

(** ** The path of a class *)

Lemma hasColon_pretty_N_go x s :
  hasColon s = false → hasColon (pretty_N_go x s) = false.
Proof.
  revert s. induction (N.lt_wf_0 x) as [x _ IH]; intros s Hs.
  assert (x = 0 ∨ 0 < x)%N as [->|?] by lia; [by rewrite pretty_N_go_0|].
  rewrite pretty_N_go_step by done. apply IH; [by apply N.div_lt|].
  simpl. rewrite Hs. unfold pretty_N_char. by repeat case_match.
Qed.

Lemma hasColon_pretty_nat (n : nat) : hasColon (pretty n) = false.
Proof.
  unfold pretty, pretty_nat, pretty, pretty_N.
  destruct (decide _); [done|]. by apply hasColon_pretty_N_go.
Qed.

Lemma hasColon_app_colon s t : hasColon (s +:+ ":" +:+ t) = true.
Proof. induction s as [|a s IH]; simpl; [done|]. rewrite IH. apply orb_true_r. Qed.

(** A string is split at its last colon in one way. *)
Lemma app_colon_inj s s' t t' :
  hasColon t = false → hasColon t' = false →
  s +:+ ":" +:+ t = s' +:+ ":" +:+ t' → s = s' ∧ t = t'.
Proof.
  intros Ht Ht'. revert s'. induction s as [|a s IH]; intros [|a' s'] H; simpl in H.
  - by injection H.
  - injection H as _ H. change ("" +:+ t) with t in H.
    rewrite H, hasColon_app_colon in Ht. done.
  - injection H as _ H. change ("" +:+ t') with t' in H.
    rewrite <- H, hasColon_app_colon in Ht'. done.
  - injection H as -> H. destruct (IH s' H) as [-> ->]. done.
Qed.

Lemma string_app_assoc (s1 s2 s3 : string) : (s1 +:+ s2) +:+ s3 = s1 +:+ s2 +:+ s3.
Proof.
  induction s1 as [|a s1 IH]; [done|].
  change (String a ((s1 +:+ s2) +:+ s3) = String a (s1 +:+ s2 +:+ s3)). by rewrite IH.
Qed.

(** X16: [getAbsolutePosition] tells positions apart: two declarations
    get the same path exactly when they have the same file name, line
    and character, whatever the file names are; and the path is never
    the empty string, which is the path of a class without
    declaration. *)
Theorem getAbsolutePosition_identifies (d d' : Declaration) :
  (Analyzer.getAbsolutePosition d = Analyzer.getAbsolutePosition d'
   ↔ fileName d = fileName d' ∧ startLine d = startLine d'
     ∧ startCharacter d = startCharacter d')
  ∧ Analyzer.getAbsolutePosition d ≠ "".
Proof.
  unfold Analyzer.getAbsolutePosition. split.
  - split.
    + intros H. rewrite <- !(string_app_assoc (fileName _) ":") in H.
      rewrite <- !(string_app_assoc (fileName _ +:+ ":")) in H.
      apply app_colon_inj in H as [H Hc]; [|apply hasColon_pretty_nat..].
      rewrite !string_app_assoc in H.
      apply app_colon_inj in H as [Hf Hl]; [|apply hasColon_pretty_nat..].
      apply (inj pretty) in Hc. apply (inj pretty) in Hl. split; [done|]. lia.
    + by intros (-> & -> & ->).
  - by destruct (fileName d).
Qed.

(** ** The filter of the exported function *)

Lemma startsWith_spec s sub :
  startsWith s sub = true ↔ ∃ post, s = sub +:+ post.
Proof.
  revert s. induction sub as [|a sub IH]; intros s; simpl.
  - split; [intros _; by exists s|done].
  - destruct s as [|b s].
    + split; [done|]. by intros (post & ?).
    + rewrite andb_true_iff, bool_decide_eq_true, IH. split.
      * intros [-> (post & ->)]. by exists post.
      * intros (post & [= -> ->]). split; [done|]. by exists post.
Qed.

Lemma includes_spec s sub :
  includes s sub = true ↔ ∃ pre post, s = pre +:+ sub +:+ post.
Proof.
  induction s as [|b s IH].
  - simpl. rewrite orb_false_r, startsWith_spec. split.
    + intros (post & H). by exists "", post.
    + intros ([|a pre] & post & H); [by exists post|done].
  - change (includes (String b s) sub)
      with (startsWith (String b s) sub || includes s sub).
    rewrite orb_true_iff, startsWith_spec, IH. split.
    + intros [(post & H)|(pre & post & ->)]; [by exists "", post|].
      by exists (String b pre), post.
    + intros ([|a pre] & post & H); [left; by exists post|].
      injection H as -> ->. right. by exists pre, post.
Qed.

(** X17: the exported [analyze] leaves out a source file whose directory
    contains [node_modules] anywhere, also inside a longer name: the
    file takes no part in the result.  A program none of whose
    directories contains it is analysed whole. *)
Theorem files_below_node_modules_are_skipped
    (program1 program2 : list SourceFile) (file : SourceFile) (pre post : string) :
  dir file = pre +:+ "node_modules" +:+ post →
  analyze (program1 ++ file :: program2) = analyze (program1 ++ program2)
  ∧ ((∀ f pre' post', f ∈ program1 ++ program2 →
                      dir f ≠ pre' +:+ "node_modules" +:+ post') →
     analyze (program1 ++ file :: program2)
     = analyzeProgram (sourceNode <$> program1 ++ program2)).
Proof.
  intros Hdir.
  assert (Hin : includes (dir file) "node_modules" = true).
  { apply includes_spec. by exists pre, post. }
  assert (Hskip : analyze (program1 ++ file :: program2) = analyze (program1 ++ program2)).
  { unfold analyze. cbv zeta. rewrite !filter_app, filter_cons_False; [done|].
    rewrite Hin. by intros H. }
  split; [done|]. intros Hnone. rewrite Hskip. unfold analyze, analyzeProgram. cbv zeta.
  assert (Hall : ∀ l : list SourceFile,
            (∀ f pre' post', f ∈ l → dir f ≠ pre' +:+ "node_modules" +:+ post') →
            filter (λ f, ¬ includes (dir f) "node_modules") l = l).
  { induction l as [|f fs IH]; intros Hl; [done|].
    rewrite filter_cons_True.
    - f_equal. apply IH. intros f' pre' post' Hf'. apply Hl. by apply list_elem_of_further.
    - intros Hi%Is_true_true. apply includes_spec in Hi as (pre' & post' & Hf).
      by apply (Hl f pre' post' (list_elem_of_here _ _)). }
  by rewrite (Hall _ Hnone).
Qed.

Lemma files_below_node_modules_are_skipped_witness :
  analyze [ {| dir := "src"; sourceNode := Sample.fileBA |};
            {| dir := "lib/old_node_modules/x"; sourceNode := Sample.leaf Sample.typeD |} ]
  = analyzeProgram [Sample.fileBA].
Proof.
  refine (proj2 (files_below_node_modules_are_skipped
            [ {| dir := "src"; sourceNode := Sample.fileBA |} ] []
            {| dir := "lib/old_node_modules/x"; sourceNode := Sample.leaf Sample.typeD |}
            "lib/old_" "/x" eq_refl) _).
  intros f pre' post' Hf. simpl in Hf.
  apply elem_of_cons in Hf as [->|Hf]; [|by apply elem_of_nil in Hf].
  intros H. simpl in H.
  assert (Hin : includes "src" "node_modules" = true).
  { apply includes_spec. by exists pre', post'. }
  discriminate Hin.
Defined.

(** ** The emitted classes *)

(** X18: where no class has the empty name, the classes that the
    formatter emits with a [parentClass] key are the classes of the
    result that are not roots. *)
Theorem parentClass_key_marks_non_roots (nodes : list Node) (r : AnalysisResult) :
  Analyzer.analyze nodes = Ok r →
  (∀ c, c ∈ classes r → className c ≠ "") →
  ∀ c, c ∈ classes r →
    "parentClass" ∈ (clearedClassOf c).*1 ↔ 0 < depthOfInheritance c.
Proof.
  intros Hr Hnames c Hc.
  assert (Hforest : forestShaped (classes r)).
  { apply (analyze_invariant forestShaped nodes r);
      [by intros i c' Hi|apply getClassMetrics_forestShaped|done]. }
  apply list_elem_of_lookup in Hc as (i & Hi).
  unfold clearedClassOf.
  destruct (Hforest i c Hi) as [[Hd Hn]|(p & pc & Hlt & Hp & Hd & Hn & _)].
  - rewrite Hn, Hd. simpl. split; [|lia].
    intros H. repeat (apply elem_of_cons in H as [H|H]; [done|]). by apply elem_of_nil in H.
  - assert (Hne : parentClass c ≠ "").
    { rewrite Hn. apply Hnames. by eapply list_elem_of_lookup_2. }
    rewrite bool_decide_eq_false_2 by done. rewrite Hd. simpl.
    split; [lia|]. intros _. solve_elem.
Qed.

Lemma parentClass_key_marks_non_roots_witness :
  Analyzer.analyze [Sample.fileBA] = Ok resultBA
  ∧ "parentClass" ∈ (clearedClassOf (classes resultBA !!! 1)).*1.
Proof.
  split; [reflexivity|].
  apply (parentClass_key_marks_non_roots [Sample.fileBA] resultBA eq_refl).
  - intros c Hc. simpl in Hc.
    apply elem_of_cons in Hc as [->|Hc]; [done|].
    apply elem_of_cons in Hc as [->|Hc]; [done|]. by apply elem_of_nil in Hc.
  - simpl. solve_elem.
  - simpl. lia.
Defined.

(** ** More nodes *)

(** X19: analysing further nodes after the given ones keeps what the
    given ones gave: where the analysis of [nodes ++ more] returns, the
    analysis of [nodes] returns as well, and its classes stand in the
    larger result at the same indices, with the same name, path,
    parent, depth and buckets; only their [numberOfChildren] may have
    grown. *)
Theorem more_nodes_extend_the_result (nodes more : list Node) (r' : AnalysisResult) :
  Analyzer.analyze (nodes ++ more) = Ok r' →
  ∃ r, Analyzer.analyze nodes = Ok r
    ∧ length (classes r) ≤ length (classes r')
    ∧ ∀ i c, classes r !! i = Some c →
        ∃ c', classes r' !! i = Some c' ∧ sameButChildren c c'.
Proof.
  intros (this' & Hthis' & ->)%analyze_Ok. simpl.
  rewrite forOf_analyzeClass, flat_map_app, forOf_app in Hthis'.
  apply bind_Ok in Hthis' as (this & Hthis & Hmore).
  rewrite <- forOf_analyzeClass in Hthis.
  eexists. split; [apply analyze_Ok; by eexists|]. simpl.
  pose proof (forOf_resolve_grownFrom _ _ _ Hmore) as Hgrown.
  split; [|exact Hgrown].
  destruct (decide (length this ≤ length this')) as [|Hgt]; [done|]. exfalso.
  destruct (lookup_lt_is_Some_2 this (length this')) as [c Hc]; [lia|].
  destruct (Hgrown _ c Hc) as (c' & Hc'%lookup_lt_Some & _). lia.
Qed.

Lemma more_nodes_extend_the_result_witness :
  Analyzer.analyze ([Sample.leaf Sample.typeA] ++ [Sample.leaf Sample.typeB]) = Ok resultBA
  ∧ ∃ r, Analyzer.analyze [Sample.leaf Sample.typeA] = Ok r
      ∧ length (classes r) ≤ 2.
Proof.
  split; [reflexivity|].
  destruct (more_nodes_extend_the_result [Sample.leaf Sample.typeA]
              [Sample.leaf Sample.typeB] resultBA eq_refl) as (r & Hr & Hlen & _).
  by exists r.
Defined.

(** ** Programs without classes *)

(** X21: nodes without a class-like node below them give the empty
    result: no class, the five ratios NaN, the two maxima 0. *)
Theorem analysis_without_classes (nodes : list Node) :
  flat_map classTypes nodes = [] →
  analyzeProgram nodes
  = Ok {| Formatted.classes := [];
          Formatted.mif := NaN; Formatted.aif := NaN; Formatted.mhf := NaN;
          Formatted.ahf := NaN; Formatted.pof := NaN;
          Formatted.maxNumberOfChildren := 0;
          Formatted.maxDepthOfInheritance := 0 |}.
Proof.
  intros H. unfold analyzeProgram, Analyzer.analyze.
  by rewrite forOf_analyzeClass, H.
Qed.

Lemma analysis_without_classes_witness :
  ∃ out, analyzeProgram [mkNode None [mkNode None []; mkNode None []]; mkNode None []] = Ok out
    ∧ Formatted.classes out = [].
Proof.
  eexists. split; [by apply analysis_without_classes|reflexivity].
Defined.

(** ** The levels of the forest *)

Lemma isMaxOf_0 {A} (f : A → nat) l m :
  isMaxOf f l m → m = 0 ↔ ∀ x, x ∈ l → f x = 0.
Proof.
  intros (Hle & Hnil & Hex). split.
  - intros -> x Hx. specialize (Hle x Hx). lia.
  - intros H. destruct l as [|y l]; [by apply Hnil|].
    destruct Hex as (x & Hx & <-); [done|]. by apply H.
Qed.

Lemma length_filter_0 {A} (P : A → Prop) `{∀ x, Decision (P x)} (l : list A) :
  length (filter P l) = 0 ↔ ∀ x, x ∈ l → ¬ P x.
Proof.
  induction l as [|y l IH].
  - rewrite filter_nil. split; [|done]. by intros _ x Hx%elem_of_nil.
  - destruct (decide (P y)) as [Hy|Hy].
    + rewrite filter_cons_True by done. simpl. split; [done|].
      intros Hall. by destruct (Hall y (list_elem_of_here _ _)).
    + rewrite filter_cons_False by done. rewrite IH. split.
      * intros Hall x [->|Hx]%elem_of_cons; [done|by apply Hall].
      * intros Hall x Hx. by apply Hall, list_elem_of_further.
Qed.

(** X22: the depths of a result have no gap: with a class of some depth
    the result holds a class of every smaller depth.  And the two maxima
    of the formatter vanish together: the greatest depth is 0 exactly
    when the greatest number of children is. *)
Theorem depth_levels_are_filled (nodes : list Node) (r : AnalysisResult) :
  Analyzer.analyze nodes = Ok r →
  (∀ c n, c ∈ classes r → n ≤ depthOfInheritance c →
          ∃ c', c' ∈ classes r ∧ depthOfInheritance c' = n)
  ∧ (Formatted.maxDepthOfInheritance (formatMetrics r) = 0
     ↔ Formatted.maxNumberOfChildren (formatMetrics r) = 0).
Proof.
  intros Hr.
  assert (Hforest : forestShaped (classes r)).
  { apply (analyze_invariant forestShaped nodes r);
      [by intros i c Hi|apply getClassMetrics_forestShaped|done]. }
  assert (Hsum : childrenAccounted (classes r)).
  { by apply (analyze_invariant childrenAccounted nodes r);
      [|apply getClassMetrics_childrenAccounted|]. }
  split.
  - intros c n (i & Hi)%list_elem_of_lookup. revert c Hi.
    induction (lt_wf i) as [i _ IH]. intros c Hi Hn.
    destruct (decide (n = depthOfInheritance c)) as [->|Hne].
    { exists c. split; [by eapply list_elem_of_lookup_2|done]. }
    destruct (Hforest i c Hi) as [[Hd _]|(p & pc & Hlt & Hp & Hd & _)]; [lia|].
    apply (IH p Hlt pc Hp). lia.
  - simpl.
    rewrite (isMaxOf_0 _ _ _ (reduceMax_isMaxOf depthOfInheritance (classes r))).
    rewrite (isMaxOf_0 _ _ _ (reduceMax_isMaxOf numberOfChildren (classes r))).
    rewrite <- (sum_list_with_eq_0 numberOfChildren). unfold childrenAccounted in Hsum.
    rewrite Hsum, length_filter_0. split; intros H c Hc; specialize (H c Hc); lia.
Qed.

Lemma depth_levels_are_filled_witness :
  Analyzer.analyze [Sample.fileBA] = Ok resultBA
  ∧ ∃ c', c' ∈ classes resultBA ∧ depthOfInheritance c' = 0.
Proof.
  split; [reflexivity|].
  apply (proj1 (depth_levels_are_filled [Sample.fileBA] resultBA eq_refl)
           (classes resultBA !!! 1) 0).
  - simpl. solve_elem.
  - simpl. lia.
Defined.

(** * The registry when identities are shared

    A registered entry answers for every class with its name and path:
    a class met under a name and path that are registered is returned
    from [this.classes.find] with the entry of the class that was there
    first, whatever its own base types are.  The statements on depth,
    children, order and several base types are therefore stated on what
    was registered; where one name and path stand for one class they
    are statements on the classes. *)

(** ** The registrations behind a registry *)

Lemma length_filter_snoc {A} (P : A → Prop) `{∀ x, Decision (P x)} (l : list A) (x : A) :
  length (filter P (l ++ [x])) = length (filter P l) + (if decide (P x) then 1 else 0).
Proof.
  rewrite filter_app, length_app. f_equal.
  destruct (decide (P x)).
  - by rewrite filter_cons_True, filter_nil by done.
  - by rewrite filter_cons_False, filter_nil by done.
Qed.

Lemma baseCount_0_parentType t : baseCount t = 0 → parentType t = None.
Proof.
  intros H0. destruct (parentType t) as [b|] eqn:Hb; [|done].
  apply parentType_baseCount in Hb. lia.
Qed.

Lemma registeredFrom_nil U : registeredFrom U [] [].
Proof. split; [done|]. by intros i c Hi. Qed.

(** A parent entry stands before the entry. *)
Lemma registeredFrom_parent_lt U reg h j t q :
  registeredFrom U reg h → h !! j = Some (t, Some q) → q < j.
Proof.
  intros [Hlen H] Hj.
  destruct (lookup_lt_is_Some_2 reg j) as [c Hc].
  { rewrite <- Hlen. by eapply lookup_lt_Some. }
  destruct (H j c Hc) as (t' & op & Hj' & _ & _ & _ & Hop & _).
  rewrite Hj in Hj'. injection Hj' as <- <-. by destruct Hop.
Qed.

(** No entry was registered below an index beyond the registry. *)
Lemma registeredFrom_no_child U reg h n :
  registeredFrom U reg h → length reg ≤ n →
  length (filter (λ e : tsType * option nat, e.2 = Some n) h) = 0.
Proof.
  intros Hinv Hn. apply length_filter_0.
  intros [t op] (j & Hj)%list_elem_of_lookup Heq. simpl in Heq. subst op.
  pose proof (registeredFrom_parent_lt U reg h j t n Hinv Hj).
  apply lookup_lt_Some in Hj. destruct Hinv as [Hlen _]. lia.
Qed.

(** Pushing an entry for a class without base type. *)
Lemma registeredFrom_register_root U (reg : list ClassMetrics) h t m a :
  registeredFrom U reg h → t ∈ U → symbol t ≠ None → baseCount t = 0 →
  registeredFrom U (reg ++ [freshClass t None m a]) (h ++ [(t, None)]).
Proof.
  intros Hinv Ht Hsym H0. pose proof Hinv as [Hlen H]. split.
  { rewrite !length_app. simpl. lia. }
  intros i c Hi. apply lookup_app_Some in Hi as [Hi|[Hge Hi]].
  - destruct (H i c Hi) as (t' & op & Hh & Ht' & Hsym' & Hid & Hop & Hnoc).
    exists t', op. split; [by apply lookup_app_l_Some|]. split_and!; try done.
    + destruct op as [p|]; [|done].
      destruct Hop as (Hlt & b & pc & Hb & Hp & Hidp & Hd & Hn).
      split; [done|]. exists b, pc. split_and!; try done. by apply lookup_app_l_Some.
    + rewrite length_filter_snoc. case_decide; [done|lia].
  - apply list_lookup_singleton_Some in Hi as [Hi <-].
    assert (i = length reg) as -> by lia.
    exists t, None. split.
    { rewrite <- Hlen. by apply list_lookup_middle. }
    split_and!; try done.
    rewrite length_filter_snoc.
    rewrite (registeredFrom_no_child U reg h (length reg) Hinv) by done.
    by case_decide.
Qed.

(** Pushing an entry for a class below the entry [p] of its base type,
    whose [numberOfChildren] has grown by one. *)
Lemma registeredFrom_register_child U (reg : list ClassMetrics) h t b (p : nat) pc m a :
  registeredFrom U reg h → t ∈ U → symbol t ≠ None →
  parentType t = Some b → reg !! p = Some pc → classIdentity pc = typeIdentity b →
  registeredFrom U
    (alter Analyzer.incrNumberOfChildren p reg
     ++ [freshClass t (Some (Analyzer.incrNumberOfChildren pc)) m a])
    (h ++ [(t, Some p)]).
Proof.
  intros Hinv Ht Hsym Hb Hp Hidp. pose proof Hinv as [Hlen H].
  assert (Hp' : alter Analyzer.incrNumberOfChildren p reg !! p
                = Some (Analyzer.incrNumberOfChildren pc)).
  { by rewrite list_lookup_alter_eq, Hp. }
  split.
  { rewrite !length_app, length_alter. simpl. lia. }
  intros i c Hi. apply lookup_app_Some in Hi as [Hi|[Hge Hi]].
  - assert (∃ c0, reg !! i = Some c0 ∧ sameButChildren c0 c
                  ∧ numberOfChildren c
                    = numberOfChildren c0 + (if decide (p = i) then 1 else 0))
      as (c0 & Hc0 & Hs & Hnoc0).
    { destruct (decide (p = i)) as [->|Hne].
      - rewrite list_lookup_alter_eq, Hp in Hi. injection Hi as <-.
        exists pc. split; [done|]. split; [apply sameButChildren_incr|done].
      - rewrite list_lookup_alter_ne in Hi by done.
        exists c. split; [done|]. split; [apply sameButChildren_refl|simpl; lia]. }
    destruct (H i c0 Hc0) as (t' & op & Hh & Ht' & Hsym' & Hid & Hop & Hnoc).
    destruct Hs as (Hsn & Hsp & Hspc & Hsd & _).
    exists t', op. split; [by apply lookup_app_l_Some|]. split_and!; try done.
    + unfold classIdentity in *. congruence.
    + destruct op as [p0|].
      * destruct Hop as (Hlt & b0 & pc0 & Hb0 & Hp0 & Hidp0 & Hd & Hn).
        split; [done|].
        destruct (lookup_alter_incr_Some reg p p0 pc0 Hp0)
          as (pc0' & Hpc0' & (Hpn & Hpp & _ & Hpd & _)).
        exists b0, pc0'. split_and!; try done.
        -- by apply lookup_app_l_Some.
        -- unfold classIdentity in *. congruence.
        -- congruence.
        -- congruence.
      * destruct Hop as (? & ? & ?). split_and!; congruence.
    + rewrite length_filter_snoc, Hnoc0, Hnoc. f_equal.
      repeat case_decide; simplify_eq/=; done.
  - apply list_lookup_singleton_Some in Hi as [Hi <-].
    rewrite length_alter in Hi, Hge.
    assert (i = length reg) as -> by lia.
    assert (Hplt : p < length reg) by by eapply lookup_lt_Some.
    exists t, (Some p). split.
    { rewrite <- Hlen. by apply list_lookup_middle. }
    split_and!; try done.
    + exists b, (Analyzer.incrNumberOfChildren pc). split_and!; try done.
      by apply lookup_app_l_Some.
    + rewrite length_filter_snoc.
      rewrite (registeredFrom_no_child U reg h (length reg) Hinv) by done.
      case_decide; simplify_eq/=; [lia|done].
Qed.

Lemma getClassMetrics_registeredFrom U t :
  (∀ a, a ∈ lineage t → a ∈ U) →
  ∀ this h k this',
    registeredFrom U this h →
    Analyzer.getClassMetrics t this = Ok (k, this') →
    ∃ h', registeredFrom U this' h'.
Proof.
  induction t as [t IH] using tsType_parent_ind. intros HtU this h k this' Hinv H.
  pose proof (getClassMetrics_Ok_symbol _ _ _ _ H) as Hsym.
  apply getClassMetrics_Ok_inv in H
    as [(c & Hfind & ->)|(Hfind & Hbc & parent & this1 & m & a & Hparent & H)];
    [by exists h|].
  simpl in H. destruct H as (Hm & Ha & -> & ->).
  assert (Ht : t ∈ U) by apply HtU, elem_of_lineage_self.
  destruct (parentType t) as [b|] eqn:Hb.
  - destruct Hparent as (p & Hp & ->). simpl in *.
    destruct (IH b eq_refl (λ x Hx, HtU x (elem_of_lineage_parent t b x Hb Hx))
                this h p this1 Hinv Hp) as (h1 & Hinv1).
    destruct (getClassMetrics_registry b this p this1 Hp) as (_ & _ & _ & cb & Hcb & Hidb).
    assert (Hp2 : alter Analyzer.incrNumberOfChildren p this1 !! p
                  = Some (Analyzer.incrNumberOfChildren cb)).
    { by rewrite list_lookup_alter_eq, Hcb. }
    rewrite (list_lookup_total_correct _ _ _ Hp2) in *.
    exists (h1 ++ [(t, Some p)]). by eapply registeredFrom_register_child.
  - destruct Hparent as [-> ->]. simpl in *.
    exists (h ++ [(t, None)]). apply registeredFrom_register_root; try done.
    by apply parentType_None_baseCount.
Qed.

Lemma forOf_resolve_registeredFrom U ts :
  (∀ a, a ∈ flat_map lineage ts → a ∈ U) →
  ∀ this h this',
    registeredFrom U this h → forOf resolve ts this = Ok this' →
    ∃ h', registeredFrom U this' h'.
Proof.
  induction ts as [|t ts IH]; intros HU this h this' Hinv H; simpl in H.
  { injection H as <-. by exists h. }
  apply bind_Ok in H as (this1 & H1 & H). unfold resolve in H1.
  apply bind_Ok in H1 as ([k this1'] & Hk & [= ->]).
  simpl in HU.
  destruct (getClassMetrics_registeredFrom U t
              (λ a Ha, HU a (proj2 (elem_of_app _ _ a) (or_introl Ha)))
              this h k this1 Hinv Hk) as (h1 & Hinv1).
  exact (IH (λ a Ha, HU a (proj2 (elem_of_app _ _ a) (or_intror Ha))) this1 h1 this' Hinv1 H).
Qed.

(** The registry of a result has its registrations among the classes
    met. *)
Lemma analyze_registeredFrom nodes r :
  Analyzer.analyze nodes = Ok r →
  ∃ h, registeredFrom (resolvedTypes nodes) (classes r) h.
Proof.
  intros (this & Hthis & ->)%analyze_Ok. simpl.
  rewrite forOf_analyzeClass in Hthis.
  exact (forOf_resolve_registeredFrom (resolvedTypes nodes) _ (λ a H, H) [] [] this
           (registeredFrom_nil _) Hthis).
Qed.

(** ** Sample runs with a generic class *)

Local Ltac each_entry H :=
  repeat (apply elem_of_cons in H as [->|H]); [..|by apply elem_of_nil in H].

Lemma analyze_fileGBR : Analyzer.analyze [Generics.fileGBR] = Ok Generics.resultGBR.
Proof. reflexivity. Qed.

(** ** Depth *)

(** C5: the depth of an entry follows the entry of the parent.  Every
    entry of a result was registered for a class that the analysis met
    and whose name and path it has: its depth is 0 if that class has no
    base type, and one more than the depth of an entry at a smaller
    index, with the name and path of the base type, otherwise.  Where
    one name and path stand for one class among the classes met, every
    class met has one entry, of depth 0 without parent and of depth one
    more than the entry of its parent otherwise. *)
Theorem depth_follows_parent (nodes : list Node) (r : AnalysisResult) :
  Analyzer.analyze nodes = Ok r →
  (∀ i c, classes r !! i = Some c →
     ∃ t, t ∈ resolvedTypes nodes ∧ classIdentity c = typeIdentity t
       ∧ match parentType t with
         | None => baseCount t = 0 ∧ depthOfInheritance c = 0
         | Some b =>
             ∃ p pc, p < i ∧ classes r !! p = Some pc
               ∧ classIdentity pc = typeIdentity b
               ∧ depthOfInheritance c = 1 + depthOfInheritance pc
         end)
  ∧ (consistent (resolvedTypes nodes) →
     ∀ t, t ∈ resolvedTypes nodes →
       ∃ c, registeredAs (classes r) t c
         ∧ (∀ c', registeredAs (classes r) t c' → c' = c)
         ∧ match parentType t with
           | None => baseCount t = 0 ∧ depthOfInheritance c = 0
           | Some b =>
               ∃ pc, registeredAs (classes r) b pc
                 ∧ depthOfInheritance c = 1 + depthOfInheritance pc
           end).
Proof.
  intros Hr. split.
  - destruct (analyze_registeredFrom nodes r Hr) as (h & _ & H).
    intros i c Hi. destruct (H i c Hi) as (t & op & _ & Ht & _ & Hid & Hop & _).
    exists t. split; [done|]. split; [done|].
    destruct op as [p|].
    + destruct Hop as (Hlt & b & pc & -> & Hp & Hidp & Hd & _). by exists p, pc.
    + destruct Hop as (H0 & Hd & _). by rewrite (baseCount_0_parentType t H0).
  - intros Hcons. by destruct (depth_under_unique_identities nodes r Hcons Hr).
Qed.

Lemma depth_follows_parent_witness :
  (Analyzer.analyze [Generics.fileGBR] = Ok Generics.resultGBR
   ∧ ∃ t, t ∈ resolvedTypes [Generics.fileGBR]
       ∧ (typeToString t, Analyzer.classPathOf t) = ("G<T>", "shapes.ts:3:1")
       ∧ match parentType t with
         | None => baseCount t = 0 ∧ 1 = 0
         | Some b =>
             ∃ p pc, p < 1 ∧ classes Generics.resultGBR !! p = Some pc
               ∧ classIdentity pc = typeIdentity b
               ∧ 1 = 1 + depthOfInheritance pc
         end)
  ∧ (consistent (resolvedTypes [Sample.fileEBA])
     ∧ ∃ r, Analyzer.analyze [Sample.fileEBA] = Ok r
       ∧ ∃ c pc, registeredAs (classes r) Sample.typeE c
           ∧ registeredAs (classes r) Sample.typeB pc
           ∧ depthOfInheritance c = 1 + depthOfInheritance pc).
Proof.
  split.
  - split; [exact analyze_fileGBR|].
    destruct (proj1 (depth_follows_parent _ _ analyze_fileGBR) 1 _ eq_refl)
      as (t & Ht & Hid & H).
    exists t. split; [exact Ht|]. split; [symmetry; exact Hid|exact H].
  - split; [exact consistent_fileEBA|].
    destruct (Analyzer.analyze [Sample.fileEBA]) as [r|e] eqn:Hr;
      [|vm_compute in Hr; discriminate Hr].
    exists r. split; [reflexivity|].
    destruct (proj2 (depth_follows_parent [Sample.fileEBA] r Hr) consistent_fileEBA
                Sample.typeE) as (c & Hc & _ & pc & Hpc & Hdepth).
    { unfold resolvedTypes. simpl. apply list_elem_of_here. }
    by exists c, pc.
Defined.

(** C5 as stated fails: the declaration of [Base<T>] extends [Root], but
    [Base<T>] was registered as the base type of [G<T>], from the
    reference, which has no base type; its entry has depth 0, not one
    more than the depth of the entry of [Root]. *)
Lemma depth_of_generic_base_is_0 :
  Analyzer.analyze [Generics.fileGBR] = Ok Generics.resultGBR
  ∧ Generics.typeBase ∈ flat_map classTypes [Generics.fileGBR]
  ∧ parentType Generics.typeBase = Some Generics.typeRoot
  ∧ registeredAs (classes Generics.resultGBR) Generics.typeBase
      (Generics.entry "Base<T>" "shapes.ts:2:1" "" 0 1)
  ∧ registeredAs (classes Generics.resultGBR) Generics.typeRoot
      (Generics.entry "Root" "shapes.ts:1:1" "" 0 0)
  ∧ ∀ c pc, registeredAs (classes Generics.resultGBR) Generics.typeBase c →
            registeredAs (classes Generics.resultGBR) Generics.typeRoot pc →
            depthOfInheritance c = 0
            ∧ depthOfInheritance c ≠ 1 + depthOfInheritance pc.
Proof.
  split; [exact analyze_fileGBR|]. split_and!.
  - simpl. solve_elem.
  - reflexivity.
  - split; [simpl; solve_elem|reflexivity].
  - split; [simpl; solve_elem|reflexivity].
  - intros c pc [Hc Hid] _. simpl in Hc.
    each_entry Hc; by (simpl; lia) || (vm_compute in Hid; discriminate Hid).
Qed.

(** ** Children *)

(** C6: [numberOfChildren] counts the entries registered below an entry.
    The entries of a result were registered one after the other, each
    for a class met and either without parent entry or below an earlier
    entry, and the [numberOfChildren] of an entry is the number of
    entries registered below it; a class met again under a registered
    name and path registers nothing.  Where one name and path stand for
    one class among the classes met, it is the number of distinct
    classes met whose parent is the class of the entry. *)
Theorem numberOfChildren_counts_children (nodes : list Node) (r : AnalysisResult) :
  Analyzer.analyze nodes = Ok r →
  (∃ h, registeredFrom (resolvedTypes nodes) (classes r) h
        ∧ ∀ i c, classes r !! i = Some c →
            numberOfChildren c = length (filter (λ e, e.2 = Some i) h))
  ∧ (consistent (resolvedTypes nodes) →
     (∀ c, c ∈ classes r →
        numberOfChildren c = childrenIn (resolvedTypes nodes) (classIdentity c))
     ∧ (∀ t, t ∈ resolvedTypes nodes →
          ∃ c, registeredAs (classes r) t c
            ∧ numberOfChildren c = childrenIn (resolvedTypes nodes) (typeIdentity t))).
Proof.
  intros Hr. split.
  - destruct (analyze_registeredFrom nodes r Hr) as (h & Hinv).
    exists h. split; [done|]. destruct Hinv as [_ H].
    intros i c Hi. by destruct (H i c Hi) as (t & op & _ & _ & _ & _ & _ & Hnoc).
  - intros Hcons. by apply children_under_unique_identities.
Qed.

Lemma numberOfChildren_counts_children_witness :
  (Analyzer.analyze [Generics.fileGBR] = Ok Generics.resultGBR
   ∧ ∃ h, length h = 3
       ∧ 1 = length (filter (λ e : tsType * option nat, e.2 = Some 0) h)
       ∧ 0 = length (filter (λ e : tsType * option nat, e.2 = Some 2) h))
  ∧ (consistent (resolvedTypes [Sample.fileEBA])
     ∧ ∃ r, Analyzer.analyze [Sample.fileEBA] = Ok r
       ∧ ∃ c, registeredAs (classes r) Sample.typeA c ∧ numberOfChildren c = 1).
Proof.
  split.
  - split; [exact analyze_fileGBR|].
    destruct (proj1 (numberOfChildren_counts_children _ _ analyze_fileGBR))
      as (h & [Hlen _] & Hnoc).
    exists h. split; [exact Hlen|].
    split; [exact (Hnoc 0 _ eq_refl)|exact (Hnoc 2 _ eq_refl)].
  - split; [exact consistent_fileEBA|].
    destruct (Analyzer.analyze [Sample.fileEBA]) as [r|e] eqn:Hr;
      [|vm_compute in Hr; discriminate Hr].
    exists r. split; [reflexivity|].
    destruct (proj2 (numberOfChildren_counts_children [Sample.fileEBA] r Hr)
                consistent_fileEBA) as [_ H].
    destruct (H Sample.typeA) as (c & Hc & Hnoc).
    { unfold resolvedTypes. simpl. do 2 apply list_elem_of_further. apply list_elem_of_here. }
    exists c. split; [done|]. rewrite Hnoc. reflexivity.
Defined.

(** C6 as stated fails: the declaration of [Base<T>] extends [Root] and
    is met, so that one class met has [Root] as parent, but [Base<T>]
    was registered from the reference, without parent, and the entry of
    [Root] counts no child. *)
Lemma generic_child_is_not_counted :
  Analyzer.analyze [Generics.fileGBR] = Ok Generics.resultGBR
  ∧ Generics.typeBase ∈ flat_map classTypes [Generics.fileGBR]
  ∧ parentType Generics.typeBase = Some Generics.typeRoot
  ∧ childrenIn (resolvedTypes [Generics.fileGBR]) (typeIdentity Generics.typeRoot) = 1
  ∧ registeredAs (classes Generics.resultGBR) Generics.typeRoot
      (Generics.entry "Root" "shapes.ts:1:1" "" 0 0)
  ∧ ∀ c, registeredAs (classes Generics.resultGBR) Generics.typeRoot c →
         numberOfChildren c = 0.
Proof.
  split; [exact analyze_fileGBR|]. split_and!.
  - simpl. solve_elem.
  - reflexivity.
  - reflexivity.
  - split; [simpl; solve_elem|reflexivity].
  - intros c [Hc Hid]. simpl in Hc.
    each_entry Hc; done || (vm_compute in Hid; discriminate Hid).
Qed.

(** ** Order *)

(** C10: an entry stands after the entry of its parent.  In the emitted
    array, which lists the entries in the order of the registry, every
    entry was registered for a class met whose name and path it has,
    and, if that class has a base type, after an entry with the name
    and path of the base type, whose name it holds as parent name.
    Where one name and path stand for one class among the classes met,
    every class met with a parent stands at a later index than its
    parent. *)
Theorem parent_precedes_child (nodes : list Node) (out : Formatted.t) :
  analyzeProgram nodes = Ok out →
  ∃ r, Analyzer.analyze nodes = Ok r
    ∧ Formatted.classes out = clearedClassOf <$> classes r
    ∧ (∀ k c, classes r !! k = Some c →
         Formatted.classes out !! k = Some (clearedClassOf c)
         ∧ ∃ t, t ∈ resolvedTypes nodes ∧ classIdentity c = typeIdentity t
             ∧ ∀ b, parentType t = Some b →
                 ∃ p pc, p < k ∧ classes r !! p = Some pc
                   ∧ classIdentity pc = typeIdentity b
                   ∧ parentClass c = className pc
                   ∧ Formatted.classes out !! p = Some (clearedClassOf pc))
    ∧ (consistent (resolvedTypes nodes) →
       ∀ t b, t ∈ resolvedTypes nodes → parentType t = Some b →
         ∃ p k pc c,
           p < k
           ∧ classes r !! p = Some pc ∧ classIdentity pc = typeIdentity b
           ∧ classes r !! k = Some c ∧ classIdentity c = typeIdentity t
           ∧ Formatted.classes out !! p = Some (clearedClassOf pc)
           ∧ Formatted.classes out !! k = Some (clearedClassOf c)
           ∧ (∀ j x, classes r !! j = Some x →
                     (classIdentity x = typeIdentity b → j = p)
                     ∧ (classIdentity x = typeIdentity t → j = k))).
Proof.
  intros Hout. pose proof Hout as Hout'. unfold analyzeProgram in Hout'.
  apply bind_Ok in Hout' as (r & Hr & [= <-]).
  exists r. split; [done|]. split; [done|]. split.
  - destruct (analyze_registeredFrom nodes r Hr) as (h & _ & H).
    intros k c Hk. split; [simpl; by rewrite list_lookup_fmap, Hk|].
    destruct (H k c Hk) as (t & op & _ & Ht & _ & Hid & Hop & _).
    exists t. split; [done|]. split; [done|]. intros b Hb.
    destruct op as [p|].
    + destruct Hop as (Hlt & b' & pc & Hb' & Hp & Hidp & _ & Hn).
      assert (b' = b) as -> by congruence.
      exists p, pc. split_and!; try done. simpl. by rewrite list_lookup_fmap, Hp.
    + destruct Hop as (H0 & _). apply baseCount_0_parentType in H0. congruence.
  - intros Hcons.
    destruct (order_under_unique_identities nodes _ Hcons Hout) as (r' & Hr' & _ & H).
    by assert (r' = r) as -> by congruence.
Qed.

Lemma parent_precedes_child_witness :
  (analyzeProgram [Generics.fileGBR] = Ok (formatMetrics Generics.resultGBR)
   ∧ ∃ t, t ∈ resolvedTypes [Generics.fileGBR]
       ∧ (typeToString t, Analyzer.classPathOf t) = ("G<T>", "shapes.ts:3:1")
       ∧ ∀ b, parentType t = Some b →
           ∃ p pc, p < 1
             ∧ classIdentity pc = typeIdentity b
             ∧ className pc = "Base<T>"
             ∧ Formatted.classes (formatMetrics Generics.resultGBR) !! p
               = Some (clearedClassOf pc))
  ∧ (consistent (resolvedTypes [Sample.fileEBA])
     ∧ ∃ out, analyzeProgram [Sample.fileEBA] = Ok out
       ∧ ∃ p k pc c,
           p < k
           ∧ classIdentity pc = typeIdentity Sample.typeB
           ∧ classIdentity c = typeIdentity Sample.typeE
           ∧ Formatted.classes out !! p = Some (clearedClassOf pc)
           ∧ Formatted.classes out !! k = Some (clearedClassOf c)).
Proof.
  split.
  - split; [reflexivity|].
    destruct (parent_precedes_child [Generics.fileGBR] (formatMetrics Generics.resultGBR)
                eq_refl) as (r & Hr & _ & H & _).
    rewrite analyze_fileGBR in Hr. injection Hr as <-.
    destruct (H 1 _ eq_refl) as (_ & t & Ht & Hid & Hpar).
    exists t. split; [exact Ht|]. split; [symmetry; exact Hid|].
    intros b Hb. destruct (Hpar b Hb) as (p & pc & Hlt & _ & Hidp & Hn & Ho).
    exists p, pc. split_and!; done.
  - split; [exact consistent_fileEBA|].
    destruct (analyzeProgram [Sample.fileEBA]) as [out|e] eqn:Hout;
      [|vm_compute in Hout; discriminate Hout].
    exists out. split; [reflexivity|].
    destruct (parent_precedes_child [Sample.fileEBA] out Hout) as (r & _ & _ & _ & H).
    destruct (H consistent_fileEBA Sample.typeE Sample.typeB)
      as (p & k & pc & c & Hlt & _ & Hp & _ & Hk & Ho1 & Ho2 & _).
    { unfold resolvedTypes. simpl. apply list_elem_of_here. }
    { reflexivity. }
    by exists p, k, pc, c.
Defined.

(** C10 as stated fails: the declaration of [Base<T>] extends [Root],
    but the entry of [Base<T>], registered from the reference when
    [G<T>] was resolved, stands first in the emitted array and the entry
    of [Root] last. *)
Lemma generic_parent_stands_after_child :
  analyzeProgram [Generics.fileGBR] = Ok (formatMetrics Generics.resultGBR)
  ∧ Generics.typeBase ∈ flat_map classTypes [Generics.fileGBR]
  ∧ parentType Generics.typeBase = Some Generics.typeRoot
  ∧ Formatted.classes (formatMetrics Generics.resultGBR) !! 0
    = Some (clearedClassOf (Generics.entry "Base<T>" "shapes.ts:2:1" "" 0 1))
  ∧ Formatted.classes (formatMetrics Generics.resultGBR) !! 2
    = Some (clearedClassOf (Generics.entry "Root" "shapes.ts:1:1" "" 0 0))
  ∧ ∀ k p c pc,
      classes Generics.resultGBR !! k = Some c →
      classIdentity c = typeIdentity Generics.typeBase →
      classes Generics.resultGBR !! p = Some pc →
      classIdentity pc = typeIdentity Generics.typeRoot →
      k = 0 ∧ p = 2 ∧ ¬ p < k.
Proof.
  split; [reflexivity|]. split_and!.
  - simpl. solve_elem.
  - reflexivity.
  - reflexivity.
  - reflexivity.
  - intros k p c pc Hk Hc Hp Hpc.
    assert (k = 0) as ->.
    { destruct k as [|[|[|k]]]; simpl in Hk; [done|..|done];
        injection Hk as <-; vm_compute in Hc; discriminate Hc. }
    assert (p = 2) as ->.
    { destruct p as [|[|[|p]]]; simpl in Hp; [..|done|done];
        injection Hp as <-; vm_compute in Hpc; discriminate Hpc. }
    split; [done|]. split; [done|lia].
Qed.

(** ** Several base types *)

(** A class that is reached with two or more base types stops the
    resolution: when no class from [t] up to [a] is found in the
    registry, [getClassMetrics] comes to [getParentClassMetrics] for
    [a], unless a class on the way has no symbol. *)
Lemma getClassMetrics_several_bases t :
  ∀ (this : list ClassMetrics) a,
    a ∈ lineage t → 2 ≤ baseCount a →
    (∀ d c, d ∈ lineage t → c ∈ this → classIdentity c ≠ typeIdentity d) →
    ∃ e, Analyzer.getClassMetrics t this = Throw e
      ∧ (e = UnexpectedBaseClassesNumber (baseCount a)
         ∨ (e = TypeError ∧ ∃ d, d ∈ lineage t ∧ symbol d = None)).
Proof.
  induction t as [t IH] using tsType_parent_ind. intros this a Ha Hge Hfresh.
  destruct (symbol t) as [sym|] eqn:Hsym.
  2:{ exists TypeError. split; [by apply getClassMetrics_no_symbol|].
      right. split; [done|]. exists t. split; [apply elem_of_lineage_self|done]. }
  rewrite getClassMetrics_eq by (by rewrite Hsym).
  rewrite (proj2 (list_find_sameClass_None t this))
    by (intros c Hc; by apply (Hfresh t c (elem_of_lineage_self t))).
  rewrite getParentClassMetrics_eq.
  apply elem_of_lineage in Ha as [->|(b & Hb & Ha)].
  - destruct (parentType t) as [b|] eqn:Hb.
    { apply parentType_baseCount in Hb. lia. }
    rewrite decide_False by lia. exists (UnexpectedBaseClassesNumber (baseCount t)).
    split; [done|by left].
  - rewrite Hb.
    destruct (IH b Hb this a Ha Hge) as (e & He & Hcause).
    { intros d c Hd. apply Hfresh. by eapply elem_of_lineage_parent. }
    rewrite He. exists e. split; [done|].
    destruct Hcause as [->|[-> (d & Hd & Hds)]]; [by left|].
    right. split; [done|]. exists d. split; [by eapply elem_of_lineage_parent|done].
Qed.

(** C4: a class with two or more base types that is reached aborts the
    analysis.  When the analysis meets a class-like node of type [t]
    from which a class [a] with two or more base types is reached, no
    class from [t] up to [a] having the name and path of a class met
    before, it throws and returns no result, whatever was resolved
    before and whatever follows: the error of the base types of [a],
    unless a class on the way from [t] has no symbol or the classes
    before [t] have thrown already.  (A class whose name and path are
    registered is returned from the registry and its base types are not
    counted.)  Where one name and path stand for one class among the
    classes met, the analysis throws whenever a class met has two or
    more base types. *)
Theorem multiple_inheritance_aborts (nodes : list Node) (a : tsType) :
  2 ≤ baseCount a →
  (∀ pre t post,
     flat_map classTypes nodes = pre ++ t :: post →
     a ∈ lineage t →
     (∀ d x, d ∈ lineage t → x ∈ flat_map lineage pre →
             typeIdentity x ≠ typeIdentity d) →
     ∃ e, Analyzer.analyze nodes = Throw e
       ∧ analyzeProgram nodes = Throw e
       ∧ (e = UnexpectedBaseClassesNumber (baseCount a)
          ∨ (e = TypeError ∧ ∃ d, d ∈ lineage t ∧ symbol d = None)
          ∨ forOf resolve pre [] = Throw e))
  ∧ (consistent (resolvedTypes nodes) → a ∈ resolvedTypes nodes →
     ∃ e, Analyzer.analyze nodes = Throw e
       ∧ analyzeProgram nodes = Throw e
       ∧ ((∀ x, x ∈ resolvedTypes nodes → symbolDeclarations x ≠ None) →
          ∃ x, x ∈ resolvedTypes nodes ∧ 2 ≤ baseCount x
               ∧ e = UnexpectedBaseClassesNumber (baseCount x))).
Proof.
  intros Hge. split.
  - intros pre t post Hflat Ha Hfresh.
    assert (∃ e, forOf resolve (pre ++ t :: post) [] = Throw e
                 ∧ (e = UnexpectedBaseClassesNumber (baseCount a)
                    ∨ (e = TypeError ∧ ∃ d, d ∈ lineage t ∧ symbol d = None)
                    ∨ forOf resolve pre [] = Throw e)) as (e & He & Hcause).
    { rewrite forOf_app.
      destruct (forOf resolve pre []) as [this|e0] eqn:Hpre; simpl.
      - destruct (forOf_resolve_coverage pre [] this Hpre) as (_ & Hnew & _).
        destruct (getClassMetrics_several_bases t this a Ha Hge) as (e & He & Hcause).
        { intros d c Hd (i & Hi)%list_elem_of_lookup Hid.
          destruct (Hnew i c Hi) as (x & Hx & Hidx); [simpl; lia|].
          apply (Hfresh d x Hd Hx). congruence. }
        exists e. split.
        + unfold resolve at 2. by rewrite He.
        + destruct Hcause as [?|?]; [by left|by right; left].
      - exists e0. split; [done|]. by right; right. }
    exists e.
    assert (Hr : Analyzer.analyze nodes = Throw e).
    { apply analyze_Throw. by rewrite forOf_analyzeClass, Hflat. }
    split; [done|]. split; [|done]. unfold analyzeProgram. by rewrite Hr.
  - intros Hcons Ha.
    destruct (multiple_inheritance_under_unique_identities nodes a Hcons Ha Hge)
      as (e & Hout & Hr & He).
    by exists e.
Qed.

Lemma consistent_leafED :
  consistent (resolvedTypes [Sample.leaf Sample.typeE; Sample.leaf Sample.typeD]).
Proof. solve_consistent. Qed.

Lemma multiple_inheritance_aborts_witness :
  (2 ≤ baseCount Generics.typeM
   ∧ ∃ e, Analyzer.analyze [Generics.fileMN] = Throw e
       ∧ analyzeProgram [Generics.fileMN] = Throw e)
  ∧ (2 ≤ baseCount Sample.typeD
     ∧ consistent (resolvedTypes [Sample.leaf Sample.typeE; Sample.leaf Sample.typeD])
     ∧ Sample.typeD ∈ resolvedTypes [Sample.leaf Sample.typeE; Sample.leaf Sample.typeD]
     ∧ ∃ e, Analyzer.analyze [Sample.leaf Sample.typeE; Sample.leaf Sample.typeD] = Throw e).
Proof.
  assert (Hge : 2 ≤ baseCount Generics.typeM) by (vm_compute; lia).
  assert (Hge' : 2 ≤ baseCount Sample.typeD) by (vm_compute; lia).
  assert (Hin : Sample.typeD
            ∈ resolvedTypes [Sample.leaf Sample.typeE; Sample.leaf Sample.typeD]).
  { unfold resolvedTypes. simpl. do 3 apply list_elem_of_further. apply list_elem_of_here. }
  split.
  - split; [exact Hge|].
    destruct (proj1 (multiple_inheritance_aborts [Generics.fileMN] Generics.typeM Hge)
                [] Generics.typeM [Generics.typeN] eq_refl (elem_of_lineage_self _))
      as (e & Hr & Hout & _).
    + intros d x _ Hx. by apply elem_of_nil in Hx.
    + by exists e.
  - split; [exact Hge'|]. split; [exact consistent_leafED|]. split; [exact Hin|].
    destruct (proj2 (multiple_inheritance_aborts _ Sample.typeD Hge') consistent_leafED Hin)
      as (e & Hr & _).
    by exists e.
Defined.

(** C4 as stated fails: the declaration of [M<T>] has two base types and
    is met, but [M<T>] was registered before, as the base type of
    [N<T>], from the reference; the declaration is found in the registry
    and the analysis returns a result.  With [M] declared before [N] it
    throws. *)
Lemma several_base_types_pass_once_registered :
  Generics.typeM ∈ flat_map classTypes [Generics.fileNM]
  ∧ 2 ≤ baseCount Generics.typeM
  ∧ Analyzer.analyze [Generics.fileNM] = Ok Generics.resultNM
  ∧ analyzeProgram [Generics.fileNM] = Ok (formatMetrics Generics.resultNM)
  ∧ Analyzer.analyze [Generics.fileMN] = Throw (UnexpectedBaseClassesNumber 2).
Proof.
  split_and!.
  - simpl. solve_elem.
  - vm_compute. lia.
  - reflexivity.
  - reflexivity.
  - reflexivity.
Qed.
